(** * element43: wallet walkers, research import and bill-of-materials merge

    A shallow embedding of
    - [apps/manufacturing/functions.py] ([merge_bill_of_materials],
      [calculate_material_prices], [update_blueprint_history]) and
    - [apps/api/tasks.py] (the per-character import tasks, the periodic
      tasks that schedule them and the imports of reference data),
    followed by the properties established about them. *)

From Stdlib Require Import ZArith List Bool Lia String.
Import ListNotations.
Local Open Scope Z_scope.

(* ===================================================================== *)
(** * Part I: definitions                                                 *)
(* ===================================================================== *)

(** ** apps/manufacturing/functions.py *)

Module Manufacturing.

(** A bill-of-materials entry is a Python dict with the keys written by
    [get_materials].  Prices and volumes are only carried around by the
    code modelled here, so they are kept as plain numbers. *)
Record Material := mkMaterial {
  mat_id : Z;
  mat_name : string;
  mat_quantity : Z;
  mat_volume : Z;
  mat_price : Z;
  mat_price_total : Z;
  mat_producible : bool
}.

(** Python lists hold references to dicts, and [material['quantity'] += ...]
    updates the referenced dict in place.  Object identities are [ref]s and
    the object store maps every identity to the current contents. *)
Definition ref := nat.
Definition heap := ref -> Material.

Definition set_quantity (q : Z) (m : Material) : Material :=
  mkMaterial (mat_id m) (mat_name m) q (mat_volume m) (mat_price m)
             (mat_price_total m) (mat_producible m).

Definition heap_set (h : heap) (r : ref) (m : Material) : heap :=
  fun r' => if Nat.eqb r' r then m else h r'.

(** First inner loop: is there a material with the id of the item? *)
Fixpoint is_in_materials (h : heap) (materials : list ref) (item_id : Z) : bool :=
  match materials with
  | [] => false
  | material :: rest =>
      if mat_id (h material) =? item_id then true
      else is_in_materials h rest item_id
  end.

(** Second inner loop: the first material with the id of the item gets the
    quantity of the item added, in place; then [break]. *)
Fixpoint add_to_first (h : heap) (materials : list ref) (item : ref) : heap :=
  match materials with
  | [] => h
  | material :: rest =>
      if mat_id (h material) =? mat_id (h item)
      then heap_set h material
             (set_quantity (mat_quantity (h material) + mat_quantity (h item))
                           (h material))
      else add_to_first h rest item
  end.

(** Body of the outer loop for one [item]. *)
Definition merge_item (st : heap * list ref) (item : ref) : heap * list ref :=
  let '(h, materials) := st in
  if is_in_materials h materials (mat_id (h item))
  then (add_to_first h materials item, materials)
  else (h, materials ++ [item]).

(** [for item in itertools.chain(materials1, materials2)] starting from
    [materials = []]; returns the object store after the call and the
    returned list. *)
Definition merge_bill_of_materials (h : heap) (materials1 materials2 : list ref)
  : heap * list ref :=
  fold_left merge_item (materials1 ++ materials2) (h, []).

(** The sum of the quantities, on entry, of the entries carrying [i]. *)
Definition quantity_of (h : heap) (items : list ref) (i : Z) : Z :=
  fold_right Z.add 0
    (map (fun r => mat_quantity (h r))
         (List.filter (fun r => mat_id (h r) =? i) items)).

(** The fields other than the quantity. *)
Definition same_but_quantity (a b : Material) : Prop :=
  mat_id a = mat_id b /\ mat_name a = mat_name b /\ mat_volume a = mat_volume b /\
  mat_price a = mat_price b /\ mat_price_total a = mat_price_total b /\
  mat_producible a = mat_producible b.

(** [r] is the first entry of [items] that carries its id. *)
Definition first_with_id (h : heap) (items : list ref) (r : ref) : Prop :=
  exists pre post, items = pre ++ r :: post /\
    forall x, In x pre -> mat_id (h x) <> mat_id (h r).

(** The merge postcondition for inputs [items = materials1 ++ materials2]:
    every id occurs exactly once in the result, with the summed quantity
    and the other fields of the first entry carrying it. *)
Definition merged (h : heap) (items : list ref) (res : heap * list ref) : Prop :=
  let '(h', ms) := res in
  NoDup (map (fun r => mat_id (h' r)) ms) /\
  (forall x, In x items -> exists r, In r ms /\ mat_id (h' r) = mat_id (h x)) /\
  (forall r, In r ms ->
     mat_quantity (h' r) = quantity_of h items (mat_id (h' r)) /\
     same_but_quantity (h' r) (h r) /\
     first_with_id h items r).

End Manufacturing.

(** ** apps/api/tasks.py: the data the tasks work on *)

Module Tasks.

(** Exceptions that reach the control flow of the tasks, told apart by
    kind: a [DoesNotExist] or [MultipleObjectsReturned] is caught by the
    handler for the model class at hand.  [EveApiError] is [eveapi.Error];
    [TransportError] stands for any other failure of a remote call (it is
    not an [eveapi.Error], so no handler catches it).  [ValueError] is
    what [datetime.datetime.utcfromtimestamp] raises; no handler of the
    tasks catches it. *)
Inductive exn :=
| DoesNotExist
| MultipleObjectsReturned
| IntegrityError
| IndexError
| ValueError
| EveApiError (code : Z)
| TransportError.

(** *** Stored rows ([apps.api.models], [apps.market_data.models], [eve_db.models]).
    The model classes are not part of the sources: a row carries the fields
    that the tasks read and write, under the names the tasks use.
    Timestamps are seconds since the epoch (UTC); decimal amounts are only
    copied by the tasks and are kept as plain numbers. *)

Record Character := mkCharacter {
  char_id : Z;
  char_name : string;
  char_apikey_id : Z
}.

Record APIKey := mkAPIKey {
  apikey_id : Z;
  apikey_keyid : Z;
  apikey_vcode : string;
  apikey_is_valid : bool
}.

Record APITimer := mkAPITimer {
  timer_id : Z;
  timer_character : Z;
  timer_apisheet : string;
  timer_nextupdate : Z
}.

Record MarketTransaction := mkMarketTransaction {
  mt_id : Z;
  mt_character : Z;
  mt_date : Z;
  mt_transaction_id : Z;
  mt_invtype_id : Z;
  mt_quantity : Z;
  mt_price : Z;
  mt_client_id : Z;
  mt_client_name : string;
  mt_station_id : Z;
  mt_is_bid : bool;
  mt_journal_transaction_id : Z;
  mt_is_corporate_transaction : bool
}.

Record JournalEntry := mkJournalEntry {
  je_id : Z;
  je_ref_id : Z;
  je_character : Z;
  je_date : Z;
  je_ref_type_id : Z;
  je_amount : Z;
  je_balance : Z;
  je_owner_name_1 : string;
  je_owner_id_1 : Z;
  je_owner_name_2 : string;
  je_owner_id_2 : Z;
  je_arg_name_1 : string;
  je_arg_id_1 : Z;
  je_reason : string;
  je_tax_receiver_id : Z;
  je_tax_amount : Z
}.

Record Research := mkResearch {
  rs_id : Z;
  rs_character : Z;
  rs_agent_id : Z;
  rs_skill_id : Z;
  rs_start_date : Z;
  rs_points_per_day : Z;
  rs_remainder_points : Z
}.

Record StaStation := mkStaStation {
  sta_id : Z;
  sta_region : Z;
  sta_solar_system : Z
}.

Record Orders := mkOrders {
  ord_id : Z;
  ord_generated_at : Z;
  ord_mapregion : Z;
  ord_invtype_id : Z;
  ord_price : Z;
  ord_volume_remaining : Z;
  ord_volume_entered : Z;
  ord_minimum_volume : Z;
  ord_order_range : Z;
  ord_is_bid : bool;
  ord_issue_date : Z;
  ord_duration : Z;
  ord_stastation : Z;
  ord_mapsolarsystem : Z;
  ord_is_suspicious : bool;
  ord_message_key : string;
  ord_uploader_ip_hash : string;
  ord_is_active : bool
}.

Record MarketOrder := mkMarketOrder {
  mo_id : Z;
  mo_character : Z;
  mo_order_state : Z;
  mo_account_key : Z;
  mo_escrow : Z
}.

(** The database: one list of rows per table, in storage order. *)
Record Store := mkStore {
  characters : list Character;
  apikeys : list APIKey;
  api_timers : list APITimer;
  market_transactions : list MarketTransaction;
  journal_entries : list JournalEntry;
  research : list Research;
  stations : list StaStation;
  orders : list Orders;
  market_orders : list MarketOrder
}.

Definition with_apikeys (v : list APIKey) (s : Store) : Store :=
  mkStore (characters s) v (api_timers s) (market_transactions s)
          (journal_entries s) (research s) (stations s) (orders s) (market_orders s).
Definition with_api_timers (v : list APITimer) (s : Store) : Store :=
  mkStore (characters s) (apikeys s) v (market_transactions s)
          (journal_entries s) (research s) (stations s) (orders s) (market_orders s).
Definition with_market_transactions (v : list MarketTransaction) (s : Store) : Store :=
  mkStore (characters s) (apikeys s) (api_timers s) v
          (journal_entries s) (research s) (stations s) (orders s) (market_orders s).
Definition with_journal_entries (v : list JournalEntry) (s : Store) : Store :=
  mkStore (characters s) (apikeys s) (api_timers s) (market_transactions s)
          v (research s) (stations s) (orders s) (market_orders s).
Definition with_research (v : list Research) (s : Store) : Store :=
  mkStore (characters s) (apikeys s) (api_timers s) (market_transactions s)
          (journal_entries s) v (stations s) (orders s) (market_orders s).
Definition with_orders (v : list Orders) (s : Store) : Store :=
  mkStore (characters s) (apikeys s) (api_timers s) (market_transactions s)
          (journal_entries s) (research s) (stations s) v (market_orders s).
Definition with_market_orders (v : list MarketOrder) (s : Store) : Store :=
  mkStore (characters s) (apikeys s) (api_timers s) (market_transactions s)
          (journal_entries s) (research s) (stations s) (orders s) v.

(** *** Rows of the remote API (eveapi rowsets) *)

Record TransactionRow := mkTransactionRow {
  transactionDateTime : Z;
  transactionID : Z;
  tr_typeID : Z;
  tr_quantity : Z;
  tr_price : Z;
  clientID : Z;
  clientName : string;
  tr_stationID : Z;
  transactionType : string;
  journalTransactionID : Z;
  transactionFor : string
}.

Record JournalRow := mkJournalRow {
  refID : Z;
  jr_date : Z;
  refTypeID : Z;
  amount : Z;
  balance : Z;
  ownerName1 : string;
  ownerID1 : Z;
  ownerName2 : string;
  ownerID2 : Z;
  argName1 : string;
  argID1 : Z;
  reason : string;
  taxReceiverID : string;
  taxAmount : string
}.

Record ResearchRow := mkResearchRow {
  agentID : Z;
  skillTypeID : Z;
  researchStartDate : Z;
  pointsPerDay : Z;
  remainderPoints : Z
}.

Record OrderRow := mkOrderRow {
  orderID : Z;
  or_stationID : Z;
  or_typeID : Z;
  or_price : Z;
  volRemaining : Z;
  volEntered : Z;
  minVolume : Z;
  or_range : Z;
  or_bid : bool;
  issued : Z;
  or_duration : Z;
  orderState : Z;
  accountKey : Z;
  escrow : Z
}.

(** A fetched sheet: its rowset and [_meta.cachedUntil]. *)
Record Sheet (R : Type) := mkSheet {
  rows : list R;
  cachedUntil : Z
}.
Arguments mkSheet {R}.
Arguments rows {R}.
Arguments cachedUntil {R}.

(** *** The ORM operations the tasks use *)

(** [Model.objects.get(...)]: the single row matching, or an exception. *)
Definition objects_get {A} (P : A -> bool) (table : list A) : exn + A :=
  match List.filter P table with
  | [] => inl DoesNotExist
  | [x] => inr x
  | _ :: _ :: _ => inl MultipleObjectsReturned
  end.

(** The primary key given to a newly inserted row.  The sequence of the
    database is not part of the state: the key is one more than the
    greatest stored key, which is the key the database gives as long as
    the row inserted last has not been deleted.  New rows are compared up
    to their key below ([mt_with_id 0] and the like). *)
Definition next_id {A} (pk : A -> Z) (table : list A) : Z :=
  1 + fold_right Z.max 0 (map pk table).

(** [instance.save()] of a row that carries its primary key: UPDATE the row
    with that key, INSERT when there is none. *)
Definition save_row {A} (pk : A -> Z) (x : A) (table : list A) : list A :=
  if existsb (fun r => pk r =? pk x) table
  then map (fun r => if pk r =? pk x then x else r) table
  else table ++ [x].

(** [instance.delete()]. *)
Definition delete_row {A} (pk : A -> Z) (x : A) (table : list A) : list A :=
  List.filter (fun r => negb (pk r =? pk x)) table.

(** [queryset.order_by('date')[:1][0]]: the first row with the least date,
    [None] standing for the [IndexError] on an empty queryset. *)
Fixpoint oldest_by {A} (date : A -> Z) (l : list A) : option A :=
  match l with
  | [] => None
  | x :: l' =>
      match oldest_by date l' with
      | None => Some x
      | Some y => if date x <=? date y then Some x else Some y
      end
  end.

Definition mt_with_id (i : Z) (e : MarketTransaction) : MarketTransaction :=
  mkMarketTransaction i (mt_character e) (mt_date e) (mt_transaction_id e)
    (mt_invtype_id e) (mt_quantity e) (mt_price e) (mt_client_id e)
    (mt_client_name e) (mt_station_id e) (mt_is_bid e)
    (mt_journal_transaction_id e) (mt_is_corporate_transaction e).

Definition je_with_id (i : Z) (e : JournalEntry) : JournalEntry :=
  mkJournalEntry i (je_ref_id e) (je_character e) (je_date e) (je_ref_type_id e)
    (je_amount e) (je_balance e) (je_owner_name_1 e) (je_owner_id_1 e)
    (je_owner_name_2 e) (je_owner_id_2 e) (je_arg_name_1 e) (je_arg_id_1 e)
    (je_reason e) (je_tax_receiver_id e) (je_tax_amount e).

Definition rs_with_id (i : Z) (e : Research) : Research :=
  mkResearch i (rs_character e) (rs_agent_id e) (rs_skill_id e) (rs_start_date e)
    (rs_points_per_day e) (rs_remainder_points e).

Definition timer_with_nextupdate (v : Z) (t : APITimer) : APITimer :=
  mkAPITimer (timer_id t) (timer_character t) (timer_apisheet t) v.

(** [entry.save()] of a new row: INSERT under a fresh primary key. *)
Definition insert_market_transaction (e : MarketTransaction) (s : Store) : Store :=
  with_market_transactions
    (market_transactions s ++ [mt_with_id (next_id mt_id (market_transactions s)) e]) s.
Definition insert_journal_entry (e : JournalEntry) (s : Store) : Store :=
  with_journal_entries
    (journal_entries s ++ [je_with_id (next_id je_id (journal_entries s)) e]) s.
Definition insert_research (e : Research) (s : Store) : Store :=
  with_research (research s ++ [rs_with_id (next_id rs_id (research s)) e]) s.

(** *** What lies outside the sources

    The remote API (eveapi), [api_exceptions.handle_api_exception], the
    helpers of [apps.common.util] and the constraints of the database
    schema are not part of the sources.  They are the parameters of the
    model:
    - a remote call answers with a sheet or raises; the answer may depend
      on how many calls the run made before ([nat]), on the credentials
      and on the arguments ([rowCount], [fromID]);
    - [handle_api_exception e apikey] receives the key and acts on the key
      table;
    - [save_raises_* s row] is the exception, if any, that the database
      raises when [row] is saved in state [s].  The exception is left
      open, so that every handler of the tasks is part of the model; a
      [save] of the ORM raises [IntegrityError] and the like, while
      [MultipleObjectsReturned] is raised by [get] only, which the [try]
      blocks of the wallet walkers do not call. *)
Record Auth := mkAuth { keyID : Z; vCode : string; characterID : Z }.

Record Env := mkEnv {
  WalletTransactions : nat -> Auth -> Z -> option Z -> exn + Sheet TransactionRow;
  WalletJournal : nat -> Auth -> Z -> option Z -> exn + Sheet JournalRow;
  ResearchSheet : Auth -> exn + Sheet ResearchRow;
  MarketOrders : Auth -> exn + Sheet OrderRow;
  handle_api_exception : exn -> APIKey -> list APIKey -> list APIKey;
  save_raises_mt : Store -> MarketTransaction -> option exn;
  save_raises_je : Store -> JournalEntry -> option exn;
  save_raises_rs : Store -> Research -> option exn;
  save_raises_ord : Store -> Orders -> option exn;
  save_raises_mo : Store -> MarketOrder -> option exn;
  cast_empty_string_to_int : string -> Z;
  cast_empty_string_to_float : string -> Z;
  utcnow : Z
}.

(** *** The state of a run

    Besides the database a run carries two records of what it did: the
    remote requests it made, in order, and the warnings and errors it
    logged. *)
Record Call := mkCall {
  call_fromID : option Z;         (* the [fromID] argument, if any *)
  call_db : Store;                (* the database when the request was made *)
  call_cachedUntil : option Z     (* [cachedUntil] of the sheet returned;
                                     [None] when the request raised *)
}.

Inductive LogMsg :=
| WarnIntegrityError (typeID transactionID : Z)
| WarnDuplicateMarketTransaction (id transaction_id : Z)
| WarnDuplicateJournalEntry (id ref_id : Z)
| ErrIndexError (character_id : Z)
| ErrIntegrityErrorOrder (typeID orderID : Z).

Record Run := mkRun {
  db : Store;
  calls : list Call;
  log : list LogMsg
}.

Definition with_db (s : Store) (r : Run) : Run := mkRun s (calls r) (log r).
Definition logged (m : LogMsg) (r : Run) : Run := mkRun (db r) (calls r) (log r ++ [m]).
Definition called (fromID : option Z) (answer : option Z) (r : Run) : Run :=
  mkRun (db r) (calls r ++ [mkCall fromID (db r) answer]) (log r).

(** How [run] ends. *)
Inductive Outcome :=
| Completed                (* reached the end of [run] *)
| NoValidKey               (* [return] on [APIKey.DoesNotExist] *)
| ApiErrorHandled          (* [handle_api_exception(e, apikey); return] *)
| Raised (e : exn)         (* an exception left [run] *)
| OutOfFuel.               (* the [while] loop was cut off by the model *)

(** Result of a [for] loop over a page: it ran to the end, or an exception
    left the loop body at record [t]. *)
Inductive ForResult (R : Type) :=
| Finished (r : Run) (walking : bool)
| Raising (e : exn) (t : R) (r : Run) (walking : bool).
Arguments Finished {R}.
Arguments Raising {R}.

(** Result of one pass through the body of the [while] loop. *)
Inductive Iter (R : Type) :=
| Continue (r : Run) (sheet : Sheet R)   (* [walking] still true *)
| Break (r : Run) (sheet : Sheet R)      (* [walking] false *)
| Abort (e : exn) (r : Run).             (* exception leaves [run] *)
Arguments Continue {R}.
Arguments Break {R}.
Arguments Abort {R}.

Definition rowCount : Z := 2560.

(** [datetime.datetime.utcfromtimestamp(timestamp)] raises [ValueError]
    for a timestamp outside the years 1 to 9999 (the first and the last
    second of that range are given below).  Instants are kept as
    timestamps, which a conversion that succeeds returns unchanged; what
    is left to model is the exception, if any, raised at each place where
    the tasks convert. *)
Definition min_timestamp : Z := -62135596800.
Definition max_timestamp : Z := 253402300799.

Definition utcfromtimestamp_raises (timestamp : Z) : option exn :=
  if (min_timestamp <=? timestamp) && (timestamp <=? max_timestamp)
  then None else Some ValueError.

(** [cachedUntil] of the last sheet a run received. *)
Definition last_cachedUntil (cs : list Call) : option Z :=
  fold_left (fun acc c => match call_cachedUntil c with Some v => Some v | None => acc end)
            cs None.

(** ** ProcessWalletTransactionsCharacter *)

Section Walkers.
Context (E : Env).

(** [Character.objects.get(id=character_id)] *)
Definition get_character (character_id : Z) (s : Store) : exn + Character :=
  objects_get (fun c => char_id c =? character_id) (characters s).

(** [APIKey.objects.get(id=character.apikey_id, is_valid=True)] *)
Definition get_valid_apikey (character : Character) (s : Store) : exn + APIKey :=
  objects_get (fun k => (apikey_id k =? char_apikey_id character) && apikey_is_valid k)
              (apikeys s).

(** [api.auth(keyID=apikey.keyid, vCode=apikey.vcode)] and
    [auth.character(character.id)] only build the request context. *)
Definition authenticate (apikey : APIKey) (character : Character) : Auth :=
  mkAuth (apikey_keyid apikey) (apikey_vcode apikey) (char_id character).

(** The closing block of every task: look the timer row up, set
    [nextupdate] to the sheet's [cachedUntil], converted, and save. *)
Definition update_timer (character : Character) (apisheet : string)
           (cached_until : Z) (r : Run) : Outcome * Run :=
  match objects_get (fun t => (timer_character t =? char_id character)
                              && String.eqb (timer_apisheet t) apisheet)
                    (api_timers (db r)) with
  | inl e => (Raised e, r)
  | inr timer =>
      match utcfromtimestamp_raises cached_until with
      | Some e => (Raised e, r)
      | None =>
          (Completed,
           with_db (with_api_timers
                      (save_row timer_id (timer_with_nextupdate cached_until timer)
                                (api_timers (db r))) (db r)) r)
      end
  end.

(** [MarketTransaction(character=character, ...)] built from an API row
    whose date converts (the conversion is made, and may raise, in
    [wt_for]); the primary key is given on insertion. *)
Definition new_market_transaction (character : Character) (transaction : TransactionRow)
  : MarketTransaction :=
  mkMarketTransaction 0 (char_id character) (transactionDateTime transaction)
    (transactionID transaction) (tr_typeID transaction) (tr_quantity transaction)
    (tr_price transaction) (clientID transaction) (clientName transaction)
    (tr_stationID transaction)
    (String.eqb (transactionType transaction) "buy")
    (journalTransactionID transaction)
    (String.eqb (transactionFor transaction) "corporation").

(** [MarketTransaction.objects.filter(character=character)] *)
Definition mt_of_character (character : Character) (s : Store) : list MarketTransaction :=
  List.filter (fun e => mt_character e =? char_id character) (market_transactions s).

(** [existing_entries]: the [journal_transaction_id]s stored for the
    character.  The queryset is evaluated once, by the first membership
    test of the page, hence before any row of the page is saved. *)
Definition wt_existing_entries (character : Character) (s : Store) : list Z :=
  map mt_journal_transaction_id (mt_of_character character s).

(** [x in existing_entries] *)
Definition is_in (x : Z) (existing_entries : list Z) : bool :=
  existsb (Z.eqb x) existing_entries.

(** The [for transaction in sheet.transactions] loop (lines 190-218).  The
    inner [try] catches [IntegrityError] and goes on with the next record;
    any other exception leaves the loop, the [ValueError] of the date
    conversion in the constructor (line 202) included. *)
Fixpoint wt_for (character : Character) (existing_entries : list Z)
         (transactions : list TransactionRow) (r : Run) (walking : bool)
  : ForResult TransactionRow :=
  match transactions with
  | [] => Finished r walking
  | transaction :: rest =>
      if is_in (journalTransactionID transaction) existing_entries
      then wt_for character existing_entries rest r false
      else
        match utcfromtimestamp_raises (transactionDateTime transaction) with
        | Some e => Raising e transaction r walking
        | None =>
            let entry := new_market_transaction character transaction in
            match save_raises_mt E (db r) entry with
            | None =>
                wt_for character existing_entries rest
                       (with_db (insert_market_transaction entry (db r)) r) walking
            | Some IntegrityError =>
                wt_for character existing_entries rest
                       (logged (WarnIntegrityError (tr_typeID transaction)
                                                   (journalTransactionID transaction)) r)
                       walking
            | Some e => Raising e transaction r walking
            end
        end
  end.

(** The handler of [MarketTransaction.MultipleObjectsReturned] (lines
    221-227): every row but the first of [duplicates] is deleted. *)
Definition wt_duplicates (character : Character) (transaction : TransactionRow)
           (s : Store) : list MarketTransaction :=
  List.filter (fun e => (mt_journal_transaction_id e =? journalTransactionID transaction)
                        && (mt_character e =? char_id character))
              (market_transactions s).

Definition wt_remove_duplicates (character : Character) (transaction : TransactionRow)
           (r : Run) : Run :=
  fold_left
    (fun r duplicate =>
       with_db (with_market_transactions
                  (delete_row mt_id duplicate (market_transactions (db r))) (db r))
               (logged (WarnDuplicateMarketTransaction (mt_id duplicate)
                                                       (mt_transaction_id duplicate)) r))
    (tl (wt_duplicates character transaction (db r))) r.

(** The [try ... except MarketTransaction.MultipleObjectsReturned] around
    the [for] loop (lines 187-227). *)
Definition wt_page (character : Character) (transactions : list TransactionRow)
           (r : Run) : ForResult TransactionRow :=
  match wt_for character (wt_existing_entries character (db r)) transactions r true with
  | Finished r' walking => Finished r' walking
  | Raising MultipleObjectsReturned transaction r' walking =>
      Finished (wt_remove_duplicates character transaction r') walking
  | Raising e transaction r' walking => Raising e transaction r' walking
  end.

(** [MarketTransaction.objects.filter(character=character).order_by('date')[:1][0]
    .journal_transaction_id] *)
Definition wt_oldest_id (character : Character) (s : Store) : option Z :=
  option_map mt_journal_transaction_id (oldest_by mt_date (mt_of_character character s)).

(** One pass through the body of [while walking] (lines 181-243). *)
Definition wt_iteration (auth : Auth) (character : Character)
           (sheet : Sheet TransactionRow) (r : Run) : Iter TransactionRow :=
  match rows sheet with
  | [] => Break r sheet
  | _ :: _ =>
      match wt_page character (rows sheet) r with
      | Raising e _ r' _ => Abort e r'
      | Finished r' false => Break r' sheet
      | Finished r' true =>
          match wt_oldest_id character (db r') with
          | None => Break (logged (ErrIndexError (char_id character)) r') sheet
          | Some oldest_id =>
              match WalletTransactions E (List.length (calls r')) auth rowCount (Some oldest_id) with
              | inr sheet' =>
                  Continue (called (Some oldest_id) (Some (cachedUntil sheet')) r') sheet'
              | inl IndexError =>
                  Break (logged (ErrIndexError (char_id character))
                                (called (Some oldest_id) None r')) sheet
              | inl e => Abort e (called (Some oldest_id) None r')
              end
          end
      end
  end.

(** The [while walking] loop, for at most [fuel] passes; on leaving it
    normally the sheet fetched last is returned with the state. *)
Fixpoint wt_while (fuel : nat) (auth : Auth) (character : Character)
         (sheet : Sheet TransactionRow) (r : Run)
  : Outcome * Run * Sheet TransactionRow :=
  match fuel with
  | O => (OutOfFuel, r, sheet)
  | S fuel' =>
      match wt_iteration auth character sheet r with
      | Continue r' sheet' => wt_while fuel' auth character sheet' r'
      | Break r' sheet' => (Completed, r', sheet')
      | Abort e r' => (Raised e, r', sheet)
      end
  end.

(** [ProcessWalletTransactionsCharacter.run(character_id)] *)
Definition ProcessWalletTransactionsCharacter_run (fuel : nat) (character_id : Z)
           (s : Store) : Outcome * Run :=
  let r := mkRun s [] [] in
  match get_character character_id s with
  | inl e => (Raised e, r)
  | inr character =>
      match get_valid_apikey character s with
      | inl DoesNotExist => (NoValidKey, r)
      | inl e => (Raised e, r)
      | inr apikey =>
          let auth := authenticate apikey character in
          match WalletTransactions E 0 auth rowCount None with
          | inl (EveApiError code) =>
              (ApiErrorHandled,
               with_db (with_apikeys
                          (handle_api_exception E (EveApiError code) apikey (apikeys s)) s)
                       (called None None r))
          | inl e => (Raised e, called None None r)
          | inr sheet =>
              match wt_while fuel auth character sheet
                             (called None (Some (cachedUntil sheet)) r) with
              | (Completed, r', sheet') =>
                  update_timer character "WalletTransactions" (cachedUntil sheet') r'
              | (o, r', _) => (o, r')
              end
          end
      end
  end.

(** ** ProcessWalletJournalCharacter *)

(** [JournalEntry(ref_id=transaction.refID, character=character, ...)]
    built from an API row whose date converts (the conversion is made, and
    may raise, in [wj_for]). *)
Definition new_journal_entry (character : Character) (transaction : JournalRow)
  : JournalEntry :=
  mkJournalEntry 0 (refID transaction) (char_id character) (jr_date transaction)
    (refTypeID transaction) (amount transaction) (balance transaction)
    (ownerName1 transaction) (ownerID1 transaction)
    (ownerName2 transaction) (ownerID2 transaction)
    (argName1 transaction) (argID1 transaction) (reason transaction)
    (cast_empty_string_to_int E (taxReceiverID transaction))
    (cast_empty_string_to_float E (taxAmount transaction)).

(** [JournalEntry.objects.filter(character=character)] *)
Definition je_of_character (character : Character) (s : Store) : list JournalEntry :=
  List.filter (fun e => je_character e =? char_id character) (journal_entries s).

(** [existing_entries]: the [ref_id]s stored for the character, evaluated
    once by the first membership test of the page. *)
Definition wj_existing_entries (character : Character) (s : Store) : list Z :=
  map je_ref_id (je_of_character character s).

(** The handler of [JournalEntry.MultipleObjectsReturned] (lines 343-349). *)
Definition wj_duplicates (character : Character) (transaction : JournalRow)
           (s : Store) : list JournalEntry :=
  List.filter (fun e => (je_ref_id e =? refID transaction)
                        && (je_character e =? char_id character))
              (journal_entries s).

Definition wj_remove_duplicates (character : Character) (transaction : JournalRow)
           (r : Run) : Run :=
  fold_left
    (fun r duplicate =>
       with_db (with_journal_entries
                  (delete_row je_id duplicate (journal_entries (db r))) (db r))
               (logged (WarnDuplicateJournalEntry (je_id duplicate) (je_ref_id duplicate)) r))
    (tl (wj_duplicates character transaction (db r))) r.

(** The [for transaction in sheet.transactions] loop (lines 314-349).  The
    [try] is inside the loop and catches [MultipleObjectsReturned] only:
    after the handler the loop goes on with the next record, any other
    exception leaves the loop, the [ValueError] of the date conversion in
    the constructor (line 327) included. *)
Fixpoint wj_for (character : Character) (existing_entries : list Z)
         (transactions : list JournalRow) (r : Run) (walking : bool)
  : ForResult JournalRow :=
  match transactions with
  | [] => Finished r walking
  | transaction :: rest =>
      if is_in (refID transaction) existing_entries
      then wj_for character existing_entries rest r false
      else
        match utcfromtimestamp_raises (jr_date transaction) with
        | Some e => Raising e transaction r walking
        | None =>
            let entry := new_journal_entry character transaction in
            match save_raises_je E (db r) entry with
            | None =>
                wj_for character existing_entries rest
                       (with_db (insert_journal_entry entry (db r)) r) walking
            | Some MultipleObjectsReturned =>
                wj_for character existing_entries rest
                       (wj_remove_duplicates character transaction r) walking
            | Some e => Raising e transaction r walking
            end
        end
  end.

Definition wj_page (character : Character) (transactions : list JournalRow)
           (r : Run) : ForResult JournalRow :=
  wj_for character (wj_existing_entries character (db r)) transactions r true.

(** [JournalEntry.objects.filter(character=character).order_by('date')[:1][0].ref_id] *)
Definition wj_oldest_id (character : Character) (s : Store) : option Z :=
  option_map je_ref_id (oldest_by je_date (je_of_character character s)).

(** One pass through the body of [while walking] (lines 307-358); here the
    [IndexError] of an empty queryset is not caught. *)
Definition wj_iteration (auth : Auth) (character : Character)
           (sheet : Sheet JournalRow) (r : Run) : Iter JournalRow :=
  match rows sheet with
  | [] => Break r sheet
  | _ :: _ =>
      match wj_page character (rows sheet) r with
      | Raising e _ r' _ => Abort e r'
      | Finished r' false => Break r' sheet
      | Finished r' true =>
          match wj_oldest_id character (db r') with
          | None => Abort IndexError r'
          | Some oldest_id =>
              match WalletJournal E (List.length (calls r')) auth rowCount (Some oldest_id) with
              | inr sheet' =>
                  Continue (called (Some oldest_id) (Some (cachedUntil sheet')) r') sheet'
              | inl e => Abort e (called (Some oldest_id) None r')
              end
          end
      end
  end.

Fixpoint wj_while (fuel : nat) (auth : Auth) (character : Character)
         (sheet : Sheet JournalRow) (r : Run)
  : Outcome * Run * Sheet JournalRow :=
  match fuel with
  | O => (OutOfFuel, r, sheet)
  | S fuel' =>
      match wj_iteration auth character sheet r with
      | Continue r' sheet' => wj_while fuel' auth character sheet' r'
      | Break r' sheet' => (Completed, r', sheet')
      | Abort e r' => (Raised e, r', sheet)
      end
  end.

(** [ProcessWalletJournalCharacter.run(character_id)] *)
Definition ProcessWalletJournalCharacter_run (fuel : nat) (character_id : Z)
           (s : Store) : Outcome * Run :=
  let r := mkRun s [] [] in
  match get_character character_id s with
  | inl e => (Raised e, r)
  | inr character =>
      match get_valid_apikey character s with
      | inl DoesNotExist => (NoValidKey, r)
      | inl e => (Raised e, r)
      | inr apikey =>
          let auth := authenticate apikey character in
          match WalletJournal E 0 auth rowCount None with
          | inl (EveApiError code) =>
              (ApiErrorHandled,
               with_db (with_apikeys
                          (handle_api_exception E (EveApiError code) apikey (apikeys s)) s)
                       (called None None r))
          | inl e => (Raised e, called None None r)
          | inr sheet =>
              match wj_while fuel auth character sheet
                             (called None (Some (cachedUntil sheet)) r) with
              | (Completed, r', sheet') =>
                  update_timer character "WalletJournal" (cachedUntil sheet') r'
              | (o, r', _) => (o, r')
              end
          end
      end
  end.

(** ** ProcessResearchCharacter *)

(** [Research(character=character, ...)] built from a job whose start
    date converts (the conversion is made, and may raise, in [rs_for]). *)
Definition new_research (character : Character) (job : ResearchRow) : Research :=
  mkResearch 0 (char_id character) (agentID job) (skillTypeID job)
    (researchStartDate job) (pointsPerDay job) (remainderPoints job).

(** [Research.objects.filter(character=character).delete()] *)
Definition delete_research_of (character : Character) (s : Store) : Store :=
  with_research
    (List.filter (fun e => negb (rs_character e =? char_id character)) (research s)) s.

(** [for job in sheet.research: ... new_job.save()]; nothing is caught,
    neither the [ValueError] of the date conversion in the constructor
    (line 113) nor what [save] raises. *)
Fixpoint rs_for (character : Character) (jobs : list ResearchRow) (r : Run)
  : exn * Run + Run :=
  match jobs with
  | [] => inr r
  | job :: rest =>
      match utcfromtimestamp_raises (researchStartDate job) with
      | Some e => inl (e, r)
      | None =>
          let new_job := new_research character job in
          match save_raises_rs E (db r) new_job with
          | None => rs_for character rest (with_db (insert_research new_job (db r)) r)
          | Some e => inl (e, r)
          end
      end
  end.

(** [ProcessResearchCharacter.run(character_id)] *)
Definition ProcessResearchCharacter_run (character_id : Z) (s : Store) : Outcome * Run :=
  let r := mkRun s [] [] in
  match get_character character_id s with
  | inl e => (Raised e, r)
  | inr character =>
      match get_valid_apikey character s with
      | inl DoesNotExist => (NoValidKey, r)
      | inl e => (Raised e, r)
      | inr apikey =>
          let auth := authenticate apikey character in
          match ResearchSheet E auth with
          | inl (EveApiError code) =>
              (ApiErrorHandled,
               with_db (with_apikeys
                          (handle_api_exception E (EveApiError code) apikey (apikeys s)) s)
                       (called None None r))
          | inl e => (Raised e, called None None r)
          | inr sheet =>
              let r1 := with_db (delete_research_of character s)
                                (called None (Some (cachedUntil sheet)) r) in
              match rs_for character (rows sheet) r1 with
              | inl (e, r2) => (Raised e, r2)
              | inr r2 => update_timer character "Research" (cachedUntil sheet) r2
              end
          end
      end
  end.

(** ** ProcessMarketOrdersCharacter *)

(** The stored order brought up to date from the API row (lines 455-464). *)
Definition updated_order (order : OrderRow) (db_order : Orders) : Orders :=
  mkOrders (ord_id db_order) (utcnow E) (ord_mapregion db_order)
    (ord_invtype_id db_order) (or_price order) (volRemaining order) (volEntered order)
    (ord_minimum_volume db_order) (ord_order_range db_order) (ord_is_bid db_order)
    (ord_issue_date db_order) (ord_duration db_order) (ord_stastation db_order)
    (ord_mapsolarsystem db_order) false (ord_message_key db_order)
    (ord_uploader_ip_hash db_order) (orderState order =? 0).

(** [Orders(id=order.orderID, ...)] (lines 476-493) for an order whose
    issue date converts (the conversion is made, and may raise, in
    [mo_create_order]). *)
Definition new_order (order : OrderRow) (station : StaStation) : Orders :=
  mkOrders (orderID order) (utcnow E) (sta_region station) (or_typeID order)
    (or_price order) (volRemaining order) (volEntered order) (minVolume order)
    (or_range order) (or_bid order) (issued order) (or_duration order)
    (sta_id station) (sta_solar_system station) false "eveapi" "eveapi" true.

Definition save_order (o : Orders) (r : Run) : Run :=
  with_db (with_orders (save_row ord_id o (orders (db r))) (db r)) r.

Definition save_market_order (m : MarketOrder) (r : Run) : Run :=
  with_db (with_market_orders (save_row mo_id m (market_orders (db r))) (db r)) r.

(** The handler of [Orders.DoesNotExist] (lines 468-498): the order is
    created from the API row and its station; the inner [try] catches
    [IntegrityError] only, not the [ValueError] of the date conversion in
    the constructor (line 486).  The flag tells whether the
    loop body goes on ([false] after the [continue] of the inner handler). *)
Definition mo_create_order (order : OrderRow) (r : Run) : exn * Run + bool * Run :=
  match objects_get (fun st => sta_id st =? or_stationID order) (stations (db r)) with
  | inl e => inl (e, r)
  | inr station =>
      match utcfromtimestamp_raises (issued order) with
      | Some e => inl (e, r)
      | None =>
          match save_raises_ord E (db r) (new_order order station) with
          | None => inr (true, save_order (new_order order station) r)
          | Some IntegrityError =>
              inr (false, logged (ErrIntegrityErrorOrder (or_typeID order) (orderID order)) r)
          | Some e => inl (e, r)
          end
      end
  end.

(** First half of the loop body (lines 450-498): update the stored order,
    or create it when there is none. *)
Definition mo_order (order : OrderRow) (r : Run) : exn * Run + bool * Run :=
  match objects_get (fun o => ord_id o =? orderID order) (orders (db r)) with
  | inr db_order =>
      match save_raises_ord E (db r) (updated_order order db_order) with
      | None => inr (true, save_order (updated_order order db_order) r)
      | Some DoesNotExist => mo_create_order order r
      | Some e => inl (e, r)
      end
  | inl DoesNotExist => mo_create_order order r
  | inl e => inl (e, r)
  end.

(** The handler of [MarketOrder.DoesNotExist] (lines 508-514). *)
Definition mo_create_market_order (character : Character) (order : OrderRow) (r : Run)
  : exn * Run + Run :=
  let m := mkMarketOrder (orderID order) (char_id character) (orderState order)
                         (accountKey order) (escrow order) in
  match save_raises_mo E (db r) m with
  | None => inr (save_market_order m r)
  | Some e => inl (e, r)
  end.

(** Second half of the loop body (lines 500-514): update or create the
    [MarketOrder] of the character. *)
Definition mo_market_order (character : Character) (order : OrderRow) (r : Run)
  : exn * Run + Run :=
  match objects_get (fun m => mo_id m =? orderID order) (market_orders (db r)) with
  | inr market_order =>
      let m := mkMarketOrder (mo_id market_order) (mo_character market_order)
                             (orderState order) (mo_account_key market_order)
                             (mo_escrow market_order) in
      match save_raises_mo E (db r) m with
      | None => inr (save_market_order m r)
      | Some DoesNotExist => mo_create_market_order character order r
      | Some e => inl (e, r)
      end
  | inl DoesNotExist => mo_create_market_order character order r
  | inl e => inl (e, r)
  end.

(** [for order in orders.orders] (lines 445-514). *)
Fixpoint mo_for (character : Character) (order_rows : list OrderRow) (r : Run)
  : exn * Run + Run :=
  match order_rows with
  | [] => inr r
  | order :: rest =>
      match mo_order order r with
      | inl err => inl err
      | inr (false, r1) => mo_for character rest r1
      | inr (true, r1) =>
          match mo_market_order character order r1 with
          | inl err => inl err
          | inr r2 => mo_for character rest r2
          end
      end
  end.

(** [ProcessMarketOrdersCharacter.run(character_id)] *)
Definition ProcessMarketOrdersCharacter_run (character_id : Z) (s : Store) : Outcome * Run :=
  let r := mkRun s [] [] in
  match get_character character_id s with
  | inl e => (Raised e, r)
  | inr character =>
      match get_valid_apikey character s with
      | inl DoesNotExist => (NoValidKey, r)
      | inl e => (Raised e, r)
      | inr apikey =>
          let auth := authenticate apikey character in
          match MarketOrders E auth with
          | inl (EveApiError code) =>
              (ApiErrorHandled,
               with_db (with_apikeys
                          (handle_api_exception E (EveApiError code) apikey (apikeys s)) s)
                       (called None None r))
          | inl e => (Raised e, called None None r)
          | inr sheet =>
              match mo_for character (rows sheet)
                           (called None (Some (cachedUntil sheet)) r) with
              | inl (e, r') => (Raised e, r')
              | inr r' => update_timer character "MarketOrders" (cachedUntil sheet) r'
              end
          end
      end
  end.

End Walkers.

End Tasks.

(** ** apps/manufacturing/functions.py: the blueprint history *)

Module BlueprintHistory.

(** An entry of the history kept in the session: [{'id': ..., 'name': ...}]. *)
Record Entry := mkEntry { entry_id : Z; entry_name : string }.

(** The loop that looks for the blueprint (lines 376-380): [add_entry]
    stays true unless an entry carries the id of the blueprint. *)
Fixpoint add_entry (history : list Entry) (blueprint_id : Z) : bool :=
  match history with
  | [] => true
  | entry :: rest =>
      if entry_id entry =? blueprint_id then false else add_entry rest blueprint_id
  end.

(** [del history[-1]]; [None] stands for the [IndexError] on an empty list. *)
Definition del_last (history : list Entry) : option (list Entry) :=
  match history with
  | [] => None
  | _ :: _ => Some (removelast history)
  end.

(** [update_blueprint_history(request, blueprint)], as a function of the
    value stored in the session under the history key ([None] when the key
    is missing), of the id and name of [blueprint.blueprint_type], and of
    the setting [MANUFACTURING_MAX_BLUEPRINT_HISTORY], which is not part of
    the sources.  The result is the value stored back in the session;
    [None] when the [IndexError] leaves the function. *)
Definition update_blueprint_history (MANUFACTURING_MAX_BLUEPRINT_HISTORY : Z)
           (session : option (list Entry)) (blueprint_id : Z) (blueprint_name : string)
  : option (list Entry) :=
  let history := match session with Some h => h | None => [] end in
  if add_entry history blueprint_id then
    if Z.of_nat (List.length history) =? MANUFACTURING_MAX_BLUEPRINT_HISTORY then
      match del_last history with
      | None => None
      | Some history' => Some (mkEntry blueprint_id blueprint_name :: history')
      end
    else Some (mkEntry blueprint_id blueprint_name :: history)
  else Some history.

End BlueprintHistory.

(** ** apps/api/tasks.py: the periodic tasks that schedule the imports *)

Module Scheduling.
Import Tasks.

(** The task classes handed to [apply_async]. *)
Inductive CharacterTask :=
| ProcessResearchCharacter
| ProcessWalletTransactionsCharacter
| ProcessWalletJournalCharacter
| ProcessMarketOrdersCharacter
| ProcessCharacterSheetCharacter.

(** One [apply_async(args=[character_id], expires=...)]. *)
Record Dispatch := mkDispatch {
  task : CharacterTask;
  task_arg : Z;
  task_expires : Z
}.

(** [APITimer.objects.filter(apisheet=..., nextupdate__lte=utcnow)] *)
Definition due_timers (apisheet : string) (utc_now : Z) (s : Store) : list APITimer :=
  List.filter (fun t => String.eqb (timer_apisheet t) apisheet
                        && (timer_nextupdate t <=? utc_now))
              (api_timers s).

(** The body shared by the five [run] methods: one dispatch per due timer
    row, expiring an hour (3600 seconds) after the local time [now]; the
    number logged is the number of rows.  [utc_now] is
    [datetime.datetime.utcnow()], [now] is [datetime.datetime.now()]. *)
Definition schedule (character_task : CharacterTask) (apisheet : string)
           (utc_now now : Z) (s : Store) : list Dispatch * nat :=
  let update_timers := due_timers apisheet utc_now s in
  (map (fun update => mkDispatch character_task (timer_character update) (now + 3600))
       update_timers,
   List.length update_timers).

Definition ProcessResearch_run := schedule ProcessResearchCharacter "Research".
Definition ProcessWalletTransactions_run :=
  schedule ProcessWalletTransactionsCharacter "WalletTransactions".
Definition ProcessWalletJournal_run := schedule ProcessWalletJournalCharacter "WalletJournal".
Definition ProcessMarketOrders_run := schedule ProcessMarketOrdersCharacter "MarketOrders".
Definition ProcessCharacterSheet_run := schedule ProcessCharacterSheetCharacter "CharacterSheet".

End Scheduling.

(** ** apps/api/tasks.py: the periodic imports of reference data and the
    skills of a character *)

Module Reference.
Import Tasks.

(** *** ProcessRefTypes *)

(** A row of [RefType] and a row of the [refTypes] rowset. *)
Record RefType := mkRefType { reftype_id : Z; reftype_name : string }.
Record RefTypeRow := mkRefTypeRow { rt_refTypeID : Z; rt_refTypeName : string }.

(** *** ProcessConquerableStations *)

(** A row of [StaStation] with the fields the task writes, a row of
    [MapSolarSystem] and a row of the [outposts] rowset. *)
Record Station := mkStation {
  station_id : Z;
  station_name : string;
  station_solar_system_id : Z;
  station_type_id : Z;
  station_constellation : Z;
  station_region : Z
}.

Record SolarSystem := mkSolarSystem {
  system_id : Z;
  system_constellation : Z;
  system_region : Z
}.

Record Outpost := mkOutpost {
  op_stationID : Z;
  op_stationName : string;
  op_solarSystemID : Z;
  op_stationTypeID : Z
}.

(** *** The skills of a character ([CharSkill]) and the [skills] rowset *)
Record CharSkill := mkCharSkill {
  cs_id : Z;
  cs_character : Z;
  cs_skill_id : Z;
  cs_skillpoints : Z;
  cs_level : Z
}.

Record SkillRow := mkSkillRow { sk_typeID : Z; sk_skillpoints : Z; sk_level : Z }.

Definition with_name (name : string) (station_object : Station) : Station :=
  mkStation (station_id station_object) name (station_solar_system_id station_object)
            (station_type_id station_object) (station_constellation station_object)
            (station_region station_object).

Definition cs_with_id (i : Z) (x : CharSkill) : CharSkill :=
  mkCharSkill i (cs_character x) (cs_skill_id x) (cs_skillpoints x) (cs_level x).

Section Imports.
(** The exceptions that the database raises on a save, as in the
    per-character tasks; the remote answers are arguments of [run]. *)
Context (save_raises_reftype : list RefType -> RefType -> option exn)
        (save_raises_station : list Station -> Station -> option exn)
        (save_raises_skill : list CharSkill -> CharSkill -> option exn).

(** The handler of [RefType.DoesNotExist] (lines 389-391):
    [RefType(id=..., name=...).save()]. *)
Definition rt_create (ref_type : RefTypeRow) (table : list RefType)
  : exn * list RefType + list RefType :=
  let type_object := mkRefType (rt_refTypeID ref_type) (rt_refTypeName ref_type) in
  match save_raises_reftype table type_object with
  | None => inr (save_row reftype_id type_object table)
  | Some e => inl (e, table)
  end.

(** The body of the loop (lines 383-391). *)
Definition rt_ref_type (ref_type : RefTypeRow) (table : list RefType)
  : exn * list RefType + list RefType :=
  match objects_get (fun t => reftype_id t =? rt_refTypeID ref_type) table with
  | inr type_object =>
      let type_object' := mkRefType (reftype_id type_object) (rt_refTypeName ref_type) in
      match save_raises_reftype table type_object' with
      | None => inr (save_row reftype_id type_object' table)
      | Some DoesNotExist => rt_create ref_type table
      | Some e => inl (e, table)
      end
  | inl DoesNotExist => rt_create ref_type table
  | inl e => inl (e, table)
  end.

(** [for ref_type in ref_types.refTypes] *)
Fixpoint rt_for (ref_types : list RefTypeRow) (table : list RefType)
  : exn * list RefType + list RefType :=
  match ref_types with
  | [] => inr table
  | ref_type :: rest =>
      match rt_ref_type ref_type table with
      | inl err => inl err
      | inr table' => rt_for rest table'
      end
  end.

(** [ProcessRefTypes.run()]: [answer] is what [api.eve.RefTypes()] returns
    or raises; the result is the number logged, or the exception that left
    [run], with the table. *)
Definition ProcessRefTypes_run (answer : exn + list RefTypeRow) (table : list RefType)
  : (exn + nat) * list RefType :=
  match answer with
  | inl e => (inl e, table)
  | inr ref_types =>
      match rt_for ref_types table with
      | inl (e, table') => (inl e, table')
      | inr table' => (inr (List.length ref_types), table')
      end
  end.

(** The handler of [StaStation.DoesNotExist] (lines 42-53).  The lookups
    of the solar system are not guarded; [IntegrityError] is logged as a
    warning (counted in the second component). *)
Definition st_create (systems : list SolarSystem) (station : Outpost)
           (st : list Station * nat) : exn * (list Station * nat) + list Station * nat :=
  match objects_get (fun m => system_id m =? op_solarSystemID station) systems with
  | inl e => inl (e, st)
  | inr system =>
      let station_object :=
        mkStation (op_stationID station) (op_stationName station)
                  (op_solarSystemID station) (op_stationTypeID station)
                  (system_constellation system) (system_region system) in
      match save_raises_station (fst st) station_object with
      | None => inr (save_row station_id station_object (fst st), snd st)
      | Some IntegrityError => inr (fst st, S (snd st))
      | Some e => inl (e, st)
      end
  end.

(** The body of the loop (lines 34-53). *)
Definition st_station (systems : list SolarSystem) (station : Outpost)
           (st : list Station * nat) : exn * (list Station * nat) + list Station * nat :=
  match objects_get (fun x => station_id x =? op_stationID station) (fst st) with
  | inr station_object =>
      let station_object' := with_name (op_stationName station) station_object in
      match save_raises_station (fst st) station_object' with
      | None => inr (save_row station_id station_object' (fst st), snd st)
      | Some DoesNotExist => st_create systems station st
      | Some e => inl (e, st)
      end
  | inl DoesNotExist => st_create systems station st
  | inl e => inl (e, st)
  end.

(** [for station in stations.outposts] *)
Fixpoint st_for (systems : list SolarSystem) (outposts : list Outpost)
         (st : list Station * nat) : exn * (list Station * nat) + list Station * nat :=
  match outposts with
  | [] => inr st
  | station :: rest =>
      match st_station systems station st with
      | inl err => inl err
      | inr st' => st_for systems rest st'
      end
  end.

(** [ProcessConquerableStations.run()]: [answer] is what
    [api.eve.ConquerableStationList()] returns or raises; the result is
    the number logged, or the exception that left [run], with the station
    table and the number of warnings. *)
Definition ProcessConquerableStations_run (answer : exn + list Outpost)
           (systems : list SolarSystem) (table : list Station)
  : (exn + nat) * (list Station * nat) :=
  match answer with
  | inl e => (inl e, (table, O))
  | inr outposts =>
      match st_for systems outposts (table, O) with
      | inl (e, st) => (inl e, st)
      | inr st => (inr (List.length outposts), st)
      end
  end.

(** The [except:] of the skill loop (lines 642-646): a new row. *)
Definition sk_create (character_id : Z) (skill : SkillRow) (table : list CharSkill)
  : exn * list CharSkill + list CharSkill :=
  let new_skill := mkCharSkill 0 character_id (sk_typeID skill) (sk_skillpoints skill)
                               (sk_level skill) in
  match save_raises_skill table new_skill with
  | None => inr (table ++ [cs_with_id (next_id cs_id table) new_skill])
  | Some e => inl (e, table)
  end.

(** The body of the skill loop of [ProcessCharacterSheetCharacter.run]
    (lines 636-646).  The bare [except:] catches whatever the [try] raises,
    [MultipleObjectsReturned] included. *)
Definition sk_skill (character_id : Z) (skill : SkillRow) (table : list CharSkill)
  : exn * list CharSkill + list CharSkill :=
  match objects_get (fun x => (cs_character x =? character_id)
                              && (cs_skill_id x =? sk_typeID skill)) table with
  | inr c_skill =>
      let c_skill' := mkCharSkill (cs_id c_skill) (cs_character c_skill)
                                  (cs_skill_id c_skill) (sk_skillpoints skill)
                                  (sk_level skill) in
      match save_raises_skill table c_skill' with
      | None => inr (save_row cs_id c_skill' table)
      | Some _ => sk_create character_id skill table
      end
  | inl _ => sk_create character_id skill table
  end.

(** [for skill in sheet.skills] *)
Fixpoint sk_for (character_id : Z) (skills : list SkillRow) (table : list CharSkill)
  : exn * list CharSkill + list CharSkill :=
  match skills with
  | [] => inr table
  | skill :: rest =>
      match sk_skill character_id skill table with
      | inl err => inl err
      | inr table' => sk_for character_id rest table'
      end
  end.

End Imports.

End Reference.

(** ** apps/manufacturing/functions.py: the prices of a bill of materials *)

Module Pricing.
Import Manufacturing.

(** A row of [ItemRegionStat] with the fields the query reads. *)
Record ItemRegionStat := mkItemRegionStat {
  stat_invtype_id : Z;
  stat_mapregion_id : Z;
  sell_95_percentile : Z
}.

Definition set_price (p : Z) (m : Material) : Material :=
  mkMaterial (mat_id m) (mat_name m) (mat_quantity m) (mat_volume m) p
             (mat_price_total m) (mat_producible m).

Definition set_price_total (p : Z) (m : Material) : Material :=
  mkMaterial (mat_id m) (mat_name m) (mat_quantity m) (mat_volume m) (mat_price m)
             p (mat_producible m).

(** [ItemRegionStat.objects.values(...).filter(invtype_id__in=material_ids,
    mapregion_id__exact=10000002)], in storage order. *)
Definition materials_prices (h : heap) (materials : list ref) (stats : list ItemRegionStat)
  : list ItemRegionStat :=
  let material_ids := map (fun material => mat_id (h material)) materials in
  List.filter (fun s => existsb (Z.eqb (stat_invtype_id s)) material_ids
                        && (stat_mapregion_id s =? 10000002)) stats.

Section Prices.
(** [material_price['sell_95_percentile'] * material['quantity']].  The
    type of the percentile is that of a field of a model class that is
    not part of the sources; [None] stands for an exception raised by
    the multiplication. *)
Context (times : Z -> Z -> option Z).

(** The inner loop (lines 93-96) for one price row; the flag tells
    whether an exception left the loop. *)
Fixpoint price_materials (material_price : ItemRegionStat) (materials : list ref) (h : heap)
  : heap * bool :=
  match materials with
  | [] => (h, false)
  | material :: rest =>
      if mat_id (h material) =? stat_invtype_id material_price then
        let h1 := heap_set h material
                    (set_price (sell_95_percentile material_price) (h material)) in
        match times (sell_95_percentile material_price) (mat_quantity (h1 material)) with
        | None => (h1, true)
        | Some total =>
            price_materials material_price rest
                            (heap_set h1 material (set_price_total total (h1 material)))
        end
      else price_materials material_price rest h
  end.

(** The outer loop (lines 92-96). *)
Fixpoint price_rows (prices : list ItemRegionStat) (materials : list ref) (h : heap)
  : heap * bool :=
  match prices with
  | [] => (h, false)
  | material_price :: rest =>
      match price_materials material_price materials h with
      | (h1, true) => (h1, true)
      | (h1, false) => price_rows rest materials h1
      end
  end.

(** [calculate_material_prices(materials)].  [stats] is the table of the
    statistics, [None] when the database raises as the query is run.  The
    result is the object store after the call, the returned list, and
    whether the handler ([connection._rollback()]) ran. *)
Definition calculate_material_prices (stats : option (list ItemRegionStat)) (h : heap)
           (materials : list ref) : heap * list ref * bool :=
  match stats with
  | None => (h, materials, true)
  | Some table =>
      let '(h', raised) := price_rows (materials_prices h materials table) materials h in
      (h', materials, raised)
  end.

End Prices.

End Pricing.

(* ===================================================================== *)
(** * Part II: invariants and concrete inputs used by the proofs          *)
(* ===================================================================== *)

(** [grown pk t0 t]: the table [t] is [t0] followed by rows whose primary
    keys are greater than every key of [t0]. *)
Definition grown {A : Type} (pk : A -> Z) (t0 t : list A) : Prop :=
  exists added, t = t0 ++ added /\
                Forall (fun e => fold_right Z.max 0 (map pk t0) < pk e) added.

Module MergeData.
Import Manufacturing.

(** State of the merge loop after the entries [processed]: [ms] holds the
    first entry of every id seen, with the quantities summed up, and every
    object outside [ms] is as it was on entry. *)
Definition merge_inv (h0 : heap) (processed : list ref) (st : heap * list ref) : Prop :=
  let '(h, ms) := st in
  merged h0 processed (h, ms) /\
  (forall r, In r ms -> In r processed) /\
  (forall x, ~ In x ms -> h x = h0 x).

(** One dict object, listed three times. *)
Definition tritanium : Material := mkMaterial 34 "Tritanium" 1 1 0 0 false.
Definition one_object : heap := fun _ => tritanium.

(** Two bills built from distinct objects. *)
Definition bill_heap : heap := fun r =>
  match r with
  | 0%nat => mkMaterial 34 "Tritanium" 10 1 0 0 false
  | 1%nat => mkMaterial 35 "Pyerite" 5 1 0 0 false
  | 2%nat => mkMaterial 34 "Tritanium" 7 1 0 0 false
  | _ => mkMaterial 36 "Mexallon" 2 1 0 0 false
  end.
Definition bill1 : list ref := [0; 1]%nat.
Definition bill2 : list ref := [2; 3]%nat.
End MergeData.

Module Inv.
Import Tasks.

(** The state a [for] loop leaves behind, however it ends. *)
Definition result_run {R} (f : ForResult R) : Run :=
  match f with Finished r _ => r | Raising _ _ r _ => r end.

Section Stream.
Context {A : Type} (tbl : Store -> list A) (char date ref : A -> Z).

(** The [fromID] of a request is the reference id of a stored row of the
    character that no other stored row of the character predates. *)
Definition cursor_from_storage (character : Character) (c : Call) : Prop :=
  exists e, call_fromID c = Some (ref e) /\
            In e (tbl (call_db c)) /\ char e = char_id character /\
            forall e', In e' (tbl (call_db c)) -> char e' = char_id character ->
                       date e <= date e'.

(** The requests of a walk: the first without [fromID], every later one
    with a cursor taken from storage. *)
Definition walk_calls (character : Character) (r : Run) : Prop :=
  exists c cs, calls r = c :: cs /\ call_fromID c = None /\
               Forall (cursor_from_storage character) cs.

(** Whatever was stored when a request was made is still stored. *)
Definition calls_monotone (r : Run) : Prop :=
  forall c, In c (calls r) -> incl (tbl (call_db c)) (tbl (db r)).

(** The last request returned a sheet with [cachedUntil = v]. *)
Definition last_answer (r : Run) (v : Z) : Prop :=
  exists cs c, calls r = cs ++ [c] /\ call_cachedUntil c = Some v.

(** If the last request raised, the database is as it was then. *)
Definition failed_fetch_keeps_db (r : Run) : Prop :=
  forall cs c, calls r = cs ++ [c] -> call_cachedUntil c = None -> db r = call_db c.
End Stream.

(** The state after one pass through the body of the [while] loop. *)
Definition iter_run {R} (i : Iter R) : Run :=
  match i with Continue r _ => r | Break r _ => r | Abort _ r => r end.

(** The state a loop that may raise leaves behind. *)
Definition state_of (res : exn * Run + Run) : Run :=
  match res with inl (_, r) => r | inr r => r end.

(** Only the table of the stream differs between two databases. *)
Definition only_market_transactions (s s' : Store) : Prop :=
  with_market_transactions (market_transactions s') s = s'.
Definition only_journal_entries (s s' : Store) : Prop :=
  with_journal_entries (journal_entries s') s = s'.

(** What holds of a wallet-transactions run at every pass of the loop,
    relative to the database [s0] the run started from. *)
Definition wt_loop_inv (character : Character) (s0 : Store) (r : Run) : Prop :=
  only_market_transactions s0 (db r) /\
  walk_calls market_transactions mt_character mt_date mt_journal_transaction_id
             character r /\
  calls_monotone market_transactions r /\
  incl (market_transactions s0) (market_transactions (db r)).

(** The timer row of a character for a sheet. *)
Definition get_timer (character : Character) (apisheet : string) (s : Store)
  : exn + APITimer :=
  objects_get (fun t => (timer_character t =? char_id character)
                        && String.eqb (timer_apisheet t) apisheet) (api_timers s).

(** The timers after a run that started in [s]: untouched unless the run
    completed; after a completed run the timer row of the character and
    sheet carries the last [cachedUntil] received (the primary keys of the
    timer table being distinct). *)
Definition timer_ok (apisheet : string) (character_id : Z) (s : Store)
           (o : Outcome) (r' : Run) : Prop :=
  (o <> Completed -> api_timers (db r') = api_timers s) /\
  (o = Completed -> List.NoDup (map timer_id (api_timers s)) ->
   exists c timer,
     get_character character_id s = inr c /\
     get_timer c apisheet (db r') = inr timer /\
     last_cachedUntil (calls r') = Some (timer_nextupdate timer)).

(** What holds of the result of a wallet run: the timers are in order;
    what was stored at the time of a request is still stored; the requests
    form a walk; and after a failed request the database is as it was. *)
Definition wt_run_ok (character_id : Z) (s : Store) (o : Outcome) (r' : Run) : Prop :=
  timer_ok "WalletTransactions" character_id s o r' /\
  calls_monotone market_transactions r' /\
  (calls r' = [] \/
   exists c, get_character character_id s = inr c /\
     walk_calls market_transactions mt_character mt_date mt_journal_transaction_id c r') /\
  (forall e, o = Raised e -> failed_fetch_keeps_db r').

Definition wj_run_ok (character_id : Z) (s : Store) (o : Outcome) (r' : Run) : Prop :=
  timer_ok "WalletJournal" character_id s o r' /\
  calls_monotone journal_entries r' /\
  (calls r' = [] \/
   exists c, get_character character_id s = inr c /\
     walk_calls journal_entries je_character je_date je_ref_id c r') /\
  (forall e, o = Raised e -> failed_fetch_keeps_db r').

(** What holds of the result of a task that fetches a single sheet. *)
Definition single_run_ok (apisheet : string) (character_id : Z) (s : Store)
           (o : Outcome) (r' : Run) : Prop :=
  timer_ok apisheet character_id s o r' /\
  (calls r' = [] \/ exists c, calls r' = [c] /\ call_fromID c = None).

(** The same for a wallet-journal run. *)
Definition wj_loop_inv (character : Character) (s0 : Store) (r : Run) : Prop :=
  only_journal_entries s0 (db r) /\
  walk_calls journal_entries je_character je_date je_ref_id character r /\
  calls_monotone journal_entries r /\
  incl (journal_entries s0) (journal_entries (db r)).

(** C1 read literally, for a page of wallet transactions: once a record
    [k] of the page is known, the page ends with [walking] false and no
    record placed after the first known one gets a row that was not stored
    before. *)
Definition wt_page_stops_at_first_known (E : Env) (c : Character)
           (page : list TransactionRow) (r : Run) : Prop :=
  forall pre k post r' w,
    page = pre ++ k :: post ->
    (forall x, In x pre ->
               is_in (journalTransactionID x) (wt_existing_entries c (db r)) = false) ->
    is_in (journalTransactionID k) (wt_existing_entries c (db r)) = true ->
    wt_page E c page r = Finished r' w ->
    w = false /\
    forall t e, In t post -> In e (market_transactions (db r')) ->
                mt_character e = char_id c ->
                mt_journal_transaction_id e = journalTransactionID t ->
                In e (market_transactions (db r)).

(** A page that ends a walk: it is empty, or one of its records is
    already stored for the character. *)
Definition wt_last_page (c : Character) (sheet : Sheet TransactionRow) (r : Run) : Prop :=
  rows sheet = [] \/
  exists k, In k (rows sheet) /\
            is_in (journalTransactionID k) (wt_existing_entries c (db r)) = true.

Definition wj_last_page (c : Character) (sheet : Sheet JournalRow) (r : Run) : Prop :=
  rows sheet = [] \/
  exists k, In k (rows sheet) /\ is_in (refID k) (wj_existing_entries c (db r)) = true.

(** A page that lets the walk go on: it is not empty and none of its
    records is stored for the character. *)
Definition wt_new_page (c : Character) (sheet : Sheet TransactionRow) (r : Run) : Prop :=
  rows sheet <> [] /\
  forall t, In t (rows sheet) ->
            is_in (journalTransactionID t) (wt_existing_entries c (db r)) = false.

Definition wj_new_page (c : Character) (sheet : Sheet JournalRow) (r : Run) : Prop :=
  rows sheet <> [] /\
  forall t, In t (rows sheet) -> is_in (refID t) (wj_existing_entries c (db r)) = false.

(** The per-character tasks, their sheet names and their [run] methods
    (the tasks without a loop ignore the fuel). *)
Inductive Task :=
| WalletTransactionsTask
| WalletJournalTask
| MarketOrdersTask
| ResearchTask.

Definition apisheet_of (t : Task) : string :=
  match t with
  | WalletTransactionsTask => "WalletTransactions"
  | WalletJournalTask => "WalletJournal"
  | MarketOrdersTask => "MarketOrders"
  | ResearchTask => "Research"
  end.

Definition run_task (t : Task) (E : Env) (fuel : nat) (character_id : Z) (s : Store)
  : Outcome * Run :=
  match t with
  | WalletTransactionsTask => ProcessWalletTransactionsCharacter_run E fuel character_id s
  | WalletJournalTask => ProcessWalletJournalCharacter_run E fuel character_id s
  | MarketOrdersTask => ProcessMarketOrdersCharacter_run E character_id s
  | ResearchTask => ProcessResearchCharacter_run E character_id s
  end.

(** A later request of a walk takes its cursor from storage; the tasks
    that fetch a single sheet make no later request. *)
Definition later_cursor (t : Task) (character : Character) (c : Call) : Prop :=
  match t with
  | WalletTransactionsTask =>
      cursor_from_storage market_transactions mt_character mt_date
                          mt_journal_transaction_id character c
  | WalletJournalTask =>
      cursor_from_storage journal_entries je_character je_date je_ref_id character c
  | _ => False
  end.

(** The rows of the stream stored in [s] are stored in [s']. *)
Definition records_kept (t : Task) (s s' : Store) : Prop :=
  match t with
  | WalletTransactionsTask => incl (market_transactions s) (market_transactions s')
  | WalletJournalTask => incl (journal_entries s) (journal_entries s')
  | _ => False
  end.

End Inv.

(** ** Concrete databases, feeds and environments *)

Module TaskData.
Import Tasks Inv.

(** An environment in which every remote call fails and the database
    accepts every row. *)
Definition quiet : Env :=
  mkEnv (fun _ _ _ _ => inl TransportError) (fun _ _ _ _ => inl TransportError)
        (fun _ => inl TransportError) (fun _ => inl TransportError)
        (fun _ _ ks => ks)
        (fun _ _ => None) (fun _ _ => None) (fun _ _ => None)
        (fun _ _ => None) (fun _ _ => None)
        (fun _ => 0) (fun _ => 0) 0.

Definition serving_transactions
           (f : nat -> Auth -> Z -> option Z -> exn + Sheet TransactionRow) (E : Env) : Env :=
  mkEnv f (WalletJournal E) (ResearchSheet E) (MarketOrders E) (handle_api_exception E)
        (save_raises_mt E) (save_raises_je E) (save_raises_rs E) (save_raises_ord E)
        (save_raises_mo E) (cast_empty_string_to_int E) (cast_empty_string_to_float E)
        (utcnow E).

Definition serving_journal
           (f : nat -> Auth -> Z -> option Z -> exn + Sheet JournalRow) (E : Env) : Env :=
  mkEnv (WalletTransactions E) f (ResearchSheet E) (MarketOrders E) (handle_api_exception E)
        (save_raises_mt E) (save_raises_je E) (save_raises_rs E) (save_raises_ord E)
        (save_raises_mo E) (cast_empty_string_to_int E) (cast_empty_string_to_float E)
        (utcnow E).

Definition serving_research (f : Auth -> exn + Sheet ResearchRow) (E : Env) : Env :=
  mkEnv (WalletTransactions E) (WalletJournal E) f (MarketOrders E) (handle_api_exception E)
        (save_raises_mt E) (save_raises_je E) (save_raises_rs E) (save_raises_ord E)
        (save_raises_mo E) (cast_empty_string_to_int E) (cast_empty_string_to_float E)
        (utcnow E).

Definition raising_on_transactions (f : Store -> MarketTransaction -> option exn) (E : Env)
  : Env :=
  mkEnv (WalletTransactions E) (WalletJournal E) (ResearchSheet E) (MarketOrders E)
        (handle_api_exception E)
        f (save_raises_je E) (save_raises_rs E) (save_raises_ord E)
        (save_raises_mo E) (cast_empty_string_to_int E) (cast_empty_string_to_float E)
        (utcnow E).

Definition raising_on_journal (f : Store -> JournalEntry -> option exn) (E : Env) : Env :=
  mkEnv (WalletTransactions E) (WalletJournal E) (ResearchSheet E) (MarketOrders E)
        (handle_api_exception E)
        (save_raises_mt E) f (save_raises_rs E) (save_raises_ord E)
        (save_raises_mo E) (cast_empty_string_to_int E) (cast_empty_string_to_float E)
        (utcnow E).

(** A remote side that answers the n-th request of a run with the n-th
    entry of a script. *)
Definition scripted {R} (answers : list (exn + Sheet R))
  : nat -> Auth -> Z -> option Z -> exn + Sheet R :=
  fun n _ _ _ => nth n answers (inl TransportError).

(** Modelled from the spec: the remote feed of an account, which is not
    part of the sources.  The feed is the list of the account's records,
    newest first; a request returns at most [rowCount] records, from the
    newest one when no cursor is given and otherwise from the records
    whose reference id lies before the cursor. *)
Definition feed_page {R} (ref : R -> Z) (feed : list R) (row_count : Z) (fromID : option Z)
  : list R :=
  firstn (Z.to_nat row_count)
         (match fromID with
          | None => feed
          | Some i => List.filter (fun t => ref t <? i) feed
          end).

Definition transactions_feed (feed : list TransactionRow) (cached_until : Z)
  : nat -> Auth -> Z -> option Z -> exn + Sheet TransactionRow :=
  fun _ _ row_count fromID =>
    inr (mkSheet (feed_page journalTransactionID feed row_count fromID) cached_until).

(** Number of pages of [page_size] records needed for [n] records. *)
Definition ceil_div (n page_size : Z) : Z := (n + page_size - 1) / page_size.

(** The account of C2: the feed consists of [n] records that are new to
    the database, followed by a non-empty history of records that are all
    stored already ([existing] lists the stored reference ids). *)
Definition new_then_known {R} (ref : R -> Z) (existing : list Z) (feed : list R)
           (n : nat) : Prop :=
  exists new known,
    feed = new ++ known /\ List.length new = n /\ known <> [] /\
    (forall t, In t new -> is_in (ref t) existing = false) /\
    (forall t, In t known -> is_in (ref t) existing = true).

(** C2 read literally: the walk over such an account ends after exactly
    [ceil (n / rowCount)] page requests. *)
Definition fetches_ceil_pages (E : Env) (fuel : nat) (character_id : Z) (s : Store)
           (n : nat) : Prop :=
  fst (ProcessWalletTransactionsCharacter_run E fuel character_id s) <> OutOfFuel /\
  Z.of_nat (List.length
              (calls (snd (ProcessWalletTransactionsCharacter_run E fuel character_id s))))
  = ceil_div (Z.of_nat n) rowCount.

(** One character with a valid key and a timer per sheet. *)
Definition alice : Character := mkCharacter 1 "Alice" 10.
Definition alice_key : APIKey := mkAPIKey 10 4711 "vcode" true.
Definition revoked_key : APIKey := mkAPIKey 10 4711 "vcode" false.
Definition timers0 : list APITimer :=
  [ mkAPITimer 1 1 "WalletTransactions" 0; mkAPITimer 2 1 "WalletJournal" 0;
    mkAPITimer 3 1 "MarketOrders" 0; mkAPITimer 4 1 "Research" 0 ].

(** Remote records: transaction and journal record number [i], dated [i]. *)
Definition tx (i : Z) : TransactionRow :=
  mkTransactionRow i (5000 + i) 34 1 10 77 "Bob" 60003760 "buy" i "personal".
Definition jr (i : Z) (ref_type : Z) : JournalRow :=
  mkJournalRow i i ref_type 100 1000 "Alice" 1 "Bob" 77 "" 0 "" "" "".

Definition stored_tx (pk i : Z) : MarketTransaction :=
  mt_with_id pk (new_market_transaction alice (tx i)).
Definition stored_jr (pk i : Z) : JournalEntry :=
  je_with_id pk (new_journal_entry quiet alice (jr i 10)).

(** Transaction 100 and journal entry 200 are already stored. *)
Definition db0 : Store :=
  mkStore [alice] [alice_key] timers0 [stored_tx 1 100] [stored_jr 1 200] [] [] [] [].

(** The same database with the key marked invalid. *)
Definition db_revoked : Store :=
  mkStore [alice] [revoked_key] timers0 [stored_tx 1 100] [stored_jr 1 200] [] [] [] [].

(** Three pages: two new records, two older ones, then nothing. *)
Definition three_pages : Env :=
  serving_transactions
    (scripted [ inr (mkSheet [tx 102; tx 101] 7000);
                inr (mkSheet [tx 99; tx 98] 7100);
                inr (mkSheet [] 7200) ]) quiet.

(** The second request fails. *)
Definition second_page_fails : Env :=
  serving_transactions
    (scripted [ inr (mkSheet [tx 102; tx 101] 7000); inl TransportError ]) quiet.

(** Research: two rows stored for the character, one for somebody else;
    the sheet lists two other jobs. *)
Definition db_research : Store :=
  mkStore [alice] [alice_key] timers0 [] []
          [mkResearch 1 1 3010 11 50 4 0; mkResearch 2 2 3020 12 60 5 0;
           mkResearch 3 1 3030 13 70 6 0] [] [] [].

Definition research_sheet : Sheet ResearchRow :=
  mkSheet [mkResearchRow 3040 14 80 7 1; mkResearchRow 3050 15 90 8 2] 9000.

Definition research_served : Env := serving_research (fun _ => inr research_sheet) quiet.

(** The static data of the database is outdated: it rejects rows that
    refer to item type 999 or to reference type 999.  The remote side
    serves one page of two records per stream, the first record referring
    to the unknown type, and then an empty page. *)
Definition tx_of_unknown_type (i : Z) : TransactionRow :=
  mkTransactionRow i (5000 + i) 999 1 10 77 "Bob" 60003760 "buy" i "personal".

Definition outdated_static_data : Env :=
  raising_on_transactions
    (fun _ e => if mt_invtype_id e =? 999 then Some IntegrityError else None)
    (raising_on_journal
       (fun _ e => if je_ref_type_id e =? 999 then Some IntegrityError else None)
       (serving_transactions
          (scripted [ inr (mkSheet [tx_of_unknown_type 101; tx 102] 7000);
                      inr (mkSheet [] 7100) ])
          (serving_journal
             (scripted [ inr (mkSheet [jr 201 999; jr 202 10] 8000);
                         inr (mkSheet [] 8100) ])
             quiet))).

(** A feed that holds nothing but the stored transaction 100. *)
Definition nothing_new : Env :=
  serving_transactions (transactions_feed [tx 100] 7000) quiet.

End TaskData.

(** ** Further notions and inputs used by the proofs *)

Module MergeMore.
Import Manufacturing.

(** The ids of a list in the order of their first occurrence; [seen] are
    the ids met before. *)
Fixpoint first_occurrences (seen ids : list Z) : list Z :=
  match ids with
  | [] => []
  | i :: rest =>
      if existsb (Z.eqb i) seen then first_occurrences seen rest
      else i :: first_occurrences (seen ++ [i]) rest
  end.

(** The sum of the quantities of the entries of a list. *)
Definition total_quantity (h : heap) (items : list ref) : Z :=
  fold_right Z.add 0 (map (fun r => mat_quantity (h r)) items).

End MergeMore.

Module HistoryData.
Import BlueprintHistory.

Definition rifter : Entry := mkEntry 691 "Rifter Blueprint".
Definition slasher : Entry := mkEntry 689 "Slasher Blueprint".
Definition full_history : list Entry := [rifter; slasher].

End HistoryData.

Module Sched.
Import Tasks Inv Scheduling.

(** The periodic task that schedules the runs of an import task. *)
Definition scheduler_of (t : Task) : Z -> Z -> Store -> list Dispatch * nat :=
  match t with
  | WalletTransactionsTask => ProcessWalletTransactions_run
  | WalletJournalTask => ProcessWalletJournal_run
  | MarketOrdersTask => ProcessMarketOrders_run
  | ResearchTask => ProcessResearch_run
  end.

Definition character_task_of (t : Task) : CharacterTask :=
  match t with
  | WalletTransactionsTask => ProcessWalletTransactionsCharacter
  | WalletJournalTask => ProcessWalletJournalCharacter
  | MarketOrdersTask => ProcessMarketOrdersCharacter
  | ResearchTask => ProcessResearchCharacter
  end.

(** The dispatches of a periodic task that are not for the character. *)
Definition for_others (character_id : Z) (ds : list Dispatch) : list Dispatch :=
  List.filter (fun d => negb (task_arg d =? character_id)) ds.

(** How a run changes the timer table: not at all, or, when it completes,
    by saving the timer row of the character and sheet. *)
Definition timers_after (apisheet : string) (character_id : Z) (s : Store)
           (o : Outcome) (r' : Run) : Prop :=
  (o <> Completed /\ api_timers (db r') = api_timers s) \/
  (o = Completed /\
   exists c timer cu,
     get_character character_id s = inr c /\
     get_timer c apisheet s = inr timer /\
     api_timers (db r')
     = save_row timer_id (timer_with_nextupdate cu timer) (api_timers s)).

End Sched.

Module Frame.
Import Tasks Inv.

(** The transaction table after pages of a character were processed on
    top of [s0]: nothing else differs, the rows of [s0] are still there, in
    place, followed by rows of the character only. *)
Definition wt_appended (character_id : Z) (s0 s : Store) : Prop :=
  only_market_transactions s0 s /\
  grown mt_id (market_transactions s0) (market_transactions s) /\
  forall e, In e (market_transactions s) ->
            In e (market_transactions s0) \/ mt_character e = character_id.

Definition wj_appended (character_id : Z) (s0 s : Store) : Prop :=
  only_journal_entries s0 s /\
  grown je_id (journal_entries s0) (journal_entries s) /\
  forall e, In e (journal_entries s) ->
            In e (journal_entries s0) \/ je_character e = character_id.

(** Only the research table differs. *)
Definition only_research (s s' : Store) : Prop := with_research (research s') s = s'.

(** Only the tables of the orders differ. *)
Definition only_orders (s s' : Store) : Prop :=
  with_orders (orders s') (with_market_orders (market_orders s') s) = s'.

(** [s'] is [s1] up to the key table and the timer table. *)
Definition up_to_keys_and_timers (s1 s' : Store) : Prop :=
  with_api_timers (api_timers s') (with_apikeys (apikeys s') s1) = s'.

(** The tables that a task has no business with. *)
Definition foreign_tables_kept (t : Task) (s s' : Store) : Prop :=
  characters s' = characters s /\ stations s' = stations s /\
  match t with
  | WalletTransactionsTask =>
      journal_entries s' = journal_entries s /\ research s' = research s /\
      orders s' = orders s /\ market_orders s' = market_orders s
  | WalletJournalTask =>
      market_transactions s' = market_transactions s /\ research s' = research s /\
      orders s' = orders s /\ market_orders s' = market_orders s
  | MarketOrdersTask =>
      market_transactions s' = market_transactions s /\
      journal_entries s' = journal_entries s /\ research s' = research s
  | ResearchTask =>
      market_transactions s' = market_transactions s /\
      journal_entries s' = journal_entries s /\
      orders s' = orders s /\ market_orders s' = market_orders s
  end.

(** What a run leaves of the database [s] it started from: a database
    [s1] that differs from [s] in the tables of the task only, up to the
    timers and, after a handled API error, the keys. *)
Definition run_frame (only : Store -> Store -> Prop) (s : Store) (o : Outcome) (r' : Run)
  : Prop :=
  exists s1, only s s1 /\ up_to_keys_and_timers s1 (db r') /\
             (o <> ApiErrorHandled -> apikeys (db r') = apikeys s).

(** What the two halves of the loop body and the loop do to the rows
    whose id is not the id of an order of the sheet, and which ids they
    add. *)
Definition orders_step_ok (order_ids : list Z) (r r' : Run) : Prop :=
  (forall o, In o (orders (db r)) -> ~ In (ord_id o) order_ids -> In o (orders (db r'))) /\
  (forall m, In m (market_orders (db r)) -> ~ In (mo_id m) order_ids ->
             In m (market_orders (db r'))) /\
  (forall o, In o (orders (db r')) -> In o (orders (db r)) \/ In (ord_id o) order_ids) /\
  stations (db r') = stations (db r).

End Frame.

Module MoreData.
Import Tasks Inv TaskData.

(** The static data of the database is outdated (it rejects rows of item
    type 999) and the remote side answers every request with the same
    page, whose only record is of that type. *)
Definition unknown_types_only : Env :=
  raising_on_transactions
    (fun _ e => if mt_invtype_id e =? 999 then Some IntegrityError else None)
    (serving_transactions
       (fun _ _ _ _ => inr (mkSheet [tx_of_unknown_type 101] 7000)) quiet).

(** A character for whom nothing is stored yet. *)
Definition db_no_history : Store :=
  mkStore [alice] [alice_key] timers0 [] [] [] [] [] [].

End MoreData.

Module OrderData.
Import Tasks Inv TaskData.

(** The research sheet is served, and the database rejects the row of
    its second job. *)
Definition second_job_rejected : Env :=
  mkEnv (WalletTransactions quiet) (WalletJournal quiet)
        (fun _ => inr research_sheet) (MarketOrders quiet) (handle_api_exception quiet)
        (save_raises_mt quiet) (save_raises_je quiet)
        (fun _ e => if rs_agent_id e =? 3050 then Some IntegrityError else None)
        (save_raises_ord quiet) (save_raises_mo quiet)
        (cast_empty_string_to_int quiet) (cast_empty_string_to_float quiet) (utcnow quiet).

(** A closed sell order (state 2) at a known station, and an order that
    is stored but no longer listed. *)
Definition jita : StaStation := mkStaStation 60003760 10000002 30000142.
Definition closed_order : OrderRow :=
  mkOrderRow 9001 60003760 34 5 0 100 1 32767 false 1000 90 2 1000 0.
Definition old_order : Orders :=
  mkOrders 8000 0 10000002 35 7 10 10 1 32767 false 900 90 60003760 30000142
           false "eveapi" "eveapi" true.
Definition db_orders : Store :=
  mkStore [alice] [alice_key] timers0 [] [] [] [jita] [old_order]
          [mkMarketOrder 8000 1 0 1000 0].
Definition orders_served : Env :=
  mkEnv (WalletTransactions quiet) (WalletJournal quiet) (ResearchSheet quiet)
        (fun _ => inr (mkSheet [closed_order] 9500)) (handle_api_exception quiet)
        (save_raises_mt quiet) (save_raises_je quiet) (save_raises_rs quiet)
        (save_raises_ord quiet) (save_raises_mo quiet)
        (cast_empty_string_to_int quiet) (cast_empty_string_to_float quiet) (utcnow quiet).

(** The same sheet, for a database that does not know the station. *)
Definition db_without_station : Store :=
  mkStore [alice] [alice_key] timers0 [] [] [] [] [old_order]
          [mkMarketOrder 8000 1 0 1000 0].

End OrderData.

Module RefData.
Import Tasks Reference.

(** The name under which a sheet lists an id last, if it lists it. *)
Fixpoint last_name (ref_types : list RefTypeRow) (i : Z) : option string :=
  match ref_types with
  | [] => None
  | ref_type :: rest =>
      match last_name rest i with
      | Some n => Some n
      | None => if rt_refTypeID ref_type =? i then Some (rt_refTypeName ref_type) else None
      end
  end.

(** The name stored for an id. *)
Definition named (i : Z) (table : list RefType) : option string :=
  option_map reftype_name (find (fun t => reftype_id t =? i) table).

(** The same for the outposts. *)
Fixpoint last_station_name (outposts : list Outpost) (i : Z) : option string :=
  match outposts with
  | [] => None
  | station :: rest =>
      match last_station_name rest i with
      | Some n => Some n
      | None => if op_stationID station =? i then Some (op_stationName station) else None
      end
  end.

(** No save raises. *)
Definition accepting {A} (save_raises : list A -> A -> option exn) : Prop :=
  forall table x, save_raises table x = None.

Definition accept_all {A} : list A -> A -> option exn := fun _ _ => None.

Definition ref_table : list RefType :=
  [mkRefType 1 "Player Trading"; mkRefType 2 "Market Transaction"].
Definition ref_sheet : list RefTypeRow :=
  [mkRefTypeRow 2 "Market Escrow"; mkRefTypeRow 10 "Player Donation";
   mkRefTypeRow 2 "Market Transaction (new)"].

End RefData.

Module StationData.
Import Tasks Reference RefData.

(** Two station rows that differ in the name at most. *)
Definition same_but_name (a b : Station) : Prop :=
  station_id a = station_id b /\
  station_solar_system_id a = station_solar_system_id b /\
  station_type_id a = station_type_id b /\
  station_constellation a = station_constellation b /\
  station_region a = station_region b.

(** A station row after an import into [table]: a row of [table] under
    another name at most, or a row that carries the constellation and the
    region of the stored solar system it names. *)
Definition station_ok (systems : list SolarSystem) (table : list Station) (x : Station)
  : Prop :=
  (exists st, In st table /\ same_but_name st x) \/
  (exists system, In system systems /\
     system_id system = station_solar_system_id x /\
     station_constellation x = system_constellation system /\
     station_region x = system_region system).

Definition systems0 : list SolarSystem := [mkSolarSystem 30000142 20000020 10000002].
Definition stations0 : list Station :=
  [mkStation 61000001 "Old name" 30000142 21644 20000020 10000002].
(** The remote side lists the stored outpost under a new name, and as
    moved to another system and rebuilt as another type. *)
Definition outposts0 : list Outpost := [mkOutpost 61000001 "New name" 30004608 21645].

(** Skills: two rows stored for one skill of character 1. *)
Definition skills0 : list CharSkill :=
  [mkCharSkill 1 1 3300 1000 1; mkCharSkill 2 1 3300 1000 1; mkCharSkill 3 1 3301 250 1].

End StationData.

Module DuplicateData.
Import Tasks Inv TaskData.

(** Transaction 100 and journal entry 200 are stored twice. *)
Definition db_duplicates : Store :=
  mkStore [alice] [alice_key] timers0
          [stored_tx 1 100; stored_tx 2 100; stored_tx 3 101]
          [stored_jr 1 200; stored_jr 2 201; stored_jr 3 200] [] [] [] [].

End DuplicateData.

Module WalkData.
Import Tasks Inv TaskData.

(** Modelled from the spec: the journal feed of an account, served page
    by page by [feed_page] as [transactions_feed] serves the transactions. *)
Definition journal_feed (feed : list JournalRow) (cached_until : Z)
  : nat -> Auth -> Z -> option Z -> exn + Sheet JournalRow :=
  fun _ _ row_count fromID =>
    inr (mkSheet (feed_page refID feed row_count fromID) cached_until).

(** Two new transactions in front of the stored transaction 100. *)
Definition two_new_transactions : Env :=
  serving_transactions (transactions_feed [tx 102; tx 101; tx 100] 7000) quiet.

(** One new journal record in front of the stored entry 200. *)
Definition one_new_journal_record : Env :=
  serving_journal (journal_feed [jr 201 10; jr 200 10] 8000) quiet.

(** Three journal pages: two new records, two older ones, then nothing. *)
Definition three_journal_pages : Env :=
  serving_journal
    (scripted [ inr (mkSheet [jr 202 10; jr 201 10] 8000);
                inr (mkSheet [jr 199 10; jr 198 10] 8100);
                inr (mkSheet [] 8200) ]) quiet.

(** The remote side lists record 101 (201 in the journal) three times in
    its first page, followed by one more new record, and then serves an
    empty page; the database accepts every row and raises nothing. *)
Definition repeated_records : Env :=
  serving_transactions
    (scripted [ inr (mkSheet [tx 101; tx 101; tx 101; tx 102] 7000);
                inr (mkSheet [] 7100) ])
    (serving_journal
       (scripted [ inr (mkSheet [jr 201 10; jr 201 10; jr 201 10; jr 202 10] 8000);
                   inr (mkSheet [] 8100) ])
       quiet).

End WalkData.

Module PriceData.
Import Manufacturing MergeData Pricing.

(** The percentile that the statistics give for an item in The Forge: the
    one of the last row for it, if there is one. *)
Fixpoint forge_price (stats : list ItemRegionStat) (i : Z) : option Z :=
  match stats with
  | [] => None
  | s :: rest =>
      match forge_price rest i with
      | Some p => Some p
      | None =>
          if (stat_invtype_id s =? i) && (stat_mapregion_id s =? 10000002)
          then Some (sell_95_percentile s) else None
      end
  end.

(** The percentile of the last row of a query result for an item. *)
Fixpoint last_percentile (rows : list ItemRegionStat) (i : Z) : option Z :=
  match rows with
  | [] => None
  | s :: rest =>
      match last_percentile rest i with
      | Some p => Some p
      | None => if stat_invtype_id s =? i then Some (sell_95_percentile s) else None
      end
  end.

(** Two entries that differ in the price fields at most. *)
Definition same_but_prices (a b : Material) : Prop :=
  mat_id a = mat_id b /\ mat_name a = mat_name b /\ mat_quantity a = mat_quantity b /\
  mat_volume a = mat_volume b /\ mat_producible a = mat_producible b.

(** Exact multiplication. *)
Definition exact_times (p q : Z) : option Z := Some (p * q).

Definition stats0 : list ItemRegionStat :=
  [mkItemRegionStat 34 10000002 5; mkItemRegionStat 35 10000043 9;
   mkItemRegionStat 36 10000002 40].

End PriceData.

(* ===================================================================== *)
(** * Part III: properties                                                *)
(* ===================================================================== *)

(** ** merge_bill_of_materials *)

Section Merge.
Import Manufacturing MergeData.

Lemma is_in_materials_true h ms i :
  is_in_materials h ms i = true <-> exists r, In r ms /\ mat_id (h r) = i.
Proof.
  induction ms as [|m ms IH]; simpl.
  - split; [discriminate | intros (r & [] & _)].
  - destruct (Z.eqb_spec (mat_id (h m)) i) as [Heq|Hne].
    + split; [intros _; exists m; auto | reflexivity].
    + rewrite IH. split.
      * intros (r & Hr & Hi). exists r; auto.
      * intros (r & [->|Hr] & Hi); [contradiction | exists r; auto].
Qed.

Lemma NoDup_map_inj_on {A B} (f : A -> B) (l : list A) x y :
  NoDup (map f l) -> In x l -> In y l -> f x = f y -> x = y.
Proof.
  induction l as [|a l IH]; simpl; [intros _ []|].
  intros Hnd Hx Hy Hf. inversion Hnd as [|? ? Hnotin Hnd']; subst.
  destruct Hx as [->|Hx], Hy as [->|Hy]; auto.
  - exfalso. apply Hnotin. rewrite Hf. now apply in_map.
  - exfalso. apply Hnotin. rewrite <- Hf. now apply in_map.
Qed.

(** With distinct ids in [ms], the second inner loop updates exactly the
    material that carries the id of the item. *)
Lemma add_to_first_at h ms item r :
  NoDup (map (fun x => mat_id (h x)) ms) -> In r ms ->
  mat_id (h r) = mat_id (h item) ->
  add_to_first h ms item =
  heap_set h r (set_quantity (mat_quantity (h r) + mat_quantity (h item)) (h r)).
Proof.
  induction ms as [|m ms IH]; simpl; [intros _ []|].
  intros Hnd Hin Hid. inversion Hnd as [|? ? Hnotin Hnd']; subst.
  destruct (Z.eqb_spec (mat_id (h m)) (mat_id (h item))) as [Heq|Hne].
  - destruct Hin as [->|Hin]; [reflexivity|].
    exfalso. apply Hnotin. rewrite Heq, <- Hid.
    now apply (in_map (fun x => mat_id (h x))).
  - destruct Hin as [->|Hin]; [congruence|]. now apply IH.
Qed.

Lemma quantity_of_snoc h l x i :
  quantity_of h (l ++ [x]) i =
  quantity_of h l i + (if mat_id (h x) =? i then mat_quantity (h x) else 0).
Proof.
  unfold quantity_of. rewrite List.filter_app, map_app. simpl.
  induction (map (fun r => mat_quantity (h r))
                 (List.filter (fun r => mat_id (h r) =? i) l)) as [|q qs IH]; simpl.
  - destruct (mat_id (h x) =? i); simpl; lia.
  - rewrite IH. lia.
Qed.

Lemma quantity_of_absent h l i :
  (forall x, In x l -> mat_id (h x) <> i) -> quantity_of h l i = 0.
Proof.
  induction l as [|a l IH]; intros Hno; [reflexivity|].
  unfold quantity_of in *. simpl.
  destruct (Z.eqb_spec (mat_id (h a)) i) as [Heq|Hne].
  - exfalso. apply (Hno a); simpl; auto.
  - apply IH. intros x Hx. apply Hno. simpl; auto.
Qed.

Lemma first_with_id_snoc h l x r :
  first_with_id h l r -> first_with_id h (l ++ [x]) r.
Proof.
  intros (pre & post & -> & Hpre). exists pre, (post ++ [x]). split; [|exact Hpre].
  now rewrite <- app_assoc.
Qed.

Lemma heap_set_same h r m : heap_set h r m r = m.
Proof. unfold heap_set. now rewrite Nat.eqb_refl. Qed.

Lemma heap_set_other h r m x : x <> r -> heap_set h r m x = h x.
Proof. unfold heap_set. intros Hne. now destruct (Nat.eqb_spec x r). Qed.

(** One pass of the outer loop keeps the invariant, as long as the item
    is an object not met before. *)
Lemma merge_item_inv h0 processed st item :
  merge_inv h0 processed st -> ~ In item processed ->
  merge_inv h0 (processed ++ [item]) (merge_item st item).
Proof.
  destruct st as [h ms]. intros ((Hnd & Hall & Hms) & Hsub & Hout) Hfresh.
  assert (Hitem : h item = h0 item) by (apply Hout; intros Hin; apply Hfresh, Hsub, Hin).
  assert (Hids : forall r, In r ms -> mat_id (h r) = mat_id (h0 r)).
  { intros r Hr. destruct (Hms r Hr) as (_ & (Hid & _) & _). exact Hid. }
  unfold merge_item.
  destruct (is_in_materials h ms (mat_id (h item))) eqn:Hin.
  - (* the id is already listed: its material r is updated in place *)
    apply is_in_materials_true in Hin. destruct Hin as (r & Hr & Hrid).
    rewrite (add_to_first_at h ms item r Hnd Hr Hrid).
    set (m' := set_quantity _ _).
    assert (Hid' : forall x, mat_id (heap_set h r m' x) = mat_id (h x)).
    { intros x. unfold heap_set. destruct (Nat.eqb_spec x r); subst; reflexivity. }
    assert (Hmap : map (fun x => mat_id (heap_set h r m' x)) ms
                   = map (fun x => mat_id (h x)) ms).
    { apply map_ext. exact Hid'. }
    split; [split; [|split]|split].
    + now rewrite Hmap.
    + intros x Hx. apply in_app_or in Hx. destruct Hx as [Hx|[<-|[]]].
      * destruct (Hall x Hx) as (r' & Hr' & Hrid'). exists r'. now rewrite Hid'.
      * exists r. rewrite Hid', Hrid, Hitem. auto.
    + intros r' Hr'. destruct (Hms r' Hr') as (Hq & Hsame & Hfirst).
      rewrite Hid', quantity_of_snoc. split; [|split].
      * destruct (Nat.eq_dec r' r) as [->|Hne].
        -- rewrite heap_set_same. subst m'. simpl.
           rewrite Hq, <- Hitem, Hrid, Z.eqb_refl. reflexivity.
        -- rewrite heap_set_other by exact Hne.
           destruct (Z.eqb_spec (mat_id (h0 item)) (mat_id (h r'))) as [Heq|_]; [|lia].
           exfalso. apply Hne.
           apply (NoDup_map_inj_on (fun x => mat_id (h x)) ms); auto. congruence.
      * destruct (Nat.eq_dec r' r) as [->|Hne].
        -- rewrite heap_set_same. exact Hsame.
        -- rewrite heap_set_other by exact Hne. exact Hsame.
      * now apply first_with_id_snoc.
    + intros r' Hr'. apply in_or_app. left. now apply Hsub.
    + intros x Hx. rewrite heap_set_other; [now apply Hout|].
      intros ->. contradiction.
  - (* a new id: the item itself is appended *)
    assert (Hnone : forall r, In r ms -> mat_id (h r) <> mat_id (h item)).
    { intros r Hr Heq.
      assert (is_in_materials h ms (mat_id (h item)) = true)
        by (apply is_in_materials_true; exists r; auto).
      congruence. }
    assert (Hnew : forall x, In x processed -> mat_id (h0 x) <> mat_id (h0 item)).
    { intros x Hx Heq. destruct (Hall x Hx) as (r & Hr & Hrid).
      apply (Hnone r Hr). congruence. }
    split; [split; [|split]|split].
    + rewrite map_app. simpl. apply NoDup_app; [exact Hnd| |].
      * constructor; [intros []|constructor].
      * intros i Hi [<-|[]]. apply in_map_iff in Hi.
        destruct Hi as (r & Hrid & Hr). now apply (Hnone r Hr).
    + intros x Hx. apply in_app_or in Hx. destruct Hx as [Hx|[<-|[]]].
      * destruct (Hall x Hx) as (r' & Hr' & Hrid'). exists r'.
        split; [apply in_or_app; auto | exact Hrid'].
      * exists item. split; [apply in_or_app; simpl; auto | now rewrite Hitem].
    + intros r Hr. apply in_app_or in Hr. destruct Hr as [Hr|[<-|[]]].
      * destruct (Hms r Hr) as (Hq & Hsame & Hfirst).
        rewrite quantity_of_snoc. split; [|split]; auto using first_with_id_snoc.
        destruct (Z.eqb_spec (mat_id (h0 item)) (mat_id (h r))) as [Heq|_]; [|lia].
        exfalso. apply (Hnone r Hr). congruence.
      * rewrite quantity_of_snoc, Hitem, Z.eqb_refl.
        rewrite (quantity_of_absent h0 processed) by exact Hnew.
        split; [lia|]. split; [repeat split|].
        exists processed, []. split; [reflexivity | exact Hnew].
    + intros r Hr. apply in_app_or in Hr. apply in_or_app.
      destruct Hr as [Hr|Hr]; [left; now apply Hsub | right; exact Hr].
    + intros x Hx. apply Hout. intros Hx'. apply Hx, in_or_app. auto.
Qed.

Lemma merge_loop_inv h0 remaining : forall processed st,
  merge_inv h0 processed st -> List.NoDup (processed ++ remaining) ->
  merge_inv h0 (processed ++ remaining) (fold_left merge_item remaining st).
Proof.
  induction remaining as [|item remaining IH]; intros processed st Hinv Hnd; simpl.
  - now rewrite app_nil_r.
  - replace (processed ++ item :: remaining) with ((processed ++ [item]) ++ remaining)
      in * by (rewrite <- app_assoc; reflexivity).
    apply IH; [|exact Hnd].
    apply merge_item_inv; [exact Hinv|].
    apply NoDup_app_remove_r in Hnd. apply NoDup_remove_2 in Hnd.
    now rewrite app_nil_r in Hnd.
Qed.

(** C10 (amended). For every pair of bills of materials whose entries are
    pairwise distinct dict objects, [merge_bill_of_materials] returns a
    list in which every material id of the inputs occurs exactly once; the
    quantity recorded for an id is the sum of the quantities of all entries
    with that id across both input lists, and the other fields are those of
    the first entry with that id. *)
Theorem merge_bill_of_materials_distinct_objects h materials1 materials2 :
  List.NoDup (materials1 ++ materials2) ->
  merged h (materials1 ++ materials2) (merge_bill_of_materials h materials1 materials2).
Proof.
  intros Hnd. unfold merge_bill_of_materials.
  pose proof (merge_loop_inv h (materials1 ++ materials2) [] (h, [])) as Hloop.
  simpl in Hloop.
  destruct (fold_left merge_item (materials1 ++ materials2) (h, [])) as [h' ms].
  apply proj1 with (B := (forall r, In r ms -> In r (materials1 ++ materials2)) /\
                         (forall x, ~ In x ms -> h' x = h x)).
  apply Hloop; [|exact Hnd].
  split; [split; [constructor | split; intros ? []] | split; [intros ? [] | reflexivity]].
Qed.

Lemma bills_distinct : List.NoDup (bill1 ++ bill2).
Proof. repeat constructor; simpl; intuition lia. Qed.

Lemma merge_bill_of_materials_distinct_objects_witness :
  List.NoDup (bill1 ++ bill2) /\
  merged bill_heap (bill1 ++ bill2) (merge_bill_of_materials bill_heap bill1 bill2).
Proof.
  split; [exact bills_distinct|].
  exact (merge_bill_of_materials_distinct_objects bill_heap bill1 bill2 bills_distinct).
Defined.

(** C10 as stated fails when the same dict object is listed more than
    twice: for one entry of quantity 1 listed three times the merged
    quantity is 4, not 1 + 1 + 1. *)
Lemma merge_bill_of_materials_aliased_entries :
  snd (merge_bill_of_materials one_object [0; 0]%nat [0%nat]) = [0%nat] /\
  mat_quantity (fst (merge_bill_of_materials one_object [0; 0]%nat [0%nat]) 0%nat) = 4 /\
  quantity_of one_object ([0; 0]%nat ++ [0%nat]) 34 = 3 /\
  ~ merged one_object ([0; 0]%nat ++ [0%nat])
           (merge_bill_of_materials one_object [0; 0]%nat [0%nat]).
Proof.
  repeat split; try reflexivity.
  intros (_ & _ & Hq). specialize (Hq 0%nat (or_introl eq_refl)).
  destruct Hq as (Hq & _). vm_compute in Hq. discriminate.
Qed.

End Merge.

(** ** The ORM operations *)

Section Orm.
Import Tasks.
Context {A : Type} (pk : A -> Z).

Lemma objects_get_inr (P : A -> bool) table x :
  objects_get P table = inr x -> List.filter P table = [x].
Proof.
  unfold objects_get. destruct (List.filter P table) as [|a [|b l]]; congruence.
Qed.

Lemma objects_get_In (P : A -> bool) table x :
  objects_get P table = inr x -> In x table /\ P x = true.
Proof.
  intros H. apply objects_get_inr in H. apply filter_In. rewrite H. simpl; auto.
Qed.

Lemma objects_get_none (P : A -> bool) table :
  (forall x, In x table -> P x = false) -> objects_get P table = inl DoesNotExist.
Proof.
  intros Hno. unfold objects_get.
  replace (List.filter P table) with (@nil A); [reflexivity|].
  symmetry. induction table as [|a l IH]; simpl; [reflexivity|].
  rewrite (Hno a) by (simpl; auto). apply IH. intros x Hx. apply Hno. simpl; auto.
Qed.

Lemma filter_none_in (P : A -> bool) l :
  (forall x, In x l -> P x = false) -> List.filter P l = [].
Proof.
  induction l as [|a l IH]; simpl; intros H; [reflexivity|].
  rewrite (H a) by auto. apply IH. auto.
Qed.

Lemma filter_twice (P Q : A -> bool) l :
  List.filter P (List.filter Q l) = List.filter (fun x => Q x && P x) l.
Proof.
  induction l as [|a l IH]; simpl; [reflexivity|].
  destruct (Q a); simpl; [destruct (P a)|]; rewrite IH; reflexivity.
Qed.

Lemma filter_map_stable (P : A -> bool) (g : A -> A) l :
  (forall x, In x l -> P (g x) = P x) ->
  List.filter P (map g l) = map g (List.filter P l).
Proof.
  induction l as [|a l IH]; simpl; intros Hg; [reflexivity|].
  rewrite Hg by auto. destruct (P a); simpl; rewrite IH; auto.
Qed.

Lemma pk_unique table x y :
  List.NoDup (map pk table) -> In x table -> In y table -> pk x = pk y -> x = y.
Proof.
  induction table as [|a l IH]; simpl; [intros _ []|].
  intros Hnd Hx Hy Hpk. inversion Hnd as [|? ? Hnotin Hnd']; subst.
  destruct Hx as [->|Hx], Hy as [->|Hy]; auto.
  - exfalso. apply Hnotin. rewrite Hpk. now apply in_map.
  - exfalso. apply Hnotin. rewrite <- Hpk. now apply in_map.
Qed.

(** Saving a changed copy of the row that [get] returned: the same query
    then returns the changed copy, as long as the change does not affect
    the primary key or the queried fields. *)
Lemma get_after_save (P : A -> bool) table x x' :
  List.NoDup (map pk table) ->
  objects_get P table = inr x -> pk x' = pk x -> P x' = true ->
  objects_get P (save_row pk x' table) = inr x'.
Proof.
  intros Hnd Hget Hpk HP.
  destruct (objects_get_In _ _ _ Hget) as [Hin HPx].
  apply objects_get_inr in Hget.
  unfold save_row.
  assert (Hex : existsb (fun r => pk r =? pk x') table = true).
  { apply existsb_exists. exists x. split; [exact Hin|]. rewrite Hpk. apply Z.eqb_refl. }
  rewrite Hex. unfold objects_get.
  rewrite filter_map_stable.
  - rewrite Hget. simpl. rewrite Hpk, Z.eqb_refl. reflexivity.
  - intros y Hy. destruct (Z.eqb_spec (pk y) (pk x')) as [Heq|Hne]; [|reflexivity].
    assert (y = x) by (apply (pk_unique table); auto; congruence).
    subst y. congruence.
Qed.

(** Greatest primary key of a table (0 for an empty one). *)
Lemma max_pk_ge table x : In x table -> pk x <= fold_right Z.max 0 (map pk table).
Proof.
  induction table as [|a l IH]; simpl; [intros []|].
  intros [->|Hx]; [lia|]. specialize (IH Hx). lia.
Qed.

Lemma next_id_fresh table x : In x table -> pk x < next_id pk table.
Proof. intros Hx. unfold next_id. pose proof (max_pk_ge table x Hx). lia. Qed.

Lemma grown_refl t : grown pk t t.
Proof. exists []. split; [now rewrite app_nil_r | constructor]. Qed.

Lemma grown_incl t0 t : grown pk t0 t -> incl t0 t.
Proof. intros (added & -> & _). apply incl_appl, incl_refl. Qed.

Lemma max_app_le (l1 l2 : list Z) :
  fold_right Z.max 0 l1 <= fold_right Z.max 0 (l1 ++ l2).
Proof.
  induction l1 as [|a l1 IH]; simpl; [|lia].
  induction l2 as [|b l2 IH2]; simpl; lia.
Qed.

Lemma grown_trans t0 t1 t2 : grown pk t0 t1 -> grown pk t1 t2 -> grown pk t0 t2.
Proof.
  intros (a1 & -> & H1) (a2 & -> & H2). exists (a1 ++ a2). split.
  - now rewrite app_assoc.
  - apply Forall_app. split; [exact H1|].
    eapply Forall_impl; [|exact H2]. intros x Hx. simpl in Hx.
    rewrite map_app in Hx. pose proof (max_app_le (map pk t0) (map pk a1)). lia.
Qed.

Lemma grown_insert t0 t x :
  grown pk t0 t -> pk x = next_id pk t -> grown pk t0 (t ++ [x]).
Proof.
  intros (added & -> & Hall) Hx. exists (added ++ [x]). split.
  - now rewrite app_assoc.
  - apply Forall_app. split; [exact Hall|]. constructor; [|constructor].
    rewrite Hx. unfold next_id. rewrite map_app.
    pose proof (max_app_le (map pk t0) (map pk added)). lia.
Qed.

Lemma grown_delete t0 t d :
  grown pk t0 t -> fold_right Z.max 0 (map pk t0) < pk d -> grown pk t0 (delete_row pk d t).
Proof.
  intros (added & -> & Hall) Hd. exists (delete_row pk d added). split.
  - unfold delete_row. rewrite List.filter_app. f_equal.
    apply forallb_filter_id. apply forallb_forall. intros x Hx.
    pose proof (max_pk_ge t0 x Hx). apply negb_true_iff, Z.eqb_neq. lia.
  - apply Forall_forall. intros x Hx. apply filter_In in Hx.
    rewrite Forall_forall in Hall. apply Hall. tauto.
Qed.

Lemma grown_new_row t0 t x :
  grown pk t0 t -> In x t -> ~ In x t0 -> fold_right Z.max 0 (map pk t0) < pk x.
Proof.
  intros (added & -> & Hall) Hx Hnot. apply in_app_or in Hx.
  destruct Hx as [Hx|Hx]; [contradiction|].
  rewrite Forall_forall in Hall. now apply Hall.
Qed.

(** Deleting, one by one, every row but the first of those matching a
    query leaves exactly the first one matching it. *)
Lemma delete_rows_filter ds : forall table,
  fold_left (fun tb x => delete_row pk x tb) ds table
  = List.filter (fun y => negb (existsb (fun x => pk y =? pk x) ds)) table.
Proof.
  induction ds as [|d ds IH]; intros table; simpl.
  - symmetry. apply forallb_filter_id. apply forallb_forall. reflexivity.
  - rewrite IH. unfold delete_row. rewrite filter_twice.
    apply filter_ext. intros y. now rewrite negb_orb.
Qed.

Lemma NoDup_pk_filter (Q : A -> bool) table :
  List.NoDup (map pk table) -> List.NoDup (map pk (List.filter Q table)).
Proof.
  induction table as [|a l IH]; simpl; intros Hnd; [constructor|].
  inversion Hnd as [|? ? Hnotin Hnd']; subst.
  destruct (Q a); simpl; [|now apply IH].
  constructor; [|now apply IH].
  intros Hin. apply Hnotin. apply in_map_iff in Hin.
  destruct Hin as (x & Hx & Hin). apply filter_In in Hin.
  apply in_map_iff. exists x. tauto.
Qed.

Lemma delete_all_but_first (Q : A -> bool) table d rest :
  List.NoDup (map pk table) -> List.filter Q table = d :: rest ->
  List.filter Q (fold_left (fun tb x => delete_row pk x tb) rest table) = [d].
Proof.
  intros Hnd Hfilter. rewrite delete_rows_filter, filter_twice.
  rewrite (filter_ext _ (fun y => Q y && negb (existsb (fun x => pk y =? pk x) rest)))
    by (intros y; apply andb_comm).
  rewrite <- filter_twice, Hfilter.
  pose proof (NoDup_pk_filter Q table Hnd) as Hnd'. rewrite Hfilter in Hnd'.
  simpl in Hnd'. inversion Hnd' as [|? ? Hnotin _]; subst.
  simpl.
  replace (existsb (fun x => pk d =? pk x) rest) with false.
  - simpl. f_equal. apply filter_none_in. intros y Hy.
    apply negb_false_iff, existsb_exists. exists y. split; [exact Hy | apply Z.eqb_refl].
  - symmetry. apply not_true_iff_false. intros Hex. apply existsb_exists in Hex.
    destruct Hex as (x & Hx & Heq). apply Z.eqb_eq in Heq.
    apply Hnotin. rewrite Heq. now apply in_map.
Qed.

Lemma oldest_by_spec (date : A -> Z) l x :
  oldest_by date l = Some x -> In x l /\ forall y, In y l -> date x <= date y.
Proof.
  revert x. induction l as [|a l IH]; simpl; [discriminate|].
  intros x. destruct (oldest_by date l) as [y|] eqn:Hy.
  - destruct (IH y eq_refl) as [Hin Hmin].
    destruct (Z.leb_spec (date a) (date y)); intros [= <-].
    + split; [auto|]. intros z [<-|Hz]; [lia|]. specialize (Hmin z Hz). lia.
    + split; [auto|]. intros z [<-|Hz]; [lia|]. now apply Hmin.
  - intros [= <-]. destruct l; [|simpl in Hy; destruct (oldest_by date l); try destruct (_ <=? _); discriminate].
    split; [auto|]. intros z [<-|[]]. lia.
Qed.

Lemma oldest_by_some (date : A -> Z) l : l <> [] -> exists x, oldest_by date l = Some x.
Proof.
  destruct l as [|a l]; [congruence|]. intros _. simpl.
  destruct (oldest_by date l) as [y|]; [destruct (date a <=? date y)|]; eauto.
Qed.

End Orm.

Lemma existsb_known {R} (known : R -> bool) (page : list R) :
  (exists k, In k page /\ known k = true) -> existsb known page = true.
Proof. intros (k & Hk & Hknown). apply existsb_exists. eauto. Qed.

Lemma In_firstn {R} n (l : list R) x : In x (firstn n l) -> In x l.
Proof.
  intros H. rewrite <- (firstn_skipn n l). apply in_or_app. now left.
Qed.

(** The first page of a feed of [n] new records followed by known ones
    contains a known record when [n] is smaller than the page size. *)
Lemma first_page_has_known {R} (ref : R -> Z) existing (feed : list R) n page_size :
  TaskData.new_then_known ref existing feed n -> (n < page_size)%nat ->
  exists k, In k (firstn page_size feed) /\ Tasks.is_in (ref k) existing = true.
Proof.
  intros (new & known & -> & Hlen & Hne & _ & Hknown) Hlt.
  destruct known as [|k known]; [contradiction|].
  exists k. split; [|apply Hknown; simpl; auto].
  rewrite firstn_app. apply in_or_app. right.
  rewrite Hlen. destruct (page_size - n)%nat eqn:Hd; [lia|]. simpl. auto.
Qed.

Lemma existsb_none {R} (known : R -> bool) (page : list R) :
  (forall t, In t page -> known t = false) -> existsb known page = false.
Proof.
  intros Hnone. apply not_true_iff_false. intros Hex. apply existsb_exists in Hex.
  destruct Hex as (t & Ht & Hknown). rewrite (Hnone t Ht) in Hknown. discriminate.
Qed.

(** ** The record of remote requests *)

Section Calls.
Import Tasks Inv.

Lemma last_cachedUntil_snoc cs c :
  last_cachedUntil (cs ++ [c]) =
  match call_cachedUntil c with Some v => Some v | None => last_cachedUntil cs end.
Proof. unfold last_cachedUntil. rewrite fold_left_app. reflexivity. Qed.

Lemma last_answer_cachedUntil r v : last_answer r v -> last_cachedUntil (calls r) = Some v.
Proof. intros (cs & c & -> & Hc). now rewrite last_cachedUntil_snoc, Hc. Qed.

Lemma last_answer_keeps_db r v : last_answer r v -> failed_fetch_keeps_db r.
Proof.
  intros (cs & c & Hcalls & Hc) cs' c' Hcalls' Hnone.
  rewrite Hcalls in Hcalls'. apply app_inj_tail in Hcalls'. destruct Hcalls' as [_ ->].
  congruence.
Qed.

Lemma called_last_answer fromID v r : last_answer (called fromID (Some v) r) v.
Proof. exists (calls r), (mkCall fromID (db r) (Some v)). auto. Qed.

Lemma called_keeps_db fromID answer r : failed_fetch_keeps_db (called fromID answer r).
Proof.
  intros cs c Hcalls _. simpl in Hcalls. apply app_inj_tail in Hcalls.
  destruct Hcalls as [_ <-]. reflexivity.
Qed.

Lemma keeps_db_logged m r : failed_fetch_keeps_db r -> failed_fetch_keeps_db (logged m r).
Proof. intros H cs c Hcalls Hnone. exact (H cs c Hcalls Hnone). Qed.

Section Stream.
Context {A : Type} (tbl : Store -> list A) (char date ref : A -> Z).

Lemma calls_monotone_step r r' :
  calls_monotone tbl r -> calls r' = calls r -> incl (tbl (db r)) (tbl (db r')) ->
  calls_monotone tbl r'.
Proof.
  intros Hm Hc Hincl c Hin. rewrite Hc in Hin.
  eapply incl_tran; [apply Hm, Hin | exact Hincl].
Qed.

Lemma calls_monotone_called r fromID answer :
  calls_monotone tbl r -> calls_monotone tbl (called fromID answer r).
Proof.
  intros Hm c Hin. simpl in Hin. apply in_app_or in Hin.
  destruct Hin as [Hin|[<-|[]]]; [now apply Hm | apply incl_refl].
Qed.

Lemma walk_calls_step character r r' :
  walk_calls tbl char date ref character r -> calls r' = calls r ->
  walk_calls tbl char date ref character r'.
Proof. intros (c & cs & Hc & H) Heq. exists c, cs. now rewrite Heq. Qed.

(** A request whose [fromID] is the reference id of the oldest stored
    row of the character extends a walk. *)
Lemma walk_calls_called character r e answer :
  walk_calls tbl char date ref character r ->
  oldest_by date (List.filter (fun x => char x =? char_id character) (tbl (db r)))
  = Some e ->
  walk_calls tbl char date ref character (called (Some (ref e)) answer r).
Proof.
  intros (c & cs & Hc & Hnone & Hall) Hold.
  exists c, (cs ++ [mkCall (Some (ref e)) (db r) answer]). split; [|split].
  - simpl. now rewrite Hc.
  - exact Hnone.
  - apply Forall_app. split; [exact Hall|]. constructor; [|constructor].
    apply oldest_by_spec in Hold. destruct Hold as [Hin Hmin].
    apply filter_In in Hin. destruct Hin as [Hin Hchar]. apply Z.eqb_eq in Hchar.
    exists e. simpl. repeat split; auto.
    intros e' Hin' Hchar'. apply Hmin, filter_In. split; [exact Hin'|].
    now apply Z.eqb_eq.
Qed.
End Stream.
End Calls.

(** ** The timer update that closes every task *)

Section Timer.
Import Tasks Inv.

Lemma update_timer_kept c sheet cu r o r' :
  update_timer c sheet cu r = (o, r') ->
  calls r' = calls r /\ log r' = log r /\
  with_api_timers (api_timers (db r')) (db r) = db r' /\
  (o <> Completed -> r' = r) /\
  (o = Completed \/ exists e, o = Raised e).
Proof.
  unfold update_timer. destruct (objects_get _ _) as [e|timer].
  - intros [= <- <-]. split; [reflexivity|]. split; [reflexivity|].
    split; [destruct r as [[] ? ?]; reflexivity|]. split; [reflexivity | eauto].
  - destruct (utcfromtimestamp_raises cu) as [e|].
    + intros [= <- <-]. split; [reflexivity|]. split; [reflexivity|].
      split; [destruct r as [[] ? ?]; reflexivity|]. split; [reflexivity | eauto].
    + intros [= <- <-]. split; [reflexivity|]. split; [reflexivity|].
      split; [destruct r as [[] ? ?]; reflexivity|]. split; [congruence | auto].
Qed.

(** After a completed update the timer row of the character and sheet
    carries the given instant. *)
Lemma update_timer_completed c sheet cu r r' :
  List.NoDup (map timer_id (api_timers (db r))) ->
  update_timer c sheet cu r = (Completed, r') ->
  exists timer,
    objects_get (fun t => (timer_character t =? char_id c)
                          && String.eqb (timer_apisheet t) sheet)
                (api_timers (db r')) = inr timer /\
    timer_nextupdate timer = cu.
Proof.
  intros Hnd. unfold update_timer.
  destruct (objects_get _ (api_timers (db r))) as [e|timer] eqn:Hget; [discriminate|].
  destruct (utcfromtimestamp_raises cu) as [e|]; [discriminate|].
  intros [= <-]. exists (timer_with_nextupdate cu timer). split; [|reflexivity].
  simpl. destruct (db r); simpl in *.
  apply (get_after_save timer_id _ _ timer); auto.
  apply objects_get_In in Hget. exact (proj2 Hget).
Qed.

End Timer.

(** ** The wallet transactions walker *)

Section WalletTransactionsWalker.
Import Tasks Inv.
Context (E : Env).

Lemma only_mt_refl s : only_market_transactions s s.
Proof. destruct s; reflexivity. Qed.

Lemma only_mt_trans s1 s2 s3 :
  only_market_transactions s1 s2 -> only_market_transactions s2 s3 ->
  only_market_transactions s1 s3.
Proof.
  unfold only_market_transactions. intros <- <-. destruct s1; reflexivity.
Qed.

Lemma only_mt_with v s : only_market_transactions s (with_market_transactions v s).
Proof. destruct s; reflexivity. Qed.

Lemma only_mt_timers s s' : only_market_transactions s s' -> api_timers s' = api_timers s.
Proof. intros <-. reflexivity. Qed.

Lemma is_in_true x l : is_in x l = true <-> In x l.
Proof.
  unfold is_in. rewrite existsb_exists. split.
  - intros (y & Hy & Heq). apply Z.eqb_eq in Heq. now subst.
  - intros Hx. exists x. split; [exact Hx | apply Z.eqb_refl].
Qed.

(** What the [for] loop over a page does to the state, however it ends:
    no remote request, only the transaction table changes, and it changes
    by rows added behind the existing ones. *)
Lemma wt_for_state c ex ts : forall r w,
  calls (result_run (wt_for E c ex ts r w)) = calls r /\
  only_market_transactions (db r) (db (result_run (wt_for E c ex ts r w))) /\
  grown mt_id (market_transactions (db r))
        (market_transactions (db (result_run (wt_for E c ex ts r w)))).
Proof.
  induction ts as [|t ts IH]; intros r w; simpl.
  - split; [reflexivity|]. split; [apply only_mt_refl | apply grown_refl].
  - destruct (is_in (journalTransactionID t) ex); [apply IH|].
    destruct (utcfromtimestamp_raises (transactionDateTime t)) as [e|];
      [simpl; split; [reflexivity|]; split; [apply only_mt_refl | apply grown_refl]|].
    destruct (save_raises_mt E (db r) (new_market_transaction c t)) as [e|].
    + destruct e; simpl;
        try (split; [reflexivity|]; split; [apply only_mt_refl | apply grown_refl]).
      apply (IH (logged _ r) w).
    + specialize (IH (with_db (insert_market_transaction (new_market_transaction c t) (db r)) r) w).
      destruct IH as (Hc & Hf & Hg). split; [exact Hc|]. split.
      * eapply only_mt_trans; [|exact Hf]. apply only_mt_with.
      * eapply grown_trans; [|exact Hg]. simpl.
        apply grown_insert; [apply grown_refl | reflexivity].
Qed.

(** An exception leaves the loop only at a record that was not known,
    and it is the exception that saving the row of that record raised. *)
Lemma utcfromtimestamp_raises_ValueError timestamp e :
  utcfromtimestamp_raises timestamp = Some e -> e = ValueError.
Proof.
  unfold utcfromtimestamp_raises.
  destruct ((min_timestamp <=? timestamp) && (timestamp <=? max_timestamp)); congruence.
Qed.

Lemma wt_for_raising c ex ts : forall r w e t r' w',
  wt_for E c ex ts r w = Raising e t r' w' ->
  In t ts /\ is_in (journalTransactionID t) ex = false /\ e <> IntegrityError /\
  (utcfromtimestamp_raises (transactionDateTime t) = Some e \/
   save_raises_mt E (db r') (new_market_transaction c t) = Some e).
Proof.
  induction ts as [|t0 ts IH]; intros r w e t r' w'; simpl; [discriminate|].
  destruct (is_in (journalTransactionID t0) ex) eqn:Hin.
  - intros H. apply IH in H. tauto.
  - destruct (utcfromtimestamp_raises (transactionDateTime t0)) as [e1|] eqn:Hconv.
    { intros [= <- <- <- <-]. repeat split; auto.
      apply utcfromtimestamp_raises_ValueError in Hconv. subst e1. discriminate. }
    destruct (save_raises_mt E (db r) (new_market_transaction c t0)) as [e0|] eqn:Hsave.
    + destruct e0; try (intros [= <- <- <- <-]; repeat split; auto; discriminate).
      intros H. apply IH in H. tauto.
    + intros H. apply IH in H. tauto.
Qed.

(** [walking] at the end of a page: false as soon as one record reached
    by the loop was known. *)
Lemma wt_for_walking c ex ts : forall r w r' w',
  wt_for E c ex ts r w = Finished r' w' ->
  w' = w && negb (existsb (fun t => is_in (journalTransactionID t) ex) ts).
Proof.
  induction ts as [|t ts IH]; intros r w r' w'; simpl.
  - intros [= <- <-]. now rewrite andb_true_r.
  - destruct (is_in (journalTransactionID t) ex); simpl.
    + intros H. apply IH in H. rewrite H. simpl. now rewrite andb_false_r.
    + destruct (utcfromtimestamp_raises (transactionDateTime t)); [discriminate|].
      destruct (save_raises_mt E (db r) (new_market_transaction c t)) as [e|].
      * destruct e; try discriminate. apply IH.
      * apply IH.
Qed.

Lemma wt_delete_loop_state t0 ds : forall r,
  (forall d, In d ds -> fold_right Z.max 0 (map mt_id t0) < mt_id d) ->
  grown mt_id t0 (market_transactions (db r)) ->
  let r' := fold_left
    (fun r duplicate =>
       with_db (with_market_transactions
                  (delete_row mt_id duplicate (market_transactions (db r))) (db r))
               (logged (WarnDuplicateMarketTransaction (mt_id duplicate)
                                                       (mt_transaction_id duplicate)) r))
    ds r in
  calls r' = calls r /\ only_market_transactions (db r) (db r') /\
  grown mt_id t0 (market_transactions (db r')).
Proof.
  induction ds as [|d ds IH]; intros r Hds Hg; simpl.
  - split; [reflexivity|]. split; [apply only_mt_refl | exact Hg].
  - match goal with |- context [fold_left _ ds ?r1] => specialize (IH r1) end.
    destruct IH as (Hc & Hf & Hg').
    + intros x Hx. apply Hds. simpl; auto.
    + simpl. apply grown_delete; [exact Hg | apply Hds; simpl; auto].
    + split; [exact Hc|]. split; [|exact Hg'].
      eapply only_mt_trans; [|exact Hf]. apply only_mt_with.
Qed.

Lemma not_existing_no_duplicate c t s x :
  is_in (journalTransactionID t) (wt_existing_entries c s) = false ->
  In x (market_transactions s) ->
  (mt_journal_transaction_id x =? journalTransactionID t) && (mt_character x =? char_id c)
  = false.
Proof.
  intros Hno Hx.
  destruct ((mt_journal_transaction_id x =? journalTransactionID t)
            && (mt_character x =? char_id c)) eqn:HQ; [|reflexivity].
  apply andb_true_iff in HQ. destruct HQ as [Hj Hc]. apply Z.eqb_eq in Hj.
  assert (is_in (journalTransactionID t) (wt_existing_entries c s) = true); [|congruence].
  apply is_in_true. unfold wt_existing_entries, mt_of_character. rewrite <- Hj.
  apply in_map, filter_In. auto.
Qed.

Lemma wt_remove_duplicates_state c t r t0 :
  grown mt_id t0 (market_transactions (db r)) ->
  (forall x, In x t0 ->
     (mt_journal_transaction_id x =? journalTransactionID t) && (mt_character x =? char_id c)
     = false) ->
  calls (wt_remove_duplicates c t r) = calls r /\
  only_market_transactions (db r) (db (wt_remove_duplicates c t r)) /\
  grown mt_id t0 (market_transactions (db (wt_remove_duplicates c t r))).
Proof.
  intros Hg Hno. unfold wt_remove_duplicates. apply wt_delete_loop_state; [|exact Hg].
  intros d Hd.
  assert (Hd' : In d (wt_duplicates c t (db r))).
  { destruct (wt_duplicates c t (db r)); [destruct Hd | simpl in *; auto]. }
  apply filter_In in Hd'. destruct Hd' as [Hin HQ].
  apply (grown_new_row mt_id t0 (market_transactions (db r))); auto.
  intros Hin0. rewrite (Hno d Hin0) in HQ. discriminate.
Qed.

(** A page, handler included: no remote request, only the transaction
    table changes, and what was stored before the page stays. *)
Lemma wt_page_state c ts r :
  calls (result_run (wt_page E c ts r)) = calls r /\
  only_market_transactions (db r) (db (result_run (wt_page E c ts r))) /\
  grown mt_id (market_transactions (db r))
        (market_transactions (db (result_run (wt_page E c ts r)))).
Proof.
  unfold wt_page.
  pose proof (wt_for_state c (wt_existing_entries c (db r)) ts r true) as Hst.
  destruct (wt_for E c (wt_existing_entries c (db r)) ts r true)
    as [r1 w1|e t r1 w1] eqn:Hfor; [exact Hst|].
  simpl in Hst. destruct Hst as (Hc & Hf & Hg).
  destruct e; try exact (conj Hc (conj Hf Hg)). simpl.
  apply wt_for_raising in Hfor. destruct Hfor as (_ & Hno & _ & _).
  destruct (wt_remove_duplicates_state c t r1 (market_transactions (db r)) Hg)
    as (Hc' & Hf' & Hg').
  - intros x Hx. now apply (not_existing_no_duplicate c t (db r)).
  - split; [congruence|]. split; [|exact Hg']. eapply only_mt_trans; eauto.
Qed.

Lemma wt_loop_inv_page c s0 ts r :
  wt_loop_inv c s0 r -> wt_loop_inv c s0 (result_run (wt_page E c ts r)).
Proof.
  intros (Hf & Hw & Hm & Hi).
  destruct (wt_page_state c ts r) as (Hc & Hf' & Hg).
  apply grown_incl in Hg. split; [|split; [|split]].
  - eapply only_mt_trans; eauto.
  - eapply walk_calls_step; eauto.
  - eapply calls_monotone_step; eauto.
  - eapply incl_tran; eauto.
Qed.

Lemma wt_loop_inv_logged c s0 m r : wt_loop_inv c s0 r -> wt_loop_inv c s0 (logged m r).
Proof. intros H. exact H. Qed.

Lemma wt_loop_inv_called c s0 r oldest_id answer :
  wt_loop_inv c s0 r -> wt_oldest_id c (db r) = Some oldest_id ->
  wt_loop_inv c s0 (called (Some oldest_id) answer r).
Proof.
  intros (Hf & Hw & Hm & Hi) Hold. unfold wt_oldest_id, mt_of_character in Hold.
  destruct (oldest_by mt_date _) as [e|] eqn:He; [|discriminate].
  injection Hold as <-.
  split; [exact Hf|]. split; [|split; [|exact Hi]].
  - now apply walk_calls_called.
  - now apply calls_monotone_called.
Qed.

(** One pass of the loop keeps the invariant; the sheet handed on is the
    one of the last successful request. *)
Lemma wt_iteration_inv auth c s0 sheet r :
  wt_loop_inv c s0 r -> last_answer r (cachedUntil sheet) ->
  match wt_iteration E auth c sheet r with
  | Continue r' sheet' =>
      wt_loop_inv c s0 r' /\ last_answer r' (cachedUntil sheet') /\
      List.length (calls r') = S (List.length (calls r))
  | Break r' sheet' =>
      wt_loop_inv c s0 r' /\ failed_fetch_keeps_db r' /\
      last_cachedUntil (calls r') = Some (cachedUntil sheet')
  | Abort e r' => wt_loop_inv c s0 r' /\ failed_fetch_keeps_db r'
  end.
Proof.
  intros Hinv Hlast. unfold wt_iteration.
  destruct (rows sheet) as [|t0 ts0] eqn:Hrows.
  { split; [exact Hinv|]. split; [eapply last_answer_keeps_db; eauto|].
    now apply last_answer_cachedUntil. }
  rewrite <- Hrows. clear Hrows t0 ts0.
  pose proof (wt_loop_inv_page c s0 (rows sheet) r Hinv) as Hinv1.
  destruct (wt_page_state c (rows sheet) r) as (Hc1 & _ & _).
  assert (Hlast1 : last_answer (result_run (wt_page E c (rows sheet) r)) (cachedUntil sheet)).
  { destruct Hlast as (cs & c0 & Hcs & Hc0). exists cs, c0. now rewrite Hc1. }
  destruct (wt_page E c (rows sheet) r) as [r1 w1|e t r1 w1]; simpl in *.
  2:{ split; [exact Hinv1 | eapply last_answer_keeps_db; eauto]. }
  destruct w1.
  2:{ split; [exact Hinv1|]. split; [eapply last_answer_keeps_db; eauto|].
      now apply last_answer_cachedUntil. }
  destruct (wt_oldest_id c (db r1)) as [oldest_id|] eqn:Hold.
  2:{ split; [exact Hinv1|]. split; [eapply last_answer_keeps_db; eauto|].
      now apply last_answer_cachedUntil. }
  pose proof (fun answer => wt_loop_inv_called c s0 r1 oldest_id answer Hinv1 Hold) as Hcalled.
  destruct (WalletTransactions E (List.length (calls r1)) auth rowCount (Some oldest_id))
    as [e|sheet'].
  - assert (Hab : wt_loop_inv c s0 (called (Some oldest_id) None r1) /\
                  failed_fetch_keeps_db (called (Some oldest_id) None r1))
      by (split; [apply Hcalled | apply called_keeps_db]).
    destruct e; try exact Hab.
    split; [apply Hcalled|]. split; [apply keeps_db_logged, called_keeps_db|].
    simpl. rewrite last_cachedUntil_snoc. simpl. now apply last_answer_cachedUntil.
  - split; [apply Hcalled|]. split; [apply called_last_answer|].
    simpl. rewrite length_app, Hc1. simpl. lia.
Qed.

(** The loop as a whole. *)
Lemma wt_iteration_calls auth c sheet r :
  (List.length (calls r) <=
   List.length (calls (iter_run (wt_iteration E auth c sheet r))))%nat.
Proof.
  unfold wt_iteration.
  pose proof (wt_page_state c (rows sheet) r) as (Hc1 & _ & _).
  destruct (rows sheet); [simpl; lia|].
  destruct (wt_page E c _ r) as [r2 [|]|]; simpl in *; rewrite <- Hc1; try lia.
  destruct (wt_oldest_id c (db r2)); [|simpl; lia].
  destruct (WalletTransactions E _ auth rowCount _) as [[]|];
    simpl; rewrite length_app; lia.
Qed.

(** The loop as a whole. *)
Lemma wt_while_inv c s0 auth fuel : forall sheet r o r' sheet',
  wt_while E fuel auth c sheet r = (o, r', sheet') ->
  wt_loop_inv c s0 r -> last_answer r (cachedUntil sheet) ->
  wt_loop_inv c s0 r' /\ failed_fetch_keeps_db r' /\
  (o = Completed -> last_cachedUntil (calls r') = Some (cachedUntil sheet')) /\
  (List.length (calls r) <= List.length (calls r'))%nat.
Proof.
  induction fuel as [|fuel IH]; intros sheet r o r' sheet' Hrun Hinv Hlast; simpl in Hrun.
  - injection Hrun as <- <- <-. split; [exact Hinv|].
    split; [eapply last_answer_keeps_db; eauto|]. split; [discriminate | lia].
  - pose proof (wt_iteration_inv auth c s0 sheet r Hinv Hlast) as Hit.
    pose proof (wt_iteration_calls auth c sheet r) as Hlen.
    destruct (wt_iteration E auth c sheet r) as [r1 sheet1|r1 sheet1|e r1] eqn:Hiter;
      simpl in Hlen.
    + destruct Hit as (Hinv1 & Hlast1 & _).
      destruct (IH _ _ _ _ _ Hrun Hinv1 Hlast1) as (H1 & H2 & H3 & H4).
      split; [exact H1|]. split; [exact H2|]. split; [exact H3 | lia].
    + injection Hrun as <- <- <-. destruct Hit as (H1 & H2 & H3).
      split; [exact H1|]. split; [exact H2|]. split; [intros _; exact H3 | exact Hlen].
    + injection Hrun as <- <- <-. destruct Hit as (H1 & H2).
      split; [exact H1|]. split; [exact H2|]. split; [discriminate | exact Hlen].
Qed.

(** Everything the properties below need to know about a run. *)
Lemma wt_run_post fuel character_id s o r' :
  ProcessWalletTransactionsCharacter_run E fuel character_id s = (o, r') ->
  wt_run_ok character_id s o r'.
Proof.
  unfold ProcessWalletTransactionsCharacter_run.
  assert (Hone : forall a (c : Character),
             walk_calls market_transactions mt_character mt_date
                        mt_journal_transaction_id c (called None a (mkRun s [] []))).
  { intros a c. exists (mkCall None s a), []. simpl. repeat split; auto. }
  assert (Hmono1 : forall a, calls_monotone market_transactions (called None a (mkRun s [] []))).
  { intros a. apply calls_monotone_called. intros c []. }
  assert (Hnocall : forall o0, o0 <> Completed -> wt_run_ok character_id s o0 (mkRun s [] [])).
  { intros o0 Hne. split; [split; [reflexivity | contradiction]|].
    split; [intros c []|]. split; [left; reflexivity|].
    intros e _ cs c0 Hcs. destruct cs; discriminate. }
  destruct (get_character character_id s) as [e|c] eqn:Hchar.
  { intros [= <- <-]. apply Hnocall. discriminate. }
  destruct (get_valid_apikey c s) as [e|apikey].
  { destruct e; intros [= <- <-]; apply Hnocall; discriminate. }
  destruct (WalletTransactions E 0 (authenticate apikey c) rowCount None) as [e|sheet].
  { assert (Hraise : wt_run_ok character_id s (Raised e) (called None None (mkRun s [] []))).
    { split; [split; [reflexivity | discriminate]|]. split; [apply Hmono1|].
      split; [right; exists c; split; [exact Hchar | apply Hone]|].
      intros _ _; apply called_keeps_db. }
    destruct e; try (intros [= <- <-]; exact Hraise).
    intros [= <- <-]. split; [split; [reflexivity | discriminate]|]. split.
    - intros c0 [<-|[]]. simpl. apply incl_refl.
    - split; [right; exists c; split; [exact Hchar | apply Hone]|].
      discriminate. }
  set (r0 := called None (Some (cachedUntil sheet)) (mkRun s [] [])).
  assert (Hinv0 : wt_loop_inv c s r0).
  { split; [apply only_mt_refl|]. split; [apply Hone|]. split; [apply Hmono1 | apply incl_refl]. }
  assert (Hlast0 : last_answer r0 (cachedUntil sheet)) by apply called_last_answer.
  destruct (wt_while E fuel (authenticate apikey c) c sheet r0) as [[o1 r1] sheet1] eqn:Hwhile.
  destruct (wt_while_inv c s _ _ _ _ _ _ _ Hwhile Hinv0 Hlast0)
    as ((Hf & Hw & Hm & Hi) & Hkeep & Hcu & Hlen).
  assert (Hstop : o1 <> Completed -> wt_run_ok character_id s o1 r1).
  { intros Hne. split; [split; [intros _; now apply only_mt_timers | contradiction]|].
    split; [exact Hm|]. split; [right; exists c; auto|]. auto. }
  destruct o1; try (intros [= <- <-]; apply Hstop; discriminate).
  intros Hupd. destruct (update_timer_kept _ _ _ _ _ _ Hupd) as (Hc & _ & Hdb & Hsame & _).
  assert (Hmt : market_transactions (db r') = market_transactions (db r1))
    by (rewrite <- Hdb; reflexivity).
  split; [split|].
  - intros Hne. rewrite (Hsame Hne). now apply only_mt_timers.
  - intros -> Hnd. exists c.
    destruct (update_timer_completed c "WalletTransactions" (cachedUntil sheet1) r1 r')
      as (timer & Hget & Hnext); auto.
    + now rewrite (only_mt_timers _ _ Hf).
    + exists timer. split; [exact Hchar|]. split; [exact Hget|].
      rewrite Hc, Hnext. now apply Hcu.
  - split; [eapply calls_monotone_step; eauto; rewrite Hmt; apply incl_refl|].
    split; [right; exists c; split; [exact Hchar | eapply walk_calls_step; eauto]|].
    intros e ->. rewrite Hsame by discriminate. exact Hkeep.
Qed.

(** When the database accepts the rows of a page, the loop runs to the
    end of the page: [walking] is false exactly when a record was known,
    and every record that was not known has a row, wherever it stands. *)
Lemma wt_for_accepting c ex ts : forall r w,
  (forall t, In t ts -> utcfromtimestamp_raises (transactionDateTime t) = None) ->
  (forall s t, In t ts -> save_raises_mt E s (new_market_transaction c t) = None) ->
  exists r',
    wt_for E c ex ts r w
    = Finished r' (w && negb (existsb (fun t => is_in (journalTransactionID t) ex) ts)) /\
    incl (market_transactions (db r)) (market_transactions (db r')) /\
    forall t, In t ts -> is_in (journalTransactionID t) ex = false ->
              exists e, In e (market_transactions (db r')) /\
                        mt_with_id 0 e = new_market_transaction c t.
Proof.
  induction ts as [|t ts IH]; intros r w Hconv Hacc; simpl.
  - exists r. rewrite andb_true_r. split; [reflexivity|]. split; [apply incl_refl|].
    intros t [].
  - assert (Hacc' : forall s t0, In t0 ts ->
              save_raises_mt E s (new_market_transaction c t0) = None)
      by (intros s t0 Ht0; apply Hacc; simpl; auto).
    assert (Hconv' : forall t0, In t0 ts ->
              utcfromtimestamp_raises (transactionDateTime t0) = None)
      by (intros t0 Ht0; apply Hconv; simpl; auto).
    destruct (is_in (journalTransactionID t) ex) eqn:Hin; simpl.
    + destruct (IH r false Hconv' Hacc') as (r' & Hfor & Hincl & Hrows).
      exists r'. rewrite andb_false_r. simpl in Hfor. split; [exact Hfor|].
      split; [exact Hincl|]. intros t0 [<-|Ht0] Hno; [congruence | now apply Hrows].
    + rewrite (Hconv t) by (simpl; auto). rewrite (Hacc (db r) t) by (simpl; auto).
      destruct (IH (with_db (insert_market_transaction (new_market_transaction c t) (db r)) r)
                   w Hconv' Hacc') as (r' & Hfor & Hincl & Hrows).
      exists r'. split; [exact Hfor|]. split.
      * eapply incl_tran; [|exact Hincl]. simpl. apply incl_appl, incl_refl.
      * intros t0 [<-|Ht0] Hno; [|now apply Hrows].
        eexists. split; [apply Hincl; simpl; apply in_or_app; right; left; reflexivity|].
        reflexivity.
Qed.

Lemma wt_while_calls auth c fuel : forall sheet r,
  (List.length (calls r) <=
   List.length (calls (snd (fst (wt_while E fuel auth c sheet r)))))%nat.
Proof.
  induction fuel as [|fuel IH]; intros sheet r; simpl; [lia|].
  pose proof (wt_iteration_calls auth c sheet r) as Hlen.
  destruct (wt_iteration E auth c sheet r) as [r1 sheet1|r1 sheet1|e r1];
    simpl in *; try lia.
  specialize (IH sheet1 r1). lia.
Qed.

(** A pass of the loop over an empty page, or over a page with a known
    record, is the last one and makes no request, as long as no save of
    the page raises [MultipleObjectsReturned]. *)
Lemma wt_last_page_iteration auth c sheet r :
  wt_last_page c sheet r ->
  (forall s t, In t (rows sheet) ->
     save_raises_mt E s (new_market_transaction c t) <> Some MultipleObjectsReturned) ->
  (exists r', wt_iteration E auth c sheet r = Break r' sheet /\ calls r' = calls r) \/
  (exists e r', wt_iteration E auth c sheet r = Abort e r' /\ calls r' = calls r).
Proof.
  intros Hlast Hnomult. unfold wt_iteration.
  destruct (rows sheet) as [|t0 ts0] eqn:Hrows; [left; eauto|].
  destruct Hlast as [Hnil|Hknown]; [congruence|].
  rewrite <- Hrows in *. clear Hrows t0 ts0.
  pose proof (wt_for_state c (wt_existing_entries c (db r)) (rows sheet) r true)
    as (Hc & _ & _).
  unfold wt_page.
  destruct (wt_for E c (wt_existing_entries c (db r)) (rows sheet) r true)
    as [r1 w1|e t r1 w1] eqn:Hfor; simpl in Hc.
  - apply wt_for_walking in Hfor.
    rewrite (existsb_known _ _ Hknown) in Hfor. simpl in Hfor. subst w1. left. eauto.
  - apply wt_for_raising in Hfor. destruct Hfor as (Ht & _ & _ & Hsave).
    specialize (Hnomult (db r1) t Ht). right.
    destruct e; try (eexists; eexists; split; [reflexivity | exact Hc]).
    destruct Hsave as [Hconv|Hsave]; [|congruence].
    apply utcfromtimestamp_raises_ValueError in Hconv. discriminate.
Qed.

Lemma wt_last_page_ends auth c fuel sheet r :
  wt_last_page c sheet r ->
  (forall s t, In t (rows sheet) ->
     save_raises_mt E s (new_market_transaction c t) <> Some MultipleObjectsReturned) ->
  exists o r', wt_while E (S fuel) auth c sheet r = (o, r', sheet) /\
               o <> OutOfFuel /\ calls r' = calls r.
Proof.
  intros Hlast Hnomult. simpl.
  destruct (wt_last_page_iteration auth c sheet r Hlast Hnomult)
    as [(r' & -> & Hc)|(e & r' & -> & Hc)].
  - exists Completed, r'. split; [reflexivity|]. split; [discriminate | exact Hc].
  - exists (Raised e), r'. split; [reflexivity|]. split; [discriminate | exact Hc].
Qed.

(** Once the credentials are resolved, a run requests the first page. *)
Lemma wt_run_requests fuel character_id s c apikey :
  get_character character_id s = inr c -> get_valid_apikey c s = inr apikey ->
  calls (snd (ProcessWalletTransactionsCharacter_run E fuel character_id s)) <> [].
Proof.
  intros Hchar Hkey. unfold ProcessWalletTransactionsCharacter_run. rewrite Hchar, Hkey.
  destruct (WalletTransactions E 0 (authenticate apikey c) rowCount None) as [e|sheet].
  { destruct e; simpl; discriminate. }
  pose proof (wt_while_calls (authenticate apikey c) c fuel sheet
                (called None (Some (cachedUntil sheet)) (mkRun s [] []))) as Hlen.
  destruct (wt_while E fuel _ c sheet _) as [[o1 r1] sheet1]. simpl in Hlen.
  assert (Hne : calls r1 <> []) by (intros H; rewrite H in Hlen; simpl in Hlen; lia).
  destruct o1; simpl; auto.
  destruct (update_timer c "WalletTransactions" (cachedUntil sheet1) r1) as [o2 r2] eqn:Hupd.
  destruct (update_timer_kept _ _ _ _ _ _ Hupd) as (Hc & _). simpl. now rewrite Hc.
Qed.

(** When the first page already ends the walk, the run makes exactly
    one request. *)
Lemma wt_one_page_run fuel character_id s c apikey sheet :
  get_character character_id s = inr c -> get_valid_apikey c s = inr apikey ->
  WalletTransactions E 0 (authenticate apikey c) rowCount None = inr sheet ->
  wt_last_page c sheet (mkRun s [] []) ->
  (forall s' t, In t (rows sheet) ->
     save_raises_mt E s' (new_market_transaction c t) <> Some MultipleObjectsReturned) ->
  exists o r', ProcessWalletTransactionsCharacter_run E (S fuel) character_id s = (o, r') /\
               o <> OutOfFuel /\ List.length (calls r') = 1%nat.
Proof.
  intros Hchar Hkey Hsheet Hlast Hnomult.
  unfold ProcessWalletTransactionsCharacter_run. rewrite Hchar, Hkey, Hsheet.
  destruct (wt_last_page_ends (authenticate apikey c) c fuel sheet
              (called None (Some (cachedUntil sheet)) (mkRun s [] [])) Hlast Hnomult)
    as (o & r1 & -> & Hne & Hc).
  destruct o; try (eexists; eexists; split; [reflexivity|]; split;
                   [discriminate | now rewrite Hc]).
  - destruct (update_timer c "WalletTransactions" (cachedUntil sheet) r1) as [o2 r2] eqn:Hupd.
    destruct (update_timer_kept _ _ _ _ _ _ Hupd) as (Hc2 & _ & _ & _ & Ho).
    exists o2, r2. split; [reflexivity|]. split; [|now rewrite Hc2, Hc].
    destruct Ho as [->|(e & ->)]; discriminate.
  - contradiction.
Qed.

(** A pass of the loop over a non-empty page without known records makes
    the next request, when the database accepts the rows of the page. *)
Lemma wt_new_page_requests_next auth c sheet r :
  wt_new_page c sheet r ->
  (forall t, In t (rows sheet) -> utcfromtimestamp_raises (transactionDateTime t) = None) ->
  (forall s t, In t (rows sheet) -> save_raises_mt E s (new_market_transaction c t) = None) ->
  List.length (calls (iter_run (wt_iteration E auth c sheet r))) = S (List.length (calls r)).
Proof.
  intros [Hne Hnew] Hconv Hacc. unfold wt_iteration.
  destruct (rows sheet) as [|t0 ts0] eqn:Hrows; [contradiction|].
  rewrite <- Hrows in *. unfold wt_page.
  destruct (wt_for_accepting c (wt_existing_entries c (db r)) (rows sheet) r true Hconv Hacc)
    as (r1 & Hfor & _ & Hrows1).
  pose proof (wt_for_state c (wt_existing_entries c (db r)) (rows sheet) r true) as (Hc & _).
  rewrite Hfor in *. simpl in Hc.
  rewrite (existsb_none _ _ Hnew). simpl.
  assert (Ht0 : In t0 (rows sheet)) by (rewrite Hrows; simpl; auto).
  destruct (Hrows1 t0 Ht0 (Hnew t0 Ht0)) as (e & Hin & Heq).
  assert (Hchar : mt_character e = char_id c)
    by (apply (f_equal mt_character) in Heq; destruct e; exact Heq).
  unfold wt_oldest_id.
  destruct (oldest_by_some mt_date (mt_of_character c (db r1))) as (x & ->).
  { intros Hnil. assert (Hx : In e (mt_of_character c (db r1))).
    { apply filter_In. split; [exact Hin | now apply Z.eqb_eq]. }
    rewrite Hnil in Hx. destruct Hx. }
  simpl.
  destruct (WalletTransactions E _ auth rowCount _) as [[]|];
    simpl; rewrite length_app, Hc; simpl; lia.
Qed.

(** After a non-empty page without known records, whose dates convert and
    whose rows the database accepts, the next request is made with the
    reference id of the oldest row stored for the character after the
    page, and its answer is the sheet of the next pass. *)
Lemma wt_new_page_cursor auth c sheet r :
  wt_new_page c sheet r ->
  (forall t, In t (rows sheet) -> utcfromtimestamp_raises (transactionDateTime t) = None) ->
  (forall s t, In t (rows sheet) -> save_raises_mt E s (new_market_transaction c t) = None) ->
  exists r1 oldest,
    wt_page E c (rows sheet) r = Finished r1 true /\
    oldest_by mt_date (mt_of_character c (db r1)) = Some oldest /\
    (exists answer,
       calls (iter_run (wt_iteration E auth c sheet r))
       = calls r ++ [mkCall (Some (mt_journal_transaction_id oldest)) (db r1) answer]) /\
    forall sheet',
      WalletTransactions E (List.length (calls r)) auth rowCount
                         (Some (mt_journal_transaction_id oldest)) = inr sheet' ->
      wt_iteration E auth c sheet r
      = Continue (called (Some (mt_journal_transaction_id oldest))
                         (Some (cachedUntil sheet')) r1) sheet'.
Proof.
  intros [Hne Hnew] Hconv Hacc.
  destruct (wt_for_accepting c (wt_existing_entries c (db r)) (rows sheet) r true Hconv Hacc)
    as (r1 & Hfor & _ & Hrows1).
  pose proof (wt_for_state c (wt_existing_entries c (db r)) (rows sheet) r true) as (Hc & _).
  rewrite Hfor in Hc. simpl in Hc.
  rewrite (existsb_none _ _ Hnew) in Hfor. simpl in Hfor.
  assert (Hpage : wt_page E c (rows sheet) r = Finished r1 true)
    by (unfold wt_page; rewrite Hfor; reflexivity).
  destruct (oldest_by_some mt_date (mt_of_character c (db r1))) as (x & Hx).
  { destruct (rows sheet) as [|t0 ts0] eqn:Hrows; [contradiction|].
    destruct (Hrows1 t0 (or_introl eq_refl) (Hnew t0 (or_introl eq_refl))) as (e & Hin & Heq).
    assert (Hchar : mt_character e = char_id c)
      by (apply (f_equal mt_character) in Heq; destruct e; exact Heq).
    intros Hnil. assert (He : In e (mt_of_character c (db r1))).
    { apply filter_In. split; [exact Hin | now apply Z.eqb_eq]. }
    rewrite Hnil in He. destruct He. }
  exists r1, x. split; [exact Hpage|]. split; [exact Hx|].
  unfold wt_iteration. rewrite Hpage. unfold wt_oldest_id. rewrite Hx.
  destruct (rows sheet) as [|t0 ts0]; [contradiction|]. cbn [option_map].
  rewrite Hc. split.
  - destruct (WalletTransactions E _ auth rowCount _) as [[]|sheet'];
      simpl; rewrite Hc; eexists; reflexivity.
  - intros sheet' ->. reflexivity.
Qed.

End WalletTransactionsWalker.

(** ** The wallet journal walker *)

Section WalletJournalWalker.
Import Tasks Inv.
Context (E : Env).

Lemma only_je_refl s : only_journal_entries s s.
Proof. destruct s; reflexivity. Qed.

Lemma only_je_trans s1 s2 s3 :
  only_journal_entries s1 s2 -> only_journal_entries s2 s3 -> only_journal_entries s1 s3.
Proof. unfold only_journal_entries. intros <- <-. destruct s1; reflexivity. Qed.

Lemma only_je_with v s : only_journal_entries s (with_journal_entries v s).
Proof. destruct s; reflexivity. Qed.

Lemma only_je_timers s s' : only_journal_entries s s' -> api_timers s' = api_timers s.
Proof. intros <-. reflexivity. Qed.

Lemma wj_delete_loop_state t0 ds : forall r,
  (forall d, In d ds -> fold_right Z.max 0 (map je_id t0) < je_id d) ->
  grown je_id t0 (journal_entries (db r)) ->
  let r' := fold_left
    (fun r duplicate =>
       with_db (with_journal_entries
                  (delete_row je_id duplicate (journal_entries (db r))) (db r))
               (logged (WarnDuplicateJournalEntry (je_id duplicate) (je_ref_id duplicate)) r))
    ds r in
  calls r' = calls r /\ only_journal_entries (db r) (db r') /\
  grown je_id t0 (journal_entries (db r')).
Proof.
  induction ds as [|d ds IH]; intros r Hds Hg; simpl.
  - split; [reflexivity|]. split; [apply only_je_refl | exact Hg].
  - match goal with |- context [fold_left _ ds ?r1] => specialize (IH r1) end.
    destruct IH as (Hc & Hf & Hg').
    + intros x Hx. apply Hds. simpl; auto.
    + simpl. apply grown_delete; [exact Hg | apply Hds; simpl; auto].
    + split; [exact Hc|]. split; [|exact Hg'].
      eapply only_je_trans; [|exact Hf]. apply only_je_with.
Qed.

(** The handler deletes rows saved by the current page only: a row that
    was stored when the page started carries a known reference id. *)
Lemma wj_remove_duplicates_state c t r t0 ex :
  grown je_id t0 (journal_entries (db r)) ->
  (forall x, In x t0 -> je_character x = char_id c -> In (je_ref_id x) ex) ->
  is_in (refID t) ex = false ->
  calls (wj_remove_duplicates c t r) = calls r /\
  only_journal_entries (db r) (db (wj_remove_duplicates c t r)) /\
  grown je_id t0 (journal_entries (db (wj_remove_duplicates c t r))).
Proof.
  intros Hg Hex Hno. unfold wj_remove_duplicates. apply wj_delete_loop_state; [|exact Hg].
  intros d Hd.
  assert (Hd' : In d (wj_duplicates c t (db r))).
  { destruct (wj_duplicates c t (db r)); [destruct Hd | simpl in *; auto]. }
  apply filter_In in Hd'. destruct Hd' as [Hin HQ].
  apply andb_true_iff in HQ. destruct HQ as [Href Hchar].
  apply Z.eqb_eq in Href, Hchar.
  apply (grown_new_row je_id t0 (journal_entries (db r))); auto.
  intros Hin0. specialize (Hex d Hin0 Hchar). rewrite Href in Hex.
  apply is_in_true in Hex. congruence.
Qed.

Lemma wj_for_state c ex t0 ts : forall r w,
  grown je_id t0 (journal_entries (db r)) ->
  (forall x, In x t0 -> je_character x = char_id c -> In (je_ref_id x) ex) ->
  calls (result_run (wj_for E c ex ts r w)) = calls r /\
  only_journal_entries (db r) (db (result_run (wj_for E c ex ts r w))) /\
  grown je_id t0 (journal_entries (db (result_run (wj_for E c ex ts r w)))).
Proof.
  induction ts as [|t ts IH]; intros r w Hg Hex; simpl.
  - split; [reflexivity|]. split; [apply only_je_refl | exact Hg].
  - destruct (is_in (refID t) ex) eqn:Hin; [now apply IH|].
    destruct (utcfromtimestamp_raises (jr_date t)) as [e|];
      [simpl; split; [reflexivity|]; split; [apply only_je_refl | exact Hg]|].
    destruct (save_raises_je E (db r) (new_journal_entry E c t)) as [e|].
    + destruct e; simpl;
        try (split; [reflexivity|]; split; [apply only_je_refl | exact Hg]).
      destruct (wj_remove_duplicates_state c t r t0 ex Hg Hex Hin) as (Hc & Hf & Hg').
      destruct (IH (wj_remove_duplicates c t r) w Hg' Hex) as (Hc2 & Hf2 & Hg2).
      split; [congruence|]. split; [eapply only_je_trans; eauto | exact Hg2].
    + set (r1 := with_db (insert_journal_entry (new_journal_entry E c t) (db r)) r).
      assert (Hg1 : grown je_id t0 (journal_entries (db r1))).
      { eapply grown_trans; [exact Hg|]. simpl.
        apply grown_insert; [apply grown_refl | reflexivity]. }
      destruct (IH r1 w Hg1 Hex) as (Hc & Hf & Hg').
      split; [exact Hc|]. split; [|exact Hg'].
      eapply only_je_trans; [|exact Hf]. apply only_je_with.
Qed.

Lemma wj_for_walking c ex ts : forall r w r' w',
  wj_for E c ex ts r w = Finished r' w' ->
  w' = w && negb (existsb (fun t => is_in (refID t) ex) ts).
Proof.
  induction ts as [|t ts IH]; intros r w r' w'; simpl.
  - intros [= <- <-]. now rewrite andb_true_r.
  - destruct (is_in (refID t) ex); simpl.
    + intros H. apply IH in H. rewrite H. simpl. now rewrite andb_false_r.
    + destruct (utcfromtimestamp_raises (jr_date t)); [discriminate|].
      destruct (save_raises_je E (db r) (new_journal_entry E c t)) as [e|].
      * destruct e; try discriminate. apply IH.
      * apply IH.
Qed.

Lemma wj_page_state c ts r :
  calls (result_run (wj_page E c ts r)) = calls r /\
  only_journal_entries (db r) (db (result_run (wj_page E c ts r))) /\
  grown je_id (journal_entries (db r))
        (journal_entries (db (result_run (wj_page E c ts r)))).
Proof.
  unfold wj_page. apply wj_for_state; [apply grown_refl|].
  intros x Hx Hchar. unfold wj_existing_entries, je_of_character.
  apply in_map, filter_In. split; [exact Hx | now apply Z.eqb_eq].
Qed.

Lemma wj_loop_inv_page c s0 ts r :
  wj_loop_inv c s0 r -> wj_loop_inv c s0 (result_run (wj_page E c ts r)).
Proof.
  intros (Hf & Hw & Hm & Hi).
  destruct (wj_page_state c ts r) as (Hc & Hf' & Hg).
  apply grown_incl in Hg. split; [|split; [|split]].
  - eapply only_je_trans; eauto.
  - eapply walk_calls_step; eauto.
  - eapply calls_monotone_step; eauto.
  - eapply incl_tran; eauto.
Qed.

Lemma wj_loop_inv_called c s0 r oldest_id answer :
  wj_loop_inv c s0 r -> wj_oldest_id c (db r) = Some oldest_id ->
  wj_loop_inv c s0 (called (Some oldest_id) answer r).
Proof.
  intros (Hf & Hw & Hm & Hi) Hold. unfold wj_oldest_id, je_of_character in Hold.
  destruct (oldest_by je_date _) as [e|] eqn:He; [|discriminate].
  injection Hold as <-.
  split; [exact Hf|]. split; [|split; [|exact Hi]].
  - now apply walk_calls_called.
  - now apply calls_monotone_called.
Qed.

Lemma wj_iteration_inv auth c s0 sheet r :
  wj_loop_inv c s0 r -> last_answer r (cachedUntil sheet) ->
  match wj_iteration E auth c sheet r with
  | Continue r' sheet' =>
      wj_loop_inv c s0 r' /\ last_answer r' (cachedUntil sheet')
  | Break r' sheet' =>
      wj_loop_inv c s0 r' /\ failed_fetch_keeps_db r' /\
      last_cachedUntil (calls r') = Some (cachedUntil sheet')
  | Abort e r' => wj_loop_inv c s0 r' /\ failed_fetch_keeps_db r'
  end.
Proof.
  intros Hinv Hlast. unfold wj_iteration.
  destruct (rows sheet) as [|t0 ts0] eqn:Hrows.
  { split; [exact Hinv|]. split; [eapply last_answer_keeps_db; eauto|].
    now apply last_answer_cachedUntil. }
  rewrite <- Hrows. clear Hrows t0 ts0.
  pose proof (wj_loop_inv_page c s0 (rows sheet) r Hinv) as Hinv1.
  destruct (wj_page_state c (rows sheet) r) as (Hc1 & _ & _).
  assert (Hlast1 : last_answer (result_run (wj_page E c (rows sheet) r)) (cachedUntil sheet)).
  { destruct Hlast as (cs & c0 & Hcs & Hc0). exists cs, c0. now rewrite Hc1. }
  destruct (wj_page E c (rows sheet) r) as [r1 w1|e t r1 w1]; simpl in *.
  2:{ split; [exact Hinv1 | eapply last_answer_keeps_db; eauto]. }
  destruct w1.
  2:{ split; [exact Hinv1|]. split; [eapply last_answer_keeps_db; eauto|].
      now apply last_answer_cachedUntil. }
  destruct (wj_oldest_id c (db r1)) as [oldest_id|] eqn:Hold.
  2:{ split; [exact Hinv1 | eapply last_answer_keeps_db; eauto]. }
  pose proof (fun answer => wj_loop_inv_called c s0 r1 oldest_id answer Hinv1 Hold) as Hcalled.
  destruct (WalletJournal E (List.length (calls r1)) auth rowCount (Some oldest_id))
    as [e|sheet'].
  - split; [apply Hcalled | apply called_keeps_db].
  - split; [apply Hcalled | apply called_last_answer].
Qed.

Lemma wj_while_inv c s0 auth fuel : forall sheet r o r' sheet',
  wj_while E fuel auth c sheet r = (o, r', sheet') ->
  wj_loop_inv c s0 r -> last_answer r (cachedUntil sheet) ->
  wj_loop_inv c s0 r' /\ failed_fetch_keeps_db r' /\
  (o = Completed -> last_cachedUntil (calls r') = Some (cachedUntil sheet')).
Proof.
  induction fuel as [|fuel IH]; intros sheet r o r' sheet' Hrun Hinv Hlast; simpl in Hrun.
  - injection Hrun as <- <- <-. split; [exact Hinv|].
    split; [eapply last_answer_keeps_db; eauto | discriminate].
  - pose proof (wj_iteration_inv auth c s0 sheet r Hinv Hlast) as Hit.
    destruct (wj_iteration E auth c sheet r) as [r1 sheet1|r1 sheet1|e r1] eqn:Hiter.
    + destruct Hit as (Hinv1 & Hlast1). exact (IH _ _ _ _ _ Hrun Hinv1 Hlast1).
    + injection Hrun as <- <- <-. destruct Hit as (H1 & H2 & H3).
      split; [exact H1|]. split; [exact H2 | intros _; exact H3].
    + injection Hrun as <- <- <-. destruct Hit as (H1 & H2).
      split; [exact H1|]. split; [exact H2 | discriminate].
Qed.

Lemma wj_run_post fuel character_id s o r' :
  ProcessWalletJournalCharacter_run E fuel character_id s = (o, r') ->
  wj_run_ok character_id s o r'.
Proof.
  unfold ProcessWalletJournalCharacter_run.
  assert (Hone : forall a (c : Character),
             walk_calls journal_entries je_character je_date je_ref_id c
                        (called None a (mkRun s [] []))).
  { intros a c. exists (mkCall None s a), []. simpl. repeat split; auto. }
  assert (Hmono1 : forall a, calls_monotone journal_entries (called None a (mkRun s [] []))).
  { intros a. apply calls_monotone_called. intros c []. }
  assert (Hnocall : forall o0, o0 <> Completed -> wj_run_ok character_id s o0 (mkRun s [] [])).
  { intros o0 Hne. split; [split; [reflexivity | contradiction]|].
    split; [intros c []|]. split; [left; reflexivity|].
    intros e _ cs c0 Hcs. destruct cs; discriminate. }
  destruct (get_character character_id s) as [e|c] eqn:Hchar.
  { intros [= <- <-]. apply Hnocall. discriminate. }
  destruct (get_valid_apikey c s) as [e|apikey].
  { destruct e; intros [= <- <-]; apply Hnocall; discriminate. }
  destruct (WalletJournal E 0 (authenticate apikey c) rowCount None) as [e|sheet].
  { assert (Hraise : wj_run_ok character_id s (Raised e) (called None None (mkRun s [] []))).
    { split; [split; [reflexivity | discriminate]|]. split; [apply Hmono1|].
      split; [right; exists c; split; [exact Hchar | apply Hone]|].
      intros _ _; apply called_keeps_db. }
    destruct e; try (intros [= <- <-]; exact Hraise).
    intros [= <- <-]. split; [split; [reflexivity | discriminate]|]. split.
    - intros c0 [<-|[]]. simpl. apply incl_refl.
    - split; [right; exists c; split; [exact Hchar | apply Hone]|].
      discriminate. }
  set (r0 := called None (Some (cachedUntil sheet)) (mkRun s [] [])).
  assert (Hinv0 : wj_loop_inv c s r0).
  { split; [apply only_je_refl|]. split; [apply Hone|]. split; [apply Hmono1 | apply incl_refl]. }
  assert (Hlast0 : last_answer r0 (cachedUntil sheet)) by apply called_last_answer.
  destruct (wj_while E fuel (authenticate apikey c) c sheet r0) as [[o1 r1] sheet1] eqn:Hwhile.
  destruct (wj_while_inv c s _ _ _ _ _ _ _ Hwhile Hinv0 Hlast0)
    as ((Hf & Hw & Hm & Hi) & Hkeep & Hcu).
  assert (Hstop : o1 <> Completed -> wj_run_ok character_id s o1 r1).
  { intros Hne. split; [split; [intros _; now apply only_je_timers | contradiction]|].
    split; [exact Hm|]. split; [right; exists c; auto|]. auto. }
  destruct o1; try (intros [= <- <-]; apply Hstop; discriminate).
  intros Hupd. destruct (update_timer_kept _ _ _ _ _ _ Hupd) as (Hc & _ & Hdb & Hsame & _).
  assert (Hmt : journal_entries (db r') = journal_entries (db r1))
    by (rewrite <- Hdb; reflexivity).
  split; [split|].
  - intros Hne. rewrite (Hsame Hne). now apply only_je_timers.
  - intros -> Hnd. exists c.
    destruct (update_timer_completed c "WalletJournal" (cachedUntil sheet1) r1 r')
      as (timer & Hget & Hnext); auto.
    + now rewrite (only_je_timers _ _ Hf).
    + exists timer. split; [exact Hchar|]. split; [exact Hget|].
      rewrite Hc, Hnext. now apply Hcu.
  - split; [eapply calls_monotone_step; eauto; rewrite Hmt; apply incl_refl|].
    split; [right; exists c; split; [exact Hchar | eapply walk_calls_step; eauto]|].
    intros e ->. rewrite Hsame by discriminate. exact Hkeep.
Qed.

Lemma wj_for_accepting c ex ts : forall r w,
  (forall t, In t ts -> utcfromtimestamp_raises (jr_date t) = None) ->
  (forall s t, In t ts -> save_raises_je E s (new_journal_entry E c t) = None) ->
  exists r',
    wj_for E c ex ts r w
    = Finished r' (w && negb (existsb (fun t => is_in (refID t) ex) ts)) /\
    incl (journal_entries (db r)) (journal_entries (db r')) /\
    forall t, In t ts -> is_in (refID t) ex = false ->
              exists e, In e (journal_entries (db r')) /\
                        je_with_id 0 e = new_journal_entry E c t.
Proof.
  induction ts as [|t ts IH]; intros r w Hconv Hacc; simpl.
  - exists r. rewrite andb_true_r. split; [reflexivity|]. split; [apply incl_refl|].
    intros t [].
  - assert (Hacc' : forall s t0, In t0 ts ->
              save_raises_je E s (new_journal_entry E c t0) = None)
      by (intros s t0 Ht0; apply Hacc; simpl; auto).
    assert (Hconv' : forall t0, In t0 ts -> utcfromtimestamp_raises (jr_date t0) = None)
      by (intros t0 Ht0; apply Hconv; simpl; auto).
    destruct (is_in (refID t) ex) eqn:Hin; simpl.
    + destruct (IH r false Hconv' Hacc') as (r' & Hfor & Hincl & Hrows).
      exists r'. rewrite andb_false_r. simpl in Hfor. split; [exact Hfor|].
      split; [exact Hincl|]. intros t0 [<-|Ht0] Hno; [congruence | now apply Hrows].
    + rewrite (Hconv t) by (simpl; auto). rewrite (Hacc (db r) t) by (simpl; auto).
      destruct (IH (with_db (insert_journal_entry (new_journal_entry E c t) (db r)) r)
                   w Hconv' Hacc') as (r' & Hfor & Hincl & Hrows).
      exists r'. split; [exact Hfor|]. split.
      * eapply incl_tran; [|exact Hincl]. simpl. apply incl_appl, incl_refl.
      * intros t0 [<-|Ht0] Hno; [|now apply Hrows].
        eexists. split; [apply Hincl; simpl; apply in_or_app; right; left; reflexivity|].
        reflexivity.
Qed.

Lemma wj_iteration_calls auth c sheet r :
  (List.length (calls r) <=
   List.length (calls (iter_run (wj_iteration E auth c sheet r))))%nat.
Proof.
  unfold wj_iteration.
  pose proof (wj_page_state c (rows sheet) r) as (Hc1 & _ & _).
  destruct (rows sheet); [simpl; lia|].
  destruct (wj_page E c _ r) as [r2 [|]|]; simpl in *; rewrite <- Hc1; try lia.
  destruct (wj_oldest_id c (db r2)); [|simpl; lia].
  destruct (WalletJournal E _ auth rowCount _) as [|];
    simpl; rewrite length_app; lia.
Qed.

Lemma wj_while_calls auth c fuel : forall sheet r,
  (List.length (calls r) <=
   List.length (calls (snd (fst (wj_while E fuel auth c sheet r)))))%nat.
Proof.
  induction fuel as [|fuel IH]; intros sheet r; simpl; [lia|].
  pose proof (wj_iteration_calls auth c sheet r) as Hlen.
  destruct (wj_iteration E auth c sheet r) as [r1 sheet1|r1 sheet1|e r1];
    simpl in *; try lia.
  specialize (IH sheet1 r1). lia.
Qed.

(** A pass of the loop over an empty page, or over a page with a known
    record, is the last one and makes no request. *)
Lemma wj_last_page_iteration auth c sheet r :
  wj_last_page c sheet r ->
  (exists r', wj_iteration E auth c sheet r = Break r' sheet /\ calls r' = calls r) \/
  (exists e r', wj_iteration E auth c sheet r = Abort e r' /\ calls r' = calls r).
Proof.
  intros Hlast. unfold wj_iteration.
  destruct (rows sheet) as [|t0 ts0] eqn:Hrows; [left; eauto|].
  destruct Hlast as [Hnil|Hknown]; [congruence|].
  rewrite <- Hrows in *. clear Hrows t0 ts0.
  pose proof (wj_page_state c (rows sheet) r) as (Hc & _ & _).
  unfold wj_page in *.
  destruct (wj_for E c (wj_existing_entries c (db r)) (rows sheet) r true)
    as [r1 w1|e t r1 w1] eqn:Hfor; simpl in Hc.
  - apply wj_for_walking in Hfor.
    rewrite (existsb_known _ _ Hknown) in Hfor. simpl in Hfor. subst w1. left. eauto.
  - right. eauto.
Qed.

Lemma wj_last_page_ends auth c fuel sheet r :
  wj_last_page c sheet r ->
  exists o r', wj_while E (S fuel) auth c sheet r = (o, r', sheet) /\
               o <> OutOfFuel /\ calls r' = calls r.
Proof.
  intros Hlast. simpl.
  destruct (wj_last_page_iteration auth c sheet r Hlast)
    as [(r' & -> & Hc)|(e & r' & -> & Hc)].
  - exists Completed, r'. split; [reflexivity|]. split; [discriminate | exact Hc].
  - exists (Raised e), r'. split; [reflexivity|]. split; [discriminate | exact Hc].
Qed.

Lemma wj_run_requests fuel character_id s c apikey :
  get_character character_id s = inr c -> get_valid_apikey c s = inr apikey ->
  calls (snd (ProcessWalletJournalCharacter_run E fuel character_id s)) <> [].
Proof.
  intros Hchar Hkey. unfold ProcessWalletJournalCharacter_run. rewrite Hchar, Hkey.
  destruct (WalletJournal E 0 (authenticate apikey c) rowCount None) as [e|sheet].
  { destruct e; simpl; discriminate. }
  pose proof (wj_while_calls (authenticate apikey c) c fuel sheet
                (called None (Some (cachedUntil sheet)) (mkRun s [] []))) as Hlen.
  destruct (wj_while E fuel _ c sheet _) as [[o1 r1] sheet1]. simpl in Hlen.
  assert (Hne : calls r1 <> []) by (intros H; rewrite H in Hlen; simpl in Hlen; lia).
  destruct o1; simpl; auto.
  destruct (update_timer c "WalletJournal" (cachedUntil sheet1) r1) as [o2 r2] eqn:Hupd.
  destruct (update_timer_kept _ _ _ _ _ _ Hupd) as (Hc & _). simpl. now rewrite Hc.
Qed.

Lemma wj_one_page_run fuel character_id s c apikey sheet :
  get_character character_id s = inr c -> get_valid_apikey c s = inr apikey ->
  WalletJournal E 0 (authenticate apikey c) rowCount None = inr sheet ->
  wj_last_page c sheet (mkRun s [] []) ->
  exists o r', ProcessWalletJournalCharacter_run E (S fuel) character_id s = (o, r') /\
               o <> OutOfFuel /\ List.length (calls r') = 1%nat.
Proof.
  intros Hchar Hkey Hsheet Hlast.
  unfold ProcessWalletJournalCharacter_run. rewrite Hchar, Hkey, Hsheet.
  destruct (wj_last_page_ends (authenticate apikey c) c fuel sheet
              (called None (Some (cachedUntil sheet)) (mkRun s [] [])) Hlast)
    as (o & r1 & -> & Hne & Hc).
  destruct o; try (eexists; eexists; split; [reflexivity|]; split;
                   [discriminate | now rewrite Hc]).
  - destruct (update_timer c "WalletJournal" (cachedUntil sheet) r1) as [o2 r2] eqn:Hupd.
    destruct (update_timer_kept _ _ _ _ _ _ Hupd) as (Hc2 & _ & _ & _ & Ho).
    exists o2, r2. split; [reflexivity|]. split; [|now rewrite Hc2, Hc].
    destruct Ho as [->|(e & ->)]; discriminate.
  - contradiction.
Qed.

Lemma wj_new_page_requests_next auth c sheet r :
  wj_new_page c sheet r ->
  (forall t, In t (rows sheet) -> utcfromtimestamp_raises (jr_date t) = None) ->
  (forall s t, In t (rows sheet) -> save_raises_je E s (new_journal_entry E c t) = None) ->
  List.length (calls (iter_run (wj_iteration E auth c sheet r))) = S (List.length (calls r)).
Proof.
  intros [Hne Hnew] Hconv Hacc. unfold wj_iteration.
  destruct (rows sheet) as [|t0 ts0] eqn:Hrows; [contradiction|].
  rewrite <- Hrows in *. unfold wj_page.
  destruct (wj_for_accepting c (wj_existing_entries c (db r)) (rows sheet) r true Hconv Hacc)
    as (r1 & Hfor & _ & Hrows1).
  pose proof (wj_page_state c (rows sheet) r) as (Hc & _). unfold wj_page in Hc.
  rewrite Hfor in *. simpl in Hc.
  rewrite (existsb_none _ _ Hnew). simpl.
  assert (Ht0 : In t0 (rows sheet)) by (rewrite Hrows; simpl; auto).
  destruct (Hrows1 t0 Ht0 (Hnew t0 Ht0)) as (e & Hin & Heq).
  assert (Hchar : je_character e = char_id c)
    by (apply (f_equal je_character) in Heq; destruct e; exact Heq).
  unfold wj_oldest_id.
  destruct (oldest_by_some je_date (je_of_character c (db r1))) as (x & ->).
  { intros Hnil. assert (Hx : In e (je_of_character c (db r1))).
    { apply filter_In. split; [exact Hin | now apply Z.eqb_eq]. }
    rewrite Hnil in Hx. destruct Hx. }
  simpl.
  destruct (WalletJournal E _ auth rowCount _) as [|];
    simpl; rewrite length_app, Hc; simpl; lia.
Qed.

(** The same for the journal: after a non-empty page without known
    records, whose dates convert and whose rows the database accepts, the
    next request is made with the reference id of the oldest entry stored
    for the character after the page. *)
Lemma wj_new_page_cursor auth c sheet r :
  wj_new_page c sheet r ->
  (forall t, In t (rows sheet) -> utcfromtimestamp_raises (jr_date t) = None) ->
  (forall s t, In t (rows sheet) -> save_raises_je E s (new_journal_entry E c t) = None) ->
  exists r1 oldest,
    wj_page E c (rows sheet) r = Finished r1 true /\
    oldest_by je_date (je_of_character c (db r1)) = Some oldest /\
    (exists answer,
       calls (iter_run (wj_iteration E auth c sheet r))
       = calls r ++ [mkCall (Some (je_ref_id oldest)) (db r1) answer]) /\
    forall sheet',
      WalletJournal E (List.length (calls r)) auth rowCount (Some (je_ref_id oldest))
      = inr sheet' ->
      wj_iteration E auth c sheet r
      = Continue (called (Some (je_ref_id oldest)) (Some (cachedUntil sheet')) r1) sheet'.
Proof.
  intros [Hne Hnew] Hconv Hacc.
  destruct (wj_for_accepting c (wj_existing_entries c (db r)) (rows sheet) r true Hconv Hacc)
    as (r1 & Hfor & _ & Hrows1).
  pose proof (wj_page_state c (rows sheet) r) as (Hc & _). unfold wj_page in Hc.
  rewrite Hfor in Hc. simpl in Hc.
  rewrite (existsb_none _ _ Hnew) in Hfor. simpl in Hfor.
  assert (Hpage : wj_page E c (rows sheet) r = Finished r1 true) by exact Hfor.
  destruct (oldest_by_some je_date (je_of_character c (db r1))) as (x & Hx).
  { destruct (rows sheet) as [|t0 ts0] eqn:Hrows; [contradiction|].
    destruct (Hrows1 t0 (or_introl eq_refl) (Hnew t0 (or_introl eq_refl))) as (e & Hin & Heq).
    assert (Hchar : je_character e = char_id c)
      by (apply (f_equal je_character) in Heq; destruct e; exact Heq).
    intros Hnil. assert (He : In e (je_of_character c (db r1))).
    { apply filter_In. split; [exact Hin | now apply Z.eqb_eq]. }
    rewrite Hnil in He. destruct He. }
  exists r1, x. split; [exact Hpage|]. split; [exact Hx|].
  unfold wj_iteration. rewrite Hpage. unfold wj_oldest_id. rewrite Hx.
  destruct (rows sheet) as [|t0 ts0]; [contradiction|]. cbn [option_map].
  rewrite Hc. split.
  - destruct (WalletJournal E _ auth rowCount _) as [|sheet'];
      simpl; rewrite Hc; eexists; reflexivity.
  - intros sheet' ->. reflexivity.
Qed.

End WalletJournalWalker.

(** ** The tasks that fetch a single sheet *)

Section SingleSheetTasks.
Import Tasks Inv.
Context (E : Env).

Lemma mo_market_order_state c order r :
  calls (state_of (mo_market_order E c order r)) = calls r /\
  api_timers (db (state_of (mo_market_order E c order r))) = api_timers (db r).
Proof.
  unfold mo_market_order, mo_create_market_order.
  destruct (objects_get _ _) as [e|m].
  - destruct e; simpl; auto.
    destruct (save_raises_mo E (db r) _); simpl; auto.
  - destruct (save_raises_mo E (db r) _) as [e|]; simpl; auto.
    destruct e; simpl; auto.
    destruct (save_raises_mo E (db r) _); simpl; auto.
Qed.

Lemma mo_order_state order r :
  match mo_order E order r with
  | inl (_, r') => calls r' = calls r /\ api_timers (db r') = api_timers (db r)
  | inr (_, r') => calls r' = calls r /\ api_timers (db r') = api_timers (db r)
  end.
Proof.
  assert (Hcreate : match mo_create_order E order r with
                    | inl (_, r') | inr (_, r') =>
                        calls r' = calls r /\ api_timers (db r') = api_timers (db r)
                    end).
  { unfold mo_create_order.
    destruct (objects_get _ (stations (db r))) as [e|station]; simpl; auto.
    destruct (utcfromtimestamp_raises (issued order)); simpl; auto.
    destruct (save_raises_ord E (db r) _) as [e|]; simpl; auto.
    destruct e; simpl; auto. }
  unfold mo_order.
  destruct (objects_get _ (orders (db r))) as [e|db_order].
  - destruct e; simpl; auto.
  - destruct (save_raises_ord E (db r) _) as [e|]; simpl; auto.
    destruct e; simpl; auto.
Qed.

(** The loop over the orders makes no request and leaves the timers. *)
Lemma mo_for_state c order_rows : forall r,
  calls (state_of (mo_for E c order_rows r)) = calls r /\
  api_timers (db (state_of (mo_for E c order_rows r))) = api_timers (db r).
Proof.
  induction order_rows as [|order rest IH]; intros r; simpl; [auto|].
  pose proof (mo_order_state order r) as Hord.
  destruct (mo_order E order r) as [[e r1]|[[|] r1]]; simpl; auto.
  - pose proof (mo_market_order_state c order r1) as [Hc Ht].
    destruct Hord as [Hc1 Ht1].
    destruct (mo_market_order E c order r1) as [[e r2]|r2]; simpl in *.
    + split; congruence.
    + destruct (IH r2) as [Hc' Ht']. split; congruence.
  - destruct Hord as [Hc1 Ht1]. destruct (IH r1) as [Hc' Ht']. split; congruence.
Qed.

(** The loop over the research jobs: it only appends to the research
    table, one row per job, in order. *)
Lemma rs_for_state c jobs : forall r,
  calls (state_of (rs_for E c jobs r)) = calls r /\
  api_timers (db (state_of (rs_for E c jobs r))) = api_timers (db r).
Proof.
  induction jobs as [|job rest IH]; intros r; simpl; [auto|].
  destruct (utcfromtimestamp_raises (researchStartDate job)); simpl; auto.
  destruct (save_raises_rs E (db r) (new_research c job)); simpl; auto.
  destruct (IH (with_db (insert_research (new_research c job) (db r)) r)) as [Hc Ht].
  split; [exact Hc|]. rewrite Ht. reflexivity.
Qed.

Lemma rs_for_rows c jobs : forall r r',
  rs_for E c jobs r = inr r' ->
  exists added,
    research (db r') = research (db r) ++ added /\
    map (rs_with_id 0) added = map (new_research c) jobs /\
    Forall (fun a => rs_character a = char_id c) added.
Proof.
  induction jobs as [|job rest IH]; intros r r'; simpl.
  - intros [= <-]. exists []. rewrite app_nil_r. auto.
  - destruct (utcfromtimestamp_raises (researchStartDate job)); [discriminate|].
    destruct (save_raises_rs E (db r) (new_research c job)); [discriminate|].
    intros H. apply IH in H. destruct H as (added & Heq & Hmap & Hall). simpl in Heq.
    exists (rs_with_id (next_id rs_id (research (db r))) (new_research c job) :: added).
    split; [|split].
    + rewrite Heq. destruct (db r); simpl. now rewrite <- app_assoc.
    + simpl. now rewrite Hmap.
    + constructor; [reflexivity | exact Hall].
Qed.

Lemma single_run_start apisheet character_id s o :
  o <> Completed -> single_run_ok apisheet character_id s o (mkRun s [] []).
Proof.
  intros Hne. split; [split; [reflexivity | contradiction] | left; reflexivity].
Qed.

Lemma single_run_failed apisheet character_id s o ks :
  o <> Completed ->
  single_run_ok apisheet character_id s o
                (with_db (with_apikeys ks s) (called None None (mkRun s [] []))).
Proof.
  intros Hne. split; [split; [reflexivity | contradiction]|].
  right. eexists. split; reflexivity.
Qed.

(** After the loop of a single-sheet task: one request was made, the
    timers are still those of [s]; then the timer is updated. *)
Lemma single_run_finish apisheet character_id s c cu r1 o r' :
  get_character character_id s = inr c ->
  calls r1 = [mkCall None s (Some cu)] -> api_timers (db r1) = api_timers s ->
  update_timer c apisheet cu r1 = (o, r') ->
  single_run_ok apisheet character_id s o r'.
Proof.
  intros Hchar Hcalls Htimers Hupd.
  destruct (update_timer_kept _ _ _ _ _ _ Hupd) as (Hc & _ & _ & Hsame & _).
  split; [split|].
  - intros Hne. now rewrite (Hsame Hne).
  - intros -> Hnd. exists c.
    destruct (update_timer_completed c apisheet cu r1 r') as (timer & Hget & Hnext); auto.
    + now rewrite Htimers.
    + exists timer. split; [exact Hchar|]. split; [exact Hget|].
      rewrite Hc, Hcalls, Hnext. reflexivity.
  - right. rewrite Hc, Hcalls. eexists. split; reflexivity.
Qed.

Lemma single_run_raised apisheet character_id s e r1 cu :
  calls r1 = [mkCall None s (Some cu)] -> api_timers (db r1) = api_timers s ->
  single_run_ok apisheet character_id s (Raised e) r1.
Proof.
  intros Hcalls Htimers. split; [split; [intros _; exact Htimers | discriminate]|].
  right. rewrite Hcalls. eexists. split; reflexivity.
Qed.

Lemma mo_run_post character_id s o r' :
  ProcessMarketOrdersCharacter_run E character_id s = (o, r') ->
  single_run_ok "MarketOrders" character_id s o r'.
Proof.
  unfold ProcessMarketOrdersCharacter_run.
  destruct (get_character character_id s) as [e|c] eqn:Hchar.
  { intros [= <- <-]. now apply single_run_start. }
  destruct (get_valid_apikey c s) as [e|apikey].
  { destruct e; intros [= <- <-]; now apply single_run_start. }
  destruct (MarketOrders E (authenticate apikey c)) as [e|sheet].
  { destruct e; intros [= <- <-];
      try (now apply single_run_failed);
      (split; [split; [reflexivity | discriminate]|]; right; eexists; split; reflexivity). }
  pose proof (mo_for_state c (rows sheet)
                (called None (Some (cachedUntil sheet)) (mkRun s [] []))) as [Hc Ht].
  destruct (mo_for E c (rows sheet) _) as [[e r1]|r1]; simpl in Hc, Ht.
  - intros [= <- <-]. now apply (single_run_raised _ _ _ _ _ (cachedUntil sheet)).
  - now apply single_run_finish.
Qed.

Lemma rs_run_post character_id s o r' :
  ProcessResearchCharacter_run E character_id s = (o, r') ->
  single_run_ok "Research" character_id s o r'.
Proof.
  unfold ProcessResearchCharacter_run.
  destruct (get_character character_id s) as [e|c] eqn:Hchar.
  { intros [= <- <-]. now apply single_run_start. }
  destruct (get_valid_apikey c s) as [e|apikey].
  { destruct e; intros [= <- <-]; now apply single_run_start. }
  destruct (ResearchSheet E (authenticate apikey c)) as [e|sheet].
  { destruct e; intros [= <- <-];
      try (now apply single_run_failed);
      (split; [split; [reflexivity | discriminate]|]; right; eexists; split; reflexivity). }
  pose proof (rs_for_state c (rows sheet)
                (with_db (delete_research_of c s)
                         (called None (Some (cachedUntil sheet)) (mkRun s [] [])))) as [Hc Ht].
  destruct (rs_for E c (rows sheet) _) as [[e r1]|r1]; simpl in Hc, Ht.
  - intros [= <- <-]. now apply (single_run_raised _ _ _ _ _ (cachedUntil sheet)).
  - now apply single_run_finish.
Qed.

Lemma filter_none {A} (P : A -> bool) l :
  (forall x, In x l -> P x = false) -> List.filter P l = [].
Proof.
  induction l as [|a l IH]; simpl; intros H; [reflexivity|].
  rewrite (H a) by auto. apply IH. auto.
Qed.

Lemma filter_all {A} (P : A -> bool) l :
  (forall x, In x l -> P x = true) -> List.filter P l = l.
Proof.
  induction l as [|a l IH]; simpl; intros H; [reflexivity|].
  rewrite (H a) by auto. f_equal. apply IH. auto.
Qed.

Lemma filter_filter_negb {A} (P : A -> bool) l :
  List.filter P (List.filter (fun x => negb (P x)) l) = [].
Proof.
  apply filter_none. intros x Hx. apply filter_In in Hx.
  destruct Hx as [_ Hx]. now apply negb_true_iff.
Qed.

Lemma filter_idem {A} (P : A -> bool) l :
  List.filter P (List.filter P l) = List.filter P l.
Proof. apply filter_all. intros x Hx. apply filter_In in Hx. tauto. Qed.

(** C9. A completed run of [ProcessResearchCharacter] leaves, as research
    rows of the character, exactly one row per job of the fetched sheet, in
    the order of the sheet and with the fields of the jobs (the primary
    keys aside, which the database assigns); the rows of other characters
    are those stored before.  Whatever was stored for the character before
    is gone: the sheet replaces it. *)
Theorem research_replaced_by_sheet character_id s c apikey sheet r' :
  get_character character_id s = inr c ->
  get_valid_apikey c s = inr apikey ->
  ResearchSheet E (authenticate apikey c) = inr sheet ->
  ProcessResearchCharacter_run E character_id s = (Completed, r') ->
  map (rs_with_id 0)
      (List.filter (fun e => rs_character e =? char_id c) (research (db r')))
  = map (new_research c) (rows sheet) /\
  List.filter (fun e => negb (rs_character e =? char_id c)) (research (db r'))
  = List.filter (fun e => negb (rs_character e =? char_id c)) (research s).
Proof.
  intros Hchar Hkey Hsheet. unfold ProcessResearchCharacter_run.
  rewrite Hchar, Hkey, Hsheet.
  destruct (rs_for E c (rows sheet) _) as [[e r1]|r1] eqn:Hfor; [discriminate|].
  intros Hupd. apply rs_for_rows in Hfor.
  destruct Hfor as (added & Heq & Hmap & Hall). simpl in Heq.
  destruct (update_timer_kept _ _ _ _ _ _ Hupd) as (_ & _ & Hdb & _).
  assert (Hrs : research (db r') = research (db r1)) by (rewrite <- Hdb; reflexivity).
  rewrite Hrs, Heq. rewrite Forall_forall in Hall.
  split.
  - rewrite List.filter_app, filter_filter_negb. simpl.
    rewrite filter_all; [exact Hmap|].
    intros x Hx. apply Z.eqb_eq. now apply Hall.
  - rewrite List.filter_app, filter_idem.
    rewrite (filter_none _ added); [now rewrite app_nil_r|].
    intros x Hx. apply negb_false_iff, Z.eqb_eq. now apply Hall.
Qed.

End SingleSheetTasks.

(** ** Timers, credentials, cursors and partial progress *)

Section RunProperties.
Import Tasks Inv TaskData WalkData.

Lemma task_timer_ok t E fuel character_id s o r' :
  run_task t E fuel character_id s = (o, r') ->
  timer_ok (apisheet_of t) character_id s o r'.
Proof.
  destruct t; simpl; intros Hrun.
  - exact (proj1 (wt_run_post E _ _ _ _ _ Hrun)).
  - exact (proj1 (wj_run_post E _ _ _ _ _ Hrun)).
  - exact (proj1 (mo_run_post E _ _ _ _ Hrun)).
  - exact (proj1 (rs_run_post E _ _ _ _ Hrun)).
Qed.

(** C3. After a run that completes, the timer row of the character and
    sheet holds the [cachedUntil] of the last sheet the run received; a run
    that does not complete (in particular one stopped by an error of the
    remote API) leaves the timer table as it was.  The primary keys of the
    timer table are assumed distinct. *)
Theorem timer_set_from_last_sheet t E fuel character_id s o r' :
  List.NoDup (map timer_id (api_timers s)) ->
  run_task t E fuel character_id s = (o, r') ->
  (o = Completed ->
   exists c timer,
     get_character character_id s = inr c /\
     get_timer c (apisheet_of t) (db r') = inr timer /\
     last_cachedUntil (calls r') = Some (timer_nextupdate timer)) /\
  (o <> Completed -> api_timers (db r') = api_timers s).
Proof.
  intros Hnd Hrun. destruct (task_timer_ok _ _ _ _ _ _ _ Hrun) as [Hsame Hdone].
  split; [intros Ho; now apply Hdone | exact Hsame].
Qed.

Lemma timers0_distinct : List.NoDup (map timer_id (api_timers db0)).
Proof. repeat constructor; simpl; intuition discriminate. Qed.

Lemma timer_set_from_last_sheet_witness :
  fst (run_task WalletTransactionsTask three_pages 5 1 db0) = Completed /\
  exists c timer,
    get_character 1 db0 = inr c /\
    get_timer c "WalletTransactions"
              (db (snd (run_task WalletTransactionsTask three_pages 5 1 db0))) = inr timer /\
    last_cachedUntil (calls (snd (run_task WalletTransactionsTask three_pages 5 1 db0)))
    = Some (timer_nextupdate timer).
Proof.
  split; [vm_compute; reflexivity|].
  apply (proj1 (timer_set_from_last_sheet WalletTransactionsTask three_pages 5 1 db0
                  (fst (run_task WalletTransactionsTask three_pages 5 1 db0))
                  (snd (run_task WalletTransactionsTask three_pages 5 1 db0))
                  timers0_distinct (surjective_pairing _))).
  vm_compute. reflexivity.
Defined.

(** C7. For a character none of whose keys is marked valid, a run of any
    of the tasks returns at once (whatever the fuel), without an exception:
    the database is the one it started from, no remote request was made
    and nothing was logged. *)
Theorem no_valid_key_no_effect t E fuel character_id s c :
  get_character character_id s = inr c ->
  (forall k, In k (apikeys s) -> apikey_id k = char_apikey_id c ->
             apikey_is_valid k = false) ->
  run_task t E fuel character_id s = (NoValidKey, mkRun s [] []).
Proof.
  intros Hchar Hkeys.
  assert (Hkey : get_valid_apikey c s = inl DoesNotExist).
  { apply objects_get_none. intros k Hk.
    destruct (Z.eqb_spec (apikey_id k) (char_apikey_id c)) as [Heq|Hne]; [|reflexivity].
    simpl. now apply Hkeys. }
  destruct t; simpl;
    unfold ProcessWalletTransactionsCharacter_run, ProcessWalletJournalCharacter_run,
           ProcessMarketOrdersCharacter_run, ProcessResearchCharacter_run;
    rewrite Hchar, Hkey; reflexivity.
Qed.

Lemma no_valid_key_no_effect_witness :
  run_task WalletJournalTask three_pages 5 1 db_revoked
  = (NoValidKey, mkRun db_revoked [] []).
Proof.
  apply (no_valid_key_no_effect WalletJournalTask three_pages 5 1 db_revoked alice).
  - reflexivity.
  - intros k [<-|[]] _. reflexivity.
Defined.

Lemma task_calls t E fuel character_id s o r' :
  run_task t E fuel character_id s = (o, r') ->
  calls r' = [] \/
  exists c c0 cs, get_character character_id s = inr c /\
                  calls r' = c0 :: cs /\ call_fromID c0 = None /\
                  Forall (later_cursor t c) cs.
Proof.
  destruct t; simpl; intros Hrun.
  - destruct (wt_run_post E _ _ _ _ _ Hrun) as (_ & _ & [Hnil|(c & Hc & c0 & cs & H)] & _);
      [left; exact Hnil | right; exists c, c0, cs; tauto].
  - destruct (wj_run_post E _ _ _ _ _ Hrun) as (_ & _ & [Hnil|(c & Hc & c0 & cs & H)] & _);
      [left; exact Hnil | right; exists c, c0, cs; tauto].
  - pose proof (mo_run_post E _ _ _ _ Hrun) as (_ & [Hnil|(c0 & Hc0 & Hnone)]);
      [left; exact Hnil|]. right.
    unfold ProcessMarketOrdersCharacter_run in Hrun.
    destruct (get_character character_id s) as [e|c];
      [injection Hrun as _ <-; discriminate|].
    exists c, c0, []. auto.
  - pose proof (rs_run_post E _ _ _ _ Hrun) as (_ & [Hnil|(c0 & Hc0 & Hnone)]);
      [left; exact Hnil|]. right.
    unfold ProcessResearchCharacter_run in Hrun.
    destruct (get_character character_id s) as [e|c];
      [injection Hrun as _ <-; discriminate|].
    exists c, c0, []. auto.
Qed.

(** C8. The first page request of a run carries no cursor.  Every later
    request carries as cursor the reference id of a row that is stored for
    the character at the time of the request and that no other stored row
    of the character predates.  And such a request is made, by either
    walker: after a non-empty page without known records (dates that
    convert, rows that the database accepts) the walker reads the oldest
    row stored for the character after the page, sends the next request
    with the reference id of that row, and goes on with the answer to that
    request; the previous answer of the API plays no part. *)
Theorem cursor_recomputed_from_storage E :
  (forall t fuel character_id s o r' c0 cs,
      run_task t E fuel character_id s = (o, r') ->
      calls r' = c0 :: cs ->
      call_fromID c0 = None /\
      exists c, get_character character_id s = inr c /\ Forall (later_cursor t c) cs) /\
  (forall auth c sheet r,
      wt_new_page c sheet r ->
      (forall t, In t (rows sheet) ->
                 utcfromtimestamp_raises (transactionDateTime t) = None) ->
      (forall s t, In t (rows sheet) ->
                   save_raises_mt E s (new_market_transaction c t) = None) ->
      exists r1 oldest,
        wt_page E c (rows sheet) r = Finished r1 true /\
        oldest_by mt_date (mt_of_character c (db r1)) = Some oldest /\
        (exists answer,
           calls (iter_run (wt_iteration E auth c sheet r))
           = calls r ++ [mkCall (Some (mt_journal_transaction_id oldest)) (db r1) answer]) /\
        forall sheet',
          WalletTransactions E (List.length (calls r)) auth rowCount
                             (Some (mt_journal_transaction_id oldest)) = inr sheet' ->
          wt_iteration E auth c sheet r
          = Continue (called (Some (mt_journal_transaction_id oldest))
                             (Some (cachedUntil sheet')) r1) sheet') /\
  (forall auth c sheet r,
      wj_new_page c sheet r ->
      (forall t, In t (rows sheet) -> utcfromtimestamp_raises (jr_date t) = None) ->
      (forall s t, In t (rows sheet) ->
                   save_raises_je E s (new_journal_entry E c t) = None) ->
      exists r1 oldest,
        wj_page E c (rows sheet) r = Finished r1 true /\
        oldest_by je_date (je_of_character c (db r1)) = Some oldest /\
        (exists answer,
           calls (iter_run (wj_iteration E auth c sheet r))
           = calls r ++ [mkCall (Some (je_ref_id oldest)) (db r1) answer]) /\
        forall sheet',
          WalletJournal E (List.length (calls r)) auth rowCount (Some (je_ref_id oldest))
          = inr sheet' ->
          wj_iteration E auth c sheet r
          = Continue (called (Some (je_ref_id oldest)) (Some (cachedUntil sheet')) r1)
                     sheet').
Proof.
  split; [|split].
  - intros t fuel character_id s o r' c0 cs Hrun Hcalls.
    destruct (task_calls _ _ _ _ _ _ _ Hrun)
      as [Hnil|(c & c1 & cs1 & Hc & Heq & Hnone & Hall)].
    + rewrite Hnil in Hcalls. discriminate.
    + rewrite Heq in Hcalls. injection Hcalls as <- <-. split; [exact Hnone|].
      exists c. auto.
  - intros auth c sheet r. apply wt_new_page_cursor.
  - intros auth c sheet r. apply wj_new_page_cursor.
Qed.

Lemma cursor_recomputed_from_storage_witness :
  (map call_fromID (calls (snd (run_task WalletTransactionsTask three_pages 5 1 db0)))
   = [None; Some 100; Some 98] /\
   map call_fromID (calls (snd (run_task WalletJournalTask three_journal_pages 5 1 db0)))
   = [None; Some 200; Some 198]) /\
  (exists c, get_character 1 db0 = inr c /\
     Forall (later_cursor WalletJournalTask c)
            (tl (calls (snd (run_task WalletJournalTask three_journal_pages 5 1 db0))))) /\
  (exists r1 oldest,
     wt_page three_pages alice [tx 102; tx 101] (mkRun db0 [mkCall None db0 (Some 7000)] [])
     = Finished r1 true /\
     oldest_by mt_date (mt_of_character alice (db r1)) = Some oldest /\
     (exists answer,
        calls (iter_run (wt_iteration three_pages (authenticate alice_key alice) alice
                           (mkSheet [tx 102; tx 101] 7000)
                           (mkRun db0 [mkCall None db0 (Some 7000)] [])))
        = [mkCall None db0 (Some 7000)]
          ++ [mkCall (Some (mt_journal_transaction_id oldest)) (db r1) answer]) /\
     forall sheet',
       WalletTransactions three_pages 1 (authenticate alice_key alice) rowCount
                          (Some (mt_journal_transaction_id oldest)) = inr sheet' ->
       wt_iteration three_pages (authenticate alice_key alice) alice
                    (mkSheet [tx 102; tx 101] 7000)
                    (mkRun db0 [mkCall None db0 (Some 7000)] [])
       = Continue (called (Some (mt_journal_transaction_id oldest))
                          (Some (cachedUntil sheet')) r1) sheet') /\
  (exists r1 oldest,
     wj_page three_journal_pages alice [jr 202 10; jr 201 10]
             (mkRun db0 [mkCall None db0 (Some 8000)] [])
     = Finished r1 true /\
     oldest_by je_date (je_of_character alice (db r1)) = Some oldest /\
     (exists answer,
        calls (iter_run (wj_iteration three_journal_pages (authenticate alice_key alice)
                           alice (mkSheet [jr 202 10; jr 201 10] 8000)
                           (mkRun db0 [mkCall None db0 (Some 8000)] [])))
        = [mkCall None db0 (Some 8000)]
          ++ [mkCall (Some (je_ref_id oldest)) (db r1) answer]) /\
     forall sheet',
       WalletJournal three_journal_pages 1 (authenticate alice_key alice) rowCount
                     (Some (je_ref_id oldest)) = inr sheet' ->
       wj_iteration three_journal_pages (authenticate alice_key alice) alice
                    (mkSheet [jr 202 10; jr 201 10] 8000)
                    (mkRun db0 [mkCall None db0 (Some 8000)] [])
       = Continue (called (Some (je_ref_id oldest)) (Some (cachedUntil sheet')) r1) sheet').
Proof.
  split; [split; vm_compute; reflexivity|]. split; [|split].
  - refine (proj2 (proj1 (cursor_recomputed_from_storage three_journal_pages)
                     WalletJournalTask 5%nat 1 db0
                     (fst (run_task WalletJournalTask three_journal_pages 5 1 db0))
                     (snd (run_task WalletJournalTask three_journal_pages 5 1 db0))
                     (mkCall None db0 (Some 8000))
                     (tl (calls (snd (run_task WalletJournalTask three_journal_pages 5 1 db0))))
                     (surjective_pairing _) _)).
    vm_compute. reflexivity.
  - refine (proj1 (proj2 (cursor_recomputed_from_storage three_pages))
                  (authenticate alice_key alice) alice (mkSheet [tx 102; tx 101] 7000)
                  (mkRun db0 [mkCall None db0 (Some 7000)] []) _ _ _).
    + split; [discriminate|]. intros t [<-|[<-|[]]]; reflexivity.
    + intros t [<-|[<-|[]]]; reflexivity.
    + intros s t _. reflexivity.
  - refine (proj2 (proj2 (cursor_recomputed_from_storage three_journal_pages))
                  (authenticate alice_key alice) alice (mkSheet [jr 202 10; jr 201 10] 8000)
                  (mkRun db0 [mkCall None db0 (Some 8000)] []) _ _ _).
    + split; [discriminate|]. intros t [<-|[<-|[]]]; reflexivity.
    + intros t [<-|[<-|[]]]; reflexivity.
    + intros s t _. reflexivity.
Defined.

Lemma task_calls_monotone t E fuel character_id s o r' c1 c2 cs :
  run_task t E fuel character_id s = (o, r') -> calls r' = c1 :: c2 :: cs ->
  forall c, In c (calls r') -> records_kept t (call_db c) (db r').
Proof.
  destruct t; simpl; intros Hrun Hcalls.
  - exact (proj1 (proj2 (wt_run_post E _ _ _ _ _ Hrun))).
  - exact (proj1 (proj2 (wj_run_post E _ _ _ _ _ Hrun))).
  - pose proof (mo_run_post E _ _ _ _ Hrun) as (_ & [Hnil|(c0 & Hc0 & _)]);
      rewrite Hcalls in *; discriminate.
  - pose proof (rs_run_post E _ _ _ _ Hrun) as (_ & [Hnil|(c0 & Hc0 & _)]);
      rewrite Hcalls in *; discriminate.
Qed.

Lemma task_failed_fetch t E fuel character_id s e r' c1 c2 cs :
  run_task t E fuel character_id s = (Raised e, r') -> calls r' = c1 :: c2 :: cs ->
  failed_fetch_keeps_db r'.
Proof.
  destruct t; simpl; intros Hrun Hcalls.
  - exact (proj2 (proj2 (proj2 (wt_run_post E _ _ _ _ _ Hrun))) e eq_refl).
  - exact (proj2 (proj2 (proj2 (wj_run_post E _ _ _ _ _ Hrun))) e eq_refl).
  - pose proof (mo_run_post E _ _ _ _ Hrun) as (_ & [Hnil|(c0 & Hc0 & _)]);
      rewrite Hcalls in *; discriminate.
  - pose proof (rs_run_post E _ _ _ _ Hrun) as (_ & [Hnil|(c0 & Hc0 & _)]);
      rewrite Hcalls in *; discriminate.
Qed.

(** C4. When a page request after the first one fails and the exception
    ends the run, the database is exactly as it was when the failing
    request was made, that is after the earlier pages had been reconciled;
    every row that was stored when an earlier request was made is still
    stored; and the timer table is as it was before the run. *)
Theorem partial_progress_kept t E fuel character_id s e r' cs c :
  run_task t E fuel character_id s = (Raised e, r') ->
  calls r' = cs ++ [c] -> cs <> [] -> call_cachedUntil c = None ->
  db r' = call_db c /\
  (forall c0, In c0 cs -> records_kept t (call_db c0) (db r')) /\
  api_timers (db r') = api_timers s.
Proof.
  intros Hrun Hcalls Hcs Hnone.
  assert (Htwo : exists c1 c2 cs', calls r' = c1 :: c2 :: cs').
  { rewrite Hcalls. destruct cs as [|c1 [|c2 cs']]; [contradiction| |]; simpl; eauto. }
  destruct Htwo as (c1 & c2 & cs' & Htwo).
  split; [|split].
  - exact (task_failed_fetch _ _ _ _ _ _ _ _ _ _ Hrun Htwo cs c Hcalls Hnone).
  - intros c0 Hc0. apply (task_calls_monotone _ _ _ _ _ _ _ _ _ _ Hrun Htwo).
    rewrite Hcalls. apply in_or_app. auto.
  - apply (proj1 (task_timer_ok _ _ _ _ _ _ _ Hrun)). discriminate.
Qed.

Lemma partial_progress_kept_witness :
  map mt_journal_transaction_id
      (market_transactions
         (db (snd (run_task WalletTransactionsTask second_page_fails 5 1 db0))))
  = [100; 102; 101] /\
  api_timers (db (snd (run_task WalletTransactionsTask second_page_fails 5 1 db0)))
  = api_timers db0.
Proof.
  split; [vm_compute; reflexivity|].
  refine (proj2 (proj2 (partial_progress_kept WalletTransactionsTask second_page_fails 5 1 db0
            TransportError (snd (run_task WalletTransactionsTask second_page_fails 5 1 db0))
            [mkCall None db0 (Some 7000)]
            (mkCall (Some 100)
                    (db (snd (run_task WalletTransactionsTask second_page_fails 5 1 db0)))
                    None) _ _ _ _))).
  - vm_compute. reflexivity.
  - vm_compute. reflexivity.
  - discriminate.
  - reflexivity.
Defined.

Lemma research_replaced_by_sheet_witness :
  map rs_agent_id
      (research (db (snd (ProcessResearchCharacter_run research_served 1 db_research))))
  = [3020; 3040; 3050] /\
  map (rs_with_id 0)
      (List.filter (fun e => rs_character e =? 1)
         (research (db (snd (ProcessResearchCharacter_run research_served 1 db_research)))))
  = map (new_research alice) (rows research_sheet).
Proof.
  split; [vm_compute; reflexivity|].
  refine (proj1 (research_replaced_by_sheet research_served 1 db_research alice alice_key
                   research_sheet
                   (snd (ProcessResearchCharacter_run research_served 1 db_research))
                   _ _ _ _)); vm_compute; reflexivity.
Defined.

End RunProperties.

(** ** Pages that contain known records *)

Section KnownRecords.
Import Tasks Inv TaskData WalkData.

Lemma new_transaction_row_fresh c t e s :
  mt_with_id 0 e = new_market_transaction c t ->
  is_in (journalTransactionID t) (wt_existing_entries c s) = false ->
  ~ In e (market_transactions s).
Proof.
  intros Heq Hno Hin.
  assert (Hc : mt_character e = char_id c)
    by (apply (f_equal mt_character) in Heq; destruct e; exact Heq).
  assert (Hj : mt_journal_transaction_id e = journalTransactionID t)
    by (apply (f_equal mt_journal_transaction_id) in Heq; destruct e; exact Heq).
  assert (is_in (journalTransactionID t) (wt_existing_entries c s) = true); [|congruence].
  apply is_in_true. rewrite <- Hj. unfold wt_existing_entries, mt_of_character.
  apply in_map, filter_In. split; [exact Hin | now apply Z.eqb_eq].
Qed.

Lemma new_journal_row_fresh E c t e s :
  je_with_id 0 e = new_journal_entry E c t ->
  is_in (refID t) (wj_existing_entries c s) = false ->
  ~ In e (journal_entries s).
Proof.
  intros Heq Hno Hin.
  assert (Hc : je_character e = char_id c)
    by (apply (f_equal je_character) in Heq; destruct e; exact Heq).
  assert (Hj : je_ref_id e = refID t)
    by (apply (f_equal je_ref_id) in Heq; destruct e; exact Heq).
  assert (is_in (refID t) (wj_existing_entries c s) = true); [|congruence].
  apply is_in_true. rewrite <- Hj. unfold wj_existing_entries, je_of_character.
  apply in_map, filter_In. split; [exact Hin | now apply Z.eqb_eq].
Qed.

(** C1 (amended). When a page holds a record whose remote id is already
    stored for the character, the walker ends the page with its
    continue-walking value false, but it does not stop processing the page
    at that record: every record of the page whose id was not stored when
    the page started gets a new row, also when it stands after a known
    record.  Stated for each wallet stream on its own, for pages whose
    dates convert and whose rows the database accepts. *)
Theorem known_record_ends_walk_not_page E c r :
  (forall tpage,
      (forall t, In t tpage -> utcfromtimestamp_raises (transactionDateTime t) = None) ->
      (forall s t, In t tpage -> save_raises_mt E s (new_market_transaction c t) = None) ->
      (exists k, In k tpage /\
                 is_in (journalTransactionID k) (wt_existing_entries c (db r)) = true) ->
      exists r',
        wt_page E c tpage r = Finished r' false /\
        forall t, In t tpage ->
                  is_in (journalTransactionID t) (wt_existing_entries c (db r)) = false ->
                  exists e, In e (market_transactions (db r')) /\
                            ~ In e (market_transactions (db r)) /\
                            mt_with_id 0 e = new_market_transaction c t) /\
  (forall jpage,
      (forall t, In t jpage -> utcfromtimestamp_raises (jr_date t) = None) ->
      (forall s t, In t jpage -> save_raises_je E s (new_journal_entry E c t) = None) ->
      (exists k, In k jpage /\ is_in (refID k) (wj_existing_entries c (db r)) = true) ->
      exists r',
        wj_page E c jpage r = Finished r' false /\
        forall t, In t jpage ->
                  is_in (refID t) (wj_existing_entries c (db r)) = false ->
                  exists e, In e (journal_entries (db r')) /\
                            ~ In e (journal_entries (db r)) /\
                            je_with_id 0 e = new_journal_entry E c t).
Proof.
  split.
  - intros tpage Htc Hta Htk.
    destruct (wt_for_accepting E c (wt_existing_entries c (db r)) tpage r true Htc Hta)
      as (r' & Hfor & _ & Hrows).
    rewrite (existsb_known _ _ Htk) in Hfor. simpl in Hfor.
    exists r'. unfold wt_page. rewrite Hfor. split; [reflexivity|].
    intros t Ht Hno. destruct (Hrows t Ht Hno) as (e & Hin & Heq).
    exists e. split; [exact Hin|]. split; [|exact Heq].
    eapply new_transaction_row_fresh; eauto.
  - intros jpage Hjc Hja Hjk.
    destruct (wj_for_accepting E c (wj_existing_entries c (db r)) jpage r true Hjc Hja)
      as (r' & Hfor & _ & Hrows).
    rewrite (existsb_known _ _ Hjk) in Hfor. simpl in Hfor.
    exists r'. unfold wj_page. split; [exact Hfor|].
    intros t Ht Hno. destruct (Hrows t Ht Hno) as (e & Hin & Heq).
    exists e. split; [exact Hin|]. split; [|exact Heq].
    eapply new_journal_row_fresh; eauto.
Qed.

Lemma known_record_ends_walk_not_page_witness :
  (exists r',
      wt_page quiet alice [tx 100; tx 101] (mkRun db0 [] []) = Finished r' false /\
      forall t, In t [tx 100; tx 101] ->
                is_in (journalTransactionID t) (wt_existing_entries alice db0) = false ->
                exists e, In e (market_transactions (db r')) /\
                          ~ In e (market_transactions db0) /\
                          mt_with_id 0 e = new_market_transaction alice t) /\
  (exists r',
      wj_page quiet alice [jr 200 10; jr 201 10] (mkRun db0 [] []) = Finished r' false /\
      forall t, In t [jr 200 10; jr 201 10] ->
                is_in (refID t) (wj_existing_entries alice db0) = false ->
                exists e, In e (journal_entries (db r')) /\
                          ~ In e (journal_entries db0) /\
                          je_with_id 0 e = new_journal_entry quiet alice t).
Proof.
  split.
  - refine (proj1 (known_record_ends_walk_not_page quiet alice (mkRun db0 [] []))
                  [tx 100; tx 101] _ _ _).
    + intros t [<-|[<-|[]]]; reflexivity.
    + reflexivity.
    + exists (tx 100). split; [left; reflexivity | reflexivity].
  - refine (proj2 (known_record_ends_walk_not_page quiet alice (mkRun db0 [] []))
                  [jr 200 10; jr 201 10] _ _ _).
    + intros t [<-|[<-|[]]]; reflexivity.
    + reflexivity.
    + exists (jr 200 10). split; [left; reflexivity | reflexivity].
Defined.

(** C1 as stated fails: transaction 100 is stored, the page lists 100 and
    then 101, and 101 is inserted although it stands after the known
    record. *)
Lemma record_after_known_one_is_inserted :
  wt_page quiet alice [tx 100; tx 101] (mkRun db0 [] [])
  = Finished (mkRun (with_market_transactions [stored_tx 1 100; stored_tx 2 101] db0) [] [])
             false /\
  ~ wt_page_stops_at_first_known quiet alice [tx 100; tx 101] (mkRun db0 [] []).
Proof.
  split; [vm_compute; reflexivity|]. intros Hstop.
  destruct (Hstop [] (tx 100) [tx 101] _ _ eq_refl (fun x (H : In x []) => match H with end)
                  eq_refl eq_refl) as [_ Hnone].
  specialize (Hnone (tx 101) (stored_tx 2 101) (or_introl eq_refl)
                    (or_intror (or_introl eq_refl)) eq_refl eq_refl).
  destruct Hnone as [Heq|[]]. discriminate Heq.
Qed.

(** C2 (amended). A walk requests the first page as soon as the
    credentials are resolved, so it fetches at least one page, also when
    nothing is new.  A pass of the loop over a page that is empty, or that
    contains an already-known record, ends the loop without a further
    request (for wallet transactions: as long as no save of that page
    raises [MultipleObjectsReturned]); a pass over a non-empty page without
    known records, whose dates convert and whose rows the database accepts,
    makes one more request.
    Hence a walk over a feed of N new records followed by known history, N
    smaller than the page size, terminates after exactly one page request,
    for N = 0 too; the number of pages is not [ceil (N / pageSize)] in
    general. *)
Theorem walk_ends_at_known_or_empty_page E c fuel :
  (forall auth sheet r,
      wt_last_page c sheet r ->
      (forall s t, In t (rows sheet) ->
         save_raises_mt E s (new_market_transaction c t) <> Some MultipleObjectsReturned) ->
      exists o r', wt_while E (S fuel) auth c sheet r = (o, r', sheet) /\
                   o <> OutOfFuel /\ calls r' = calls r) /\
  (forall auth sheet r,
      wj_last_page c sheet r ->
      exists o r', wj_while E (S fuel) auth c sheet r = (o, r', sheet) /\
                   o <> OutOfFuel /\ calls r' = calls r) /\
  (forall auth sheet r,
      wt_new_page c sheet r ->
      (forall t, In t (rows sheet) ->
         utcfromtimestamp_raises (transactionDateTime t) = None) ->
      (forall s t, In t (rows sheet) ->
         save_raises_mt E s (new_market_transaction c t) = None) ->
      List.length (calls (iter_run (wt_iteration E auth c sheet r)))
      = S (List.length (calls r))) /\
  (forall auth sheet r,
      wj_new_page c sheet r ->
      (forall t, In t (rows sheet) -> utcfromtimestamp_raises (jr_date t) = None) ->
      (forall s t, In t (rows sheet) ->
         save_raises_je E s (new_journal_entry E c t) = None) ->
      List.length (calls (iter_run (wj_iteration E auth c sheet r)))
      = S (List.length (calls r))) /\
  (forall n character_id s apikey,
      get_character character_id s = inr c -> get_valid_apikey c s = inr apikey ->
      calls (snd (ProcessWalletTransactionsCharacter_run E n character_id s)) <> [] /\
      calls (snd (ProcessWalletJournalCharacter_run E n character_id s)) <> []) /\
  (forall character_id s apikey feed n cached_until,
      get_character character_id s = inr c -> get_valid_apikey c s = inr apikey ->
      new_then_known journalTransactionID (wt_existing_entries c s) feed n ->
      (n < Z.to_nat rowCount)%nat ->
      WalletTransactions E 0 (authenticate apikey c) rowCount None
      = inr (mkSheet (firstn (Z.to_nat rowCount) feed) cached_until) ->
      (forall s' t, In t feed ->
         save_raises_mt E s' (new_market_transaction c t) <> Some MultipleObjectsReturned) ->
      exists o r',
        ProcessWalletTransactionsCharacter_run E (S fuel) character_id s = (o, r') /\
        o <> OutOfFuel /\ List.length (calls r') = 1%nat) /\
  (forall character_id s apikey feed n cached_until,
      get_character character_id s = inr c -> get_valid_apikey c s = inr apikey ->
      new_then_known refID (wj_existing_entries c s) feed n ->
      (n < Z.to_nat rowCount)%nat ->
      WalletJournal E 0 (authenticate apikey c) rowCount None
      = inr (mkSheet (firstn (Z.to_nat rowCount) feed) cached_until) ->
      exists o r',
        ProcessWalletJournalCharacter_run E (S fuel) character_id s = (o, r') /\
        o <> OutOfFuel /\ List.length (calls r') = 1%nat).
Proof.
  split; [|split; [|split; [|split; [|split; [|split]]]]].
  - intros auth sheet r. apply wt_last_page_ends.
  - intros auth sheet r. apply wj_last_page_ends.
  - intros auth sheet r. apply wt_new_page_requests_next.
  - intros auth sheet r. apply wj_new_page_requests_next.
  - intros n character_id s apikey Hchar Hkey. split.
    + eapply wt_run_requests; eauto.
    + eapply wj_run_requests; eauto.
  - intros character_id s apikey feed n cu Hchar Hkey Hfeed Hlt Hsheet Hnomult.
    eapply wt_one_page_run; eauto.
    + right. exact (first_page_has_known _ _ feed n _ Hfeed Hlt).
    + intros s' t Ht. apply Hnomult. exact (In_firstn _ _ _ Ht).
  - intros character_id s apikey feed n cu Hchar Hkey Hfeed Hlt Hsheet.
    eapply wj_one_page_run; eauto.
    right. exact (first_page_has_known _ _ feed n _ Hfeed Hlt).
Qed.

Lemma nothing_new_feed : new_then_known journalTransactionID
                                        (wt_existing_entries alice db0) [tx 100] 0.
Proof.
  exists [], [tx 100]. repeat split; try reflexivity; try discriminate; [intros t []|].
  intros t [<-|[]]. reflexivity.
Qed.

Lemma two_new_then_known :
  new_then_known journalTransactionID (wt_existing_entries alice db0)
                 [tx 102; tx 101; tx 100] 2.
Proof.
  exists [tx 102; tx 101], [tx 100].
  repeat split; try reflexivity; try discriminate.
  - intros t [<-|[<-|[]]]; reflexivity.
  - intros t [<-|[]]. reflexivity.
Qed.

Lemma one_new_then_known :
  new_then_known refID (wj_existing_entries alice db0) [jr 201 10; jr 200 10] 1.
Proof.
  exists [jr 201 10], [jr 200 10].
  repeat split; try reflexivity; try discriminate.
  - intros t [<-|[]]; reflexivity.
  - intros t [<-|[]]. reflexivity.
Qed.

Lemma walk_ends_at_known_or_empty_page_witness :
  (exists o r',
      ProcessWalletTransactionsCharacter_run two_new_transactions 1 1 db0 = (o, r') /\
      o <> OutOfFuel /\ List.length (calls r') = 1%nat) /\
  (exists o r',
      ProcessWalletJournalCharacter_run one_new_journal_record 1 1 db0 = (o, r') /\
      o <> OutOfFuel /\ List.length (calls r') = 1%nat) /\
  List.length (calls (iter_run (wt_iteration three_pages (authenticate alice_key alice) alice
                                  (mkSheet [tx 102; tx 101] 7000)
                                  (mkRun db0 [mkCall None db0 (Some 7000)] []))))
  = 2%nat /\
  List.length (calls (iter_run (wj_iteration three_journal_pages
                                  (authenticate alice_key alice) alice
                                  (mkSheet [jr 202 10; jr 201 10] 8000)
                                  (mkRun db0 [mkCall None db0 (Some 8000)] []))))
  = 2%nat.
Proof.
  split; [|split; [|split]].
  - refine (proj1 (proj2 (proj2 (proj2 (proj2 (proj2
              (walk_ends_at_known_or_empty_page two_new_transactions alice 0))))))
              1 db0 alice_key [tx 102; tx 101; tx 100] 2%nat 7000 _ _
              two_new_then_known _ _ _).
    + reflexivity.
    + reflexivity.
    + unfold rowCount. lia.
    + reflexivity.
    + discriminate.
  - refine (proj2 (proj2 (proj2 (proj2 (proj2 (proj2
              (walk_ends_at_known_or_empty_page one_new_journal_record alice 0))))))
              1 db0 alice_key [jr 201 10; jr 200 10] 1%nat 8000 _ _
              one_new_then_known _ _).
    + reflexivity.
    + reflexivity.
    + unfold rowCount. lia.
    + reflexivity.
  - refine (proj1 (proj2 (proj2 (walk_ends_at_known_or_empty_page three_pages alice 0)))
                  (authenticate alice_key alice) (mkSheet [tx 102; tx 101] 7000)
                  (mkRun db0 [mkCall None db0 (Some 7000)] []) _ _ _).
    + split; [discriminate|]. intros t [<-|[<-|[]]]; reflexivity.
    + intros t [<-|[<-|[]]]; reflexivity.
    + intros s t _. reflexivity.
  - refine (proj1 (proj2 (proj2 (proj2
              (walk_ends_at_known_or_empty_page three_journal_pages alice 0))))
                  (authenticate alice_key alice) (mkSheet [jr 202 10; jr 201 10] 8000)
                  (mkRun db0 [mkCall None db0 (Some 8000)] []) _ _ _).
    + split; [discriminate|]. intros t [<-|[<-|[]]]; reflexivity.
    + intros t [<-|[<-|[]]]; reflexivity.
    + intros s t _. reflexivity.
Defined.

(** C2 as stated fails for N = 0: the feed holds nothing but the stored
    transaction 100, and the walk still fetches one page, while
    [ceil (0 / 2560)] is 0. *)
Lemma walk_over_known_history_fetches_a_page :
  new_then_known journalTransactionID (wt_existing_entries alice db0) [tx 100] 0 /\
  ProcessWalletTransactionsCharacter_run nothing_new 5 1 db0
  = (Completed,
     mkRun (with_api_timers
              (mkAPITimer 1 1 "WalletTransactions" 7000 :: tl timers0) db0)
           [mkCall None db0 (Some 7000)] []) /\
  ceil_div 0 rowCount = 0 /\
  ~ fetches_ceil_pages nothing_new 5 1 db0 0.
Proof.
  split; [exact nothing_new_feed|]. split; [vm_compute; reflexivity|].
  split; [reflexivity|].
  intros [_ Hcount]. vm_compute in Hcount. discriminate.
Qed.

End KnownRecords.

(** ** Errors raised by the database while a page is processed *)

Section DatabaseErrors.
Import Tasks Inv TaskData WalkData DuplicateData.

(** In the transactions walker an [IntegrityError] is logged and the loop
    goes on with the next record of the page. *)
Lemma wt_integrity_error_skips_record E c ex t rest r w :
  is_in (journalTransactionID t) ex = false ->
  utcfromtimestamp_raises (transactionDateTime t) = None ->
  save_raises_mt E (db r) (new_market_transaction c t) = Some IntegrityError ->
  wt_for E c ex (t :: rest) r w
  = wt_for E c ex rest
           (logged (WarnIntegrityError (tr_typeID t) (journalTransactionID t)) r) w.
Proof. intros Hno Hconv Hsave. simpl. now rewrite Hno, Hconv, Hsave. Qed.

(** In the journal walker it leaves the loop, and with it the run: the
    records that follow in the page are not looked at. *)
Lemma wj_integrity_error_leaves_loop E c ex t rest r w :
  is_in (refID t) ex = false ->
  utcfromtimestamp_raises (jr_date t) = None ->
  save_raises_je E (db r) (new_journal_entry E c t) = Some IntegrityError ->
  wj_for E c ex (t :: rest) r w = Raising IntegrityError t r w.
Proof. intros Hno Hconv Hsave. simpl. now rewrite Hno, Hconv, Hsave. Qed.

(** C5, at the failing input.  The database rejects rows that refer to
    type 999; each stream serves a page whose first record refers to it and
    whose second record is fine.  Wallet transactions: the first record is
    logged and skipped, the second one is stored, the run completes.
    Wallet journal: the [IntegrityError] ends the run, the second record is
    never stored and the timer stays as it was. *)
Theorem journal_integrity_error_ends_run :
  (fst (ProcessWalletTransactionsCharacter_run outdated_static_data 5 1 db0) = Completed /\
   market_transactions
     (db (snd (ProcessWalletTransactionsCharacter_run outdated_static_data 5 1 db0)))
   = [stored_tx 1 100; stored_tx 2 102] /\
   log (snd (ProcessWalletTransactionsCharacter_run outdated_static_data 5 1 db0))
   = [WarnIntegrityError 999 101]) /\
  ProcessWalletJournalCharacter_run outdated_static_data 5 1 db0
  = (Raised IntegrityError, mkRun db0 [mkCall None db0 (Some 8000)] []).
Proof. repeat split; vm_compute; reflexivity. Qed.

Lemma wt_delete_loop_table ds : forall r,
  market_transactions
    (db (fold_left
           (fun r duplicate =>
              with_db (with_market_transactions
                         (delete_row mt_id duplicate (market_transactions (db r))) (db r))
                      (logged (WarnDuplicateMarketTransaction (mt_id duplicate)
                                                              (mt_transaction_id duplicate)) r))
           ds r))
  = fold_left (fun tb x => delete_row mt_id x tb) ds (market_transactions (db r)).
Proof. induction ds as [|d ds IH]; intros r; simpl; [reflexivity|]. now rewrite IH. Qed.

Lemma wj_delete_loop_table ds : forall r,
  journal_entries
    (db (fold_left
           (fun r duplicate =>
              with_db (with_journal_entries
                         (delete_row je_id duplicate (journal_entries (db r))) (db r))
                      (logged (WarnDuplicateJournalEntry (je_id duplicate)
                                                         (je_ref_id duplicate)) r))
           ds r))
  = fold_left (fun tb x => delete_row je_id x tb) ds (journal_entries (db r)).
Proof. induction ds as [|d ds IH]; intros r; simpl; [reflexivity|]. now rewrite IH. Qed.

(** The handlers of [MultipleObjectsReturned] leave exactly one of the
    rows that share the reference id (primary keys being distinct). *)
Lemma wt_remove_duplicates_leaves_one c t r d rest :
  List.NoDup (map mt_id (market_transactions (db r))) ->
  wt_duplicates c t (db r) = d :: rest ->
  wt_duplicates c t (db (wt_remove_duplicates c t r)) = [d].
Proof.
  intros Hnd Hdup. unfold wt_remove_duplicates. rewrite Hdup. simpl.
  unfold wt_duplicates in *. rewrite wt_delete_loop_table.
  now apply delete_all_but_first.
Qed.

Lemma wj_remove_duplicates_leaves_one c t r d rest :
  List.NoDup (map je_id (journal_entries (db r))) ->
  wj_duplicates c t (db r) = d :: rest ->
  wj_duplicates c t (db (wj_remove_duplicates c t r)) = [d].
Proof.
  intros Hnd Hdup. unfold wj_remove_duplicates. rewrite Hdup. simpl.
  unfold wj_duplicates in *. rewrite wj_delete_loop_table.
  now apply delete_all_but_first.
Qed.

(** Where the handlers stand, should a save ever raise
    [MultipleObjectsReturned]: in the journal walker inside the loop, which
    goes on with the next record of the page. *)
Lemma wj_duplicates_handled_in_loop E c ex t rest r w :
  is_in (refID t) ex = false ->
  utcfromtimestamp_raises (jr_date t) = None ->
  save_raises_je E (db r) (new_journal_entry E c t) = Some MultipleObjectsReturned ->
  wj_for E c ex (t :: rest) r w = wj_for E c ex rest (wj_remove_duplicates c t r) w.
Proof. intros Hno Hconv Hsave. simpl. now rewrite Hno, Hconv, Hsave. Qed.

(** In the transactions walker the handler sits outside the loop: the
    page ends with the handler, whatever records follow. *)
Lemma wt_duplicates_end_page E c t rest r :
  is_in (journalTransactionID t) (wt_existing_entries c (db r)) = false ->
  utcfromtimestamp_raises (transactionDateTime t) = None ->
  save_raises_mt E (db r) (new_market_transaction c t) = Some MultipleObjectsReturned ->
  wt_page E c (t :: rest) r = Finished (wt_remove_duplicates c t r) true.
Proof. intros Hno Hconv Hsave. unfold wt_page. simpl. now rewrite Hno, Hconv, Hsave. Qed.

(** C6, at the failing input.  The handlers of [MultipleObjectsReturned]
    are the only code that deletes duplicate rows, and the statements they
    guard are a membership test, a constructor and a [save], none of which
    raises that exception; so rows that share a reference id are never
    reduced to one.  First input: transaction 100 and journal entry 200 of
    the character are stored twice, and the feed lists them behind the new
    records; each run completes, both copies are still stored, and nothing
    is logged.  Second input: the first page repeats a new record three
    times and then lists one more new record, and the database accepts
    every row; the record is stored three times, the record that follows is
    stored too, nothing is logged, and a second run over the same page
    leaves the three copies where they are. *)
Theorem stored_duplicates_are_never_removed :
  (fst (ProcessWalletTransactionsCharacter_run two_new_transactions 5 1 db_duplicates)
   = Completed /\
   map mt_journal_transaction_id
       (market_transactions
          (db (snd (ProcessWalletTransactionsCharacter_run two_new_transactions 5 1
                      db_duplicates))))
   = [100; 100; 101; 102] /\
   log (snd (ProcessWalletTransactionsCharacter_run two_new_transactions 5 1 db_duplicates))
   = []) /\
  (fst (ProcessWalletJournalCharacter_run one_new_journal_record 5 1 db_duplicates)
   = Completed /\
   map je_ref_id
       (journal_entries
          (db (snd (ProcessWalletJournalCharacter_run one_new_journal_record 5 1
                      db_duplicates))))
   = [200; 201; 200] /\
   log (snd (ProcessWalletJournalCharacter_run one_new_journal_record 5 1 db_duplicates))
   = []) /\
  (fst (ProcessWalletTransactionsCharacter_run repeated_records 5 1 db0) = Completed /\
   map mt_journal_transaction_id
       (market_transactions
          (db (snd (ProcessWalletTransactionsCharacter_run repeated_records 5 1 db0))))
   = [100; 101; 101; 101; 102] /\
   log (snd (ProcessWalletTransactionsCharacter_run repeated_records 5 1 db0)) = [] /\
   map mt_journal_transaction_id
       (market_transactions
          (db (snd (ProcessWalletTransactionsCharacter_run repeated_records 5 1
                      (db (snd (ProcessWalletTransactionsCharacter_run
                                  repeated_records 5 1 db0)))))))
   = [100; 101; 101; 101; 102]) /\
  (fst (ProcessWalletJournalCharacter_run repeated_records 5 1 db0) = Completed /\
   map je_ref_id
       (journal_entries (db (snd (ProcessWalletJournalCharacter_run repeated_records 5 1 db0))))
   = [200; 201; 201; 201; 202] /\
   log (snd (ProcessWalletJournalCharacter_run repeated_records 5 1 db0)) = [] /\
   map je_ref_id
       (journal_entries
          (db (snd (ProcessWalletJournalCharacter_run repeated_records 5 1
                      (db (snd (ProcessWalletJournalCharacter_run
                                  repeated_records 5 1 db0)))))))
   = [200; 201; 201; 201; 202]).
Proof. repeat split; vm_compute; reflexivity. Qed.

End DatabaseErrors.

(** ** The blueprint history *)

Section History.
Import BlueprintHistory HistoryData.

Lemma add_entry_true history blueprint_id :
  add_entry history blueprint_id = true <-> ~ In blueprint_id (map entry_id history).
Proof.
  induction history as [|e l IH]; simpl.
  - split; [intros _ [] | reflexivity].
  - destruct (Z.eqb_spec (entry_id e) blueprint_id) as [Heq|Hne].
    + split; [discriminate | intros H; exfalso; apply H; auto].
    + rewrite IH. split; [intros H [Heq|Hin]; auto | intros H Hin; apply H; auto].
Qed.

Lemma removelast_length (l : list Entry) :
  l <> [] -> S (List.length (removelast l)) = List.length l.
Proof.
  induction l as [|a l IH]; [congruence|]. intros _. destruct l as [|b l]; [reflexivity|].
  change (removelast (a :: b :: l)) with (a :: removelast (b :: l)).
  cbn [List.length]. f_equal. apply IH. discriminate.
Qed.

Lemma In_removelast (l : list Entry) x : In x (removelast l) -> In x l.
Proof.
  induction l as [|a l IH]; [intros []|]. destruct l as [|b l]; [intros []|].
  change (removelast (a :: b :: l)) with (a :: removelast (b :: l)).
  intros [->|Hin]; [left; reflexivity | right; now apply IH].
Qed.

Lemma In_ids_removelast (l : list Entry) i :
  In i (map entry_id (removelast l)) -> In i (map entry_id l).
Proof.
  intros Hin. apply in_map_iff in Hin. destruct Hin as (x & Hx & Hin).
  apply in_map_iff. exists x. split; [exact Hx | now apply In_removelast].
Qed.

Lemma NoDup_ids_removelast (l : list Entry) :
  List.NoDup (map entry_id l) -> List.NoDup (map entry_id (removelast l)).
Proof.
  induction l as [|a l IH]; [intros _; constructor|]. destruct l as [|b l]; [intros _; constructor|].
  change (removelast (a :: b :: l)) with (a :: removelast (b :: l)).
  cbn [map]. intros Hnd. apply NoDup_cons_iff in Hnd. destruct Hnd as [Hnotin Hnd'].
  apply NoDup_cons.
  - intros Hin. apply Hnotin. exact (In_ids_removelast (b :: l) _ Hin).
  - apply IH. exact Hnd'.
Qed.

(** X1. The history stays within the limit and free of repeated ids: when
    the stored history has at most [MAX] entries with distinct ids, so has
    the history stored back. *)
Theorem history_stays_bounded_and_distinct MAX history blueprint_id blueprint_name history' :
  Z.of_nat (List.length history) <= MAX ->
  List.NoDup (map entry_id history) ->
  update_blueprint_history MAX (Some history) blueprint_id blueprint_name = Some history' ->
  Z.of_nat (List.length history') <= MAX /\ List.NoDup (map entry_id history').
Proof.
  intros Hlen Hnd. unfold update_blueprint_history.
  destruct (add_entry history blueprint_id) eqn:Hadd.
  - apply add_entry_true in Hadd.
    destruct (Z.eqb_spec (Z.of_nat (List.length history)) MAX) as [Hfull|Hroom].
    + destruct history as [|e l]; [discriminate|].
      change (del_last (e :: l)) with (Some (removelast (e :: l))).
      intros [= <-]. split.
      * change (Z.of_nat (S (List.length (removelast (e :: l)))) <= MAX).
        rewrite (removelast_length (e :: l)) by discriminate. lia.
      * change (List.NoDup (blueprint_id :: map entry_id (removelast (e :: l)))).
        apply NoDup_cons; [|now apply NoDup_ids_removelast].
        intros Hin. apply Hadd. now apply In_ids_removelast.
    + intros [= <-]. split; [simpl List.length; lia|]. simpl. now constructor.
  - intros [= <-]. auto.
Qed.

Lemma history_stays_bounded_and_distinct_witness :
  update_blueprint_history 2 (Some full_history) 690 "Breacher Blueprint"
  = Some [mkEntry 690 "Breacher Blueprint"; rifter] /\
  Z.of_nat (List.length [mkEntry 690 "Breacher Blueprint"; rifter]) <= 2 /\
  List.NoDup (map entry_id [mkEntry 690 "Breacher Blueprint"; rifter]).
Proof.
  split; [reflexivity|].
  apply (history_stays_bounded_and_distinct 2 full_history 690 "Breacher Blueprint").
  - simpl. lia.
  - repeat constructor; simpl; intuition discriminate.
  - reflexivity.
Defined.

(** X2. Whenever the function returns, the blueprint is in the history
    stored back; when it was not there before it is the first entry; and
    calling the function again for the same blueprint changes nothing. *)
Theorem blueprint_recorded_once MAX session blueprint_id blueprint_name history' :
  update_blueprint_history MAX session blueprint_id blueprint_name = Some history' ->
  In blueprint_id (map entry_id history') /\
  (forall history, session = Some history -> ~ In blueprint_id (map entry_id history) ->
                   hd_error history' = Some (mkEntry blueprint_id blueprint_name)) /\
  forall name', update_blueprint_history MAX (Some history') blueprint_id name' = Some history'.
Proof.
  unfold update_blueprint_history.
  set (history := match session with Some h => h | None => [] end).
  destruct (add_entry history blueprint_id) eqn:Hadd.
  - assert (Hres : forall l, Some (mkEntry blueprint_id blueprint_name :: l) = Some history' ->
              In blueprint_id (map entry_id history') /\
              (forall history0, session = Some history0 ->
                 ~ In blueprint_id (map entry_id history0) ->
                 hd_error history' = Some (mkEntry blueprint_id blueprint_name)) /\
              forall name',
                (if add_entry history' blueprint_id
                 then if Z.of_nat (List.length history') =? MAX
                      then match del_last history' with
                           | None => None
                           | Some h => Some (mkEntry blueprint_id name' :: h)
                           end
                      else Some (mkEntry blueprint_id name' :: history')
                 else Some history') = Some history').
    { intros l [= <-]. split; [simpl; auto|]. split; [reflexivity|].
      intros name'. simpl. now rewrite Z.eqb_refl. }
    destruct (Z.of_nat (List.length history) =? MAX).
    + destruct (del_last history); [apply Hres | discriminate].
    + apply Hres.
  - intros [= <-].
    assert (Hin : In blueprint_id (map entry_id history)).
    { destruct (in_dec Z.eq_dec blueprint_id (map entry_id history)) as [Hin|Hnot]; auto.
      apply add_entry_true in Hnot. congruence. }
    split; [exact Hin|]. split.
    + intros history0 Hs Hnot. subst session. contradiction.
    + intros name'. now rewrite Hadd.
Qed.

Lemma blueprint_recorded_once_witness :
  In 690 (map entry_id [mkEntry 690 "Breacher Blueprint"; rifter]) /\
  update_blueprint_history 2 (Some [mkEntry 690 "Breacher Blueprint"; rifter]) 690 "again"
  = Some [mkEntry 690 "Breacher Blueprint"; rifter].
Proof.
  destruct (blueprint_recorded_once 2 (Some full_history) 690 "Breacher Blueprint"
              [mkEntry 690 "Breacher Blueprint"; rifter] eq_refl) as (Hin & _ & Hagain).
  split; [exact Hin | exact (Hagain "again"%string)].
Defined.

(** X3. The function fails, with the [IndexError] of [del history[-1]],
    exactly when the limit is 0 and the history is empty or missing; in
    every other case it returns. *)
Theorem history_index_error_iff MAX session blueprint_id blueprint_name :
  update_blueprint_history MAX session blueprint_id blueprint_name = None <->
  MAX = 0 /\ (session = None \/ session = Some []).
Proof.
  unfold update_blueprint_history. split.
  - intros H. destruct session as [[|e l]|].
    + cbn in H. destruct MAX; [auto | discriminate | discriminate].
    + exfalso. cbv beta iota zeta in H.
      change (del_last (e :: l)) with (Some (removelast (e :: l))) in H.
      destruct (add_entry (e :: l) blueprint_id); [|discriminate].
      destruct (Z.of_nat (List.length (e :: l)) =? MAX); discriminate.
    + cbn in H. destruct MAX; [auto | discriminate | discriminate].
  - intros [-> [->| ->]]; reflexivity.
Qed.

End History.

(** ** merge_bill_of_materials: what happens to the arguments *)

Section MergeMore.
Import Manufacturing MergeData MergeMore.

Lemma merge_start_inv h : merge_inv h [] (h, []).
Proof.
  split; [split; [constructor | split; intros ? []] | split; [intros ? [] | reflexivity]].
Qed.

(** X4. The merge works on the argument objects themselves: with pairwise
    distinct entries, every entry of the returned list is one of the
    argument entries (no copy is made, and none is returned twice), and
    every object that is not returned has the contents it had before the
    call; the summed quantities are written into the arguments. *)
Theorem merge_returns_argument_objects h materials1 materials2 :
  List.NoDup (materials1 ++ materials2) ->
  (forall r, In r (snd (merge_bill_of_materials h materials1 materials2)) ->
             In r (materials1 ++ materials2)) /\
  List.NoDup (snd (merge_bill_of_materials h materials1 materials2)) /\
  (forall x, ~ In x (snd (merge_bill_of_materials h materials1 materials2)) ->
             fst (merge_bill_of_materials h materials1 materials2) x = h x) /\
  (forall r, In r (snd (merge_bill_of_materials h materials1 materials2)) ->
             mat_quantity (fst (merge_bill_of_materials h materials1 materials2) r)
             = quantity_of h (materials1 ++ materials2) (mat_id (h r))).
Proof.
  intros Hnd. unfold merge_bill_of_materials.
  pose proof (merge_loop_inv h (materials1 ++ materials2) [] (h, [])
                (merge_start_inv h) Hnd) as Hloop.
  simpl in Hloop.
  destruct (fold_left merge_item (materials1 ++ materials2) (h, [])) as [h' ms].
  destruct Hloop as ((Hids & _ & Hms) & Hsub & Hout). simpl.
  split; [exact Hsub|]. split; [|split; [exact Hout|]].
  - apply (NoDup_map_inv (fun r => mat_id (h' r))). exact Hids.
  - intros r Hr. destruct (Hms r Hr) as (Hq & (Hid & _) & _). now rewrite <- Hid.
Qed.

Lemma merge_returns_argument_objects_witness :
  mat_quantity (fst (merge_bill_of_materials bill_heap bill1 bill2) 0%nat) = 17 /\
  fst (merge_bill_of_materials bill_heap bill1 bill2) 2%nat = bill_heap 2%nat.
Proof.
  destruct (merge_returns_argument_objects bill_heap bill1 bill2 bills_distinct)
    as (_ & _ & Hout & Hq).
  split.
  - exact (Hq 0%nat (or_introl eq_refl)).
  - apply Hout. vm_compute. intuition discriminate.
Defined.

Lemma is_in_materials_existsb h ms i :
  is_in_materials h ms i = existsb (Z.eqb i) (map (fun r => mat_id (h r)) ms).
Proof.
  induction ms as [|m ms IH]; simpl; [reflexivity|].
  rewrite (Z.eqb_sym i). destruct (mat_id (h m) =? i); [reflexivity | exact IH].
Qed.

Lemma add_to_first_id h ms item x :
  mat_id (add_to_first h ms item x) = mat_id (h x).
Proof.
  induction ms as [|m ms IH]; simpl; [reflexivity|].
  destruct (mat_id (h m) =? mat_id (h item)); [|exact IH].
  unfold heap_set. destruct (Nat.eqb_spec x m); subst; reflexivity.
Qed.

Lemma merge_loop_ids h0 items : forall h ms,
  (forall x, mat_id (h x) = mat_id (h0 x)) ->
  (forall x, mat_id (fst (fold_left merge_item items (h, ms)) x) = mat_id (h0 x)) /\
  map (fun r => mat_id (h0 r)) (snd (fold_left merge_item items (h, ms)))
  = map (fun r => mat_id (h0 r)) ms
    ++ first_occurrences (map (fun r => mat_id (h0 r)) ms) (map (fun r => mat_id (h0 r)) items).
Proof.
  induction items as [|item items IH]; intros h ms Hid; simpl.
  - split; [exact Hid | now rewrite app_nil_r].
  - rewrite is_in_materials_existsb.
    rewrite (map_ext (fun r => mat_id (h r)) (fun r => mat_id (h0 r)) Hid), Hid.
    destruct (existsb (Z.eqb (mat_id (h0 item))) (map (fun r => mat_id (h0 r)) ms)).
    + apply IH. intros x. now rewrite add_to_first_id.
    + destruct (IH h (ms ++ [item]) Hid) as [Hh Hms]. split; [exact Hh|].
      etransitivity; [exact Hms|]. rewrite map_app, <- app_assoc. reflexivity.
Qed.

(** X5. Whatever the arguments are, aliased or not, the ids of the
    returned list are the ids of [materials1] followed by [materials2],
    each once, in the order of their first occurrence; the merge never
    changes the id of an object. *)
Theorem merge_keeps_first_occurrence_order h materials1 materials2 :
  map (fun r => mat_id (h r)) (snd (merge_bill_of_materials h materials1 materials2))
  = first_occurrences [] (map (fun r => mat_id (h r)) (materials1 ++ materials2)) /\
  forall x, mat_id (fst (merge_bill_of_materials h materials1 materials2) x) = mat_id (h x).
Proof.
  unfold merge_bill_of_materials.
  destruct (merge_loop_ids h (materials1 ++ materials2) h [] (fun x => eq_refl)) as [Hh Hms].
  split; [exact Hms | exact Hh].
Qed.

Lemma total_quantity_app h l1 l2 :
  total_quantity h (l1 ++ l2) = total_quantity h l1 + total_quantity h l2.
Proof.
  unfold total_quantity. rewrite map_app.
  induction (map (fun r => mat_quantity (h r)) l1) as [|q qs IH]; simpl; lia.
Qed.

Lemma total_quantity_ext h h' l :
  (forall x, In x l -> h' x = h x) -> total_quantity h' l = total_quantity h l.
Proof.
  intros Hext. unfold total_quantity. f_equal. apply map_ext_in.
  intros x Hx. now rewrite Hext.
Qed.

Lemma total_quantity_heap_set h l r m :
  List.NoDup l -> In r l ->
  total_quantity (heap_set h r m) l
  = total_quantity h l + (mat_quantity m - mat_quantity (h r)).
Proof.
  induction l as [|a l IH]; [intros _ []|].
  intros Hnd Hin. apply NoDup_cons_iff in Hnd. destruct Hnd as [Hnotin Hnd].
  change (total_quantity (heap_set h r m) (a :: l))
    with (mat_quantity (heap_set h r m a) + total_quantity (heap_set h r m) l).
  change (total_quantity h (a :: l)) with (mat_quantity (h a) + total_quantity h l).
  destruct Hin as [->|Hin].
  - rewrite heap_set_same.
    rewrite (total_quantity_ext h (heap_set h r m) l); [lia|].
    intros x Hx. apply heap_set_other. intros ->. contradiction.
  - rewrite heap_set_other by (intros ->; contradiction).
    rewrite IH by assumption. lia.
Qed.

Lemma merge_item_total h0 processed h ms item :
  merge_inv h0 processed (h, ms) -> ~ In item processed ->
  total_quantity (fst (merge_item (h, ms) item)) (snd (merge_item (h, ms) item))
  = total_quantity h ms + mat_quantity (h0 item).
Proof.
  intros ((Hnd & _ & _) & Hsub & Hout) Hfresh.
  assert (Hitem : h item = h0 item) by (apply Hout; intros Hin; apply Hfresh, Hsub, Hin).
  unfold merge_item.
  destruct (is_in_materials h ms (mat_id (h item))) eqn:Hin; simpl.
  - apply is_in_materials_true in Hin. destruct Hin as (r & Hr & Hrid).
    rewrite (add_to_first_at h ms item r Hnd Hr Hrid).
    rewrite total_quantity_heap_set;
      [| exact (NoDup_map_inv (fun x => mat_id (h x)) ms Hnd) | exact Hr].
    simpl. rewrite Hitem. lia.
  - rewrite total_quantity_app. unfold total_quantity at 2. simpl. rewrite Hitem. lia.
Qed.

Lemma merge_loop_total h0 remaining : forall processed st,
  merge_inv h0 processed st -> List.NoDup (processed ++ remaining) ->
  total_quantity (fst st) (snd st) = total_quantity h0 processed ->
  total_quantity (fst (fold_left merge_item remaining st))
                 (snd (fold_left merge_item remaining st))
  = total_quantity h0 (processed ++ remaining).
Proof.
  induction remaining as [|item remaining IH]; intros processed st Hinv Hnd Htot; simpl.
  - now rewrite app_nil_r.
  - assert (Hfresh : ~ In item processed).
    { pose proof Hnd as Hnd'. apply NoDup_remove_2 in Hnd'. intros Hin. apply Hnd'.
      apply in_or_app. auto. }
    replace (processed ++ item :: remaining) with ((processed ++ [item]) ++ remaining)
      in * by (rewrite <- app_assoc; reflexivity).
    apply IH; [now apply merge_item_inv | exact Hnd |].
    destruct st as [h ms].
    rewrite (merge_item_total h0 processed h ms item Hinv Hfresh).
    simpl in Htot. rewrite Htot, total_quantity_app. unfold total_quantity at 3. simpl. lia.
Qed.

(** X6. Merging bills built from pairwise distinct entries loses and
    invents nothing: the quantities of the returned list add up to the sum
    of the quantities of all entries of both arguments. *)
Theorem merge_preserves_total_quantity h materials1 materials2 :
  List.NoDup (materials1 ++ materials2) ->
  total_quantity (fst (merge_bill_of_materials h materials1 materials2))
                 (snd (merge_bill_of_materials h materials1 materials2))
  = total_quantity h materials1 + total_quantity h materials2.
Proof.
  intros Hnd. unfold merge_bill_of_materials. rewrite <- total_quantity_app.
  exact (merge_loop_total h (materials1 ++ materials2) [] (h, [])
           (merge_start_inv h) Hnd eq_refl).
Qed.

Lemma merge_preserves_total_quantity_witness :
  total_quantity (fst (merge_bill_of_materials bill_heap bill1 bill2))
                 (snd (merge_bill_of_materials bill_heap bill1 bill2))
  = total_quantity bill_heap bill1 + total_quantity bill_heap bill2.
Proof.
  exact (merge_preserves_total_quantity bill_heap bill1 bill2 bills_distinct).
Defined.

End MergeMore.

(** ** calculate_material_prices *)

Section MaterialPrices.
Import Manufacturing MergeData Pricing PriceData.

Lemma same_but_prices_refl a : same_but_prices a a.
Proof. repeat split. Qed.

Lemma same_but_prices_trans a b c :
  same_but_prices a b -> same_but_prices b c -> same_but_prices a c.
Proof. unfold same_but_prices. intuition congruence. Qed.

Lemma priced_same h material p total x :
  same_but_prices
    (h x)
    (heap_set (heap_set h material (set_price p (h material))) material
              (set_price_total total (set_price p (h material))) x).
Proof.
  unfold heap_set. destruct (Nat.eqb_spec x material) as [->|Hne].
  - repeat split.
  - apply same_but_prices_refl.
Qed.

(** Whatever the multiplication does, the loops touch the price fields
    of the listed objects only. *)
Lemma price_materials_frame times s materials : forall h x,
  same_but_prices (h x) (fst (price_materials times s materials h) x) /\
  (~ In x materials -> fst (price_materials times s materials h) x = h x).
Proof.
  induction materials as [|m rest IH]; intros h x; simpl.
  - split; [apply same_but_prices_refl | reflexivity].
  - destruct (mat_id (h m) =? stat_invtype_id s).
    + rewrite heap_set_same. simpl mat_quantity.
      destruct (times (sell_95_percentile s) (mat_quantity (h m))) as [total|]; simpl.
      * match goal with |- context [price_materials times s rest ?h2] =>
          destruct (IH h2 x) as [Hsame Hout];
          assert (H2 : same_but_prices (h x) (h2 x))
        end.
        { unfold heap_set. destruct (Nat.eqb_spec x m) as [->|Hne];
            [repeat split | apply same_but_prices_refl]. }
        split; [eapply same_but_prices_trans; eauto|].
        intros Hnot. rewrite Hout by (intros Hin; apply Hnot; right; exact Hin).
        unfold heap_set. destruct (Nat.eqb_spec x m) as [->|Hne]; [|reflexivity].
        exfalso. apply Hnot. left. reflexivity.
      * split.
        -- unfold heap_set. destruct (Nat.eqb_spec x m) as [->|Hne];
             [repeat split | apply same_but_prices_refl].
        -- intros Hnot. apply heap_set_other. intros ->. apply Hnot. left. reflexivity.
    + destruct (IH h x) as [Hsame Hout]. split; [exact Hsame|].
      intros Hnot. apply Hout. intros Hin. apply Hnot. right. exact Hin.
Qed.

Lemma price_rows_frame times prices materials : forall h x,
  same_but_prices (h x) (fst (price_rows times prices materials h) x) /\
  (~ In x materials -> fst (price_rows times prices materials h) x = h x).
Proof.
  induction prices as [|s rest IH]; intros h x; simpl.
  - split; [apply same_but_prices_refl | reflexivity].
  - pose proof (price_materials_frame times s materials h x) as [Hsame Hout].
    destruct (price_materials times s materials h) as [h1 [|]]; simpl in *; [auto|].
    destruct (IH h1 x) as [Hsame' Hout'].
    split; [eapply same_but_prices_trans; eauto|].
    intros Hnot. rewrite Hout', Hout; auto.
Qed.

(** X27. Pricing never touches what is not a price.  Whatever the
    statistics hold and whether or not an exception ends the work early
    (it is swallowed), the function returns the list it was given, every
    object keeps its id, name, quantity, volume and producibility, and
    objects that are not in the list are not changed at all. *)
Theorem pricing_changes_prices_only times stats h materials x :
  snd (fst (calculate_material_prices times stats h materials)) = materials /\
  same_but_prices (h x) (fst (fst (calculate_material_prices times stats h materials)) x) /\
  (~ In x materials ->
   fst (fst (calculate_material_prices times stats h materials)) x = h x).
Proof.
  unfold calculate_material_prices. destruct stats as [table|]; simpl.
  - pose proof (price_rows_frame times (materials_prices h materials table) materials h x)
      as Hframe.
    destruct (price_rows times (materials_prices h materials table) materials h) as [h' raised].
    simpl in *. split; [reflexivity | exact Hframe].
  - split; [reflexivity|]. split; [apply same_but_prices_refl | reflexivity].
Qed.

(** With a multiplication that does not raise, the inner loop prices
    every listed object that carries the id of the row. *)
Lemma price_materials_total times s materials :
  (forall p q, times p q <> None) ->
  forall h,
    snd (price_materials times s materials h) = false /\
    forall x, In x materials -> mat_id (h x) = stat_invtype_id s ->
      mat_price (fst (price_materials times s materials h) x) = sell_95_percentile s /\
      times (sell_95_percentile s) (mat_quantity (h x))
      = Some (mat_price_total (fst (price_materials times s materials h) x)).
Proof.
  intros Htot. induction materials as [|m rest IH]; intros h; cbn [price_materials].
  - split; [reflexivity | intros x []].
  - destruct (Z.eqb_spec (mat_id (h m)) (stat_invtype_id s)) as [Hid|Hid].
    + rewrite heap_set_same. simpl mat_quantity.
      destruct (times (sell_95_percentile s) (mat_quantity (h m))) as [total|] eqn:Ht;
        [|now apply Htot in Ht].
      match goal with |- context [price_materials times s rest ?hh] => set (h2 := hh) end.
      destruct (IH h2) as [Hflag Hrows]. split; [exact Hflag|].
      assert (Hsame : forall y, same_but_prices (h y) (h2 y)) by (intros y; apply priced_same).
      intros x Hx Hxid.
      destruct (in_dec Nat.eq_dec x rest) as [Hin|Hnotin].
      * destruct (Hsame x) as (Hi & _ & Hq & _).
        rewrite Hq. apply Hrows; [exact Hin | congruence].
      * destruct Hx as [->|Hx]; [|contradiction].
        destruct (price_materials_frame times s rest h2 x) as [_ Hout].
        rewrite (Hout Hnotin). subst h2. rewrite heap_set_same. simpl.
        split; [reflexivity | exact Ht].
    + destruct (IH h) as [Hflag Hrows]. split; [exact Hflag|].
      intros x [->|Hx] Hxid; [contradiction | now apply Hrows].
Qed.

Lemma price_materials_other times s materials : forall h x,
  mat_id (h x) <> stat_invtype_id s ->
  fst (price_materials times s materials h) x = h x.
Proof.
  induction materials as [|m rest IH]; intros h x Hne; cbn [price_materials]; [reflexivity|].
  destruct (Z.eqb_spec (mat_id (h m)) (stat_invtype_id s)) as [Hid|Hid]; [|now apply IH].
  assert (Hxm : x <> m) by (intros ->; contradiction).
  rewrite heap_set_same. simpl mat_quantity.
  destruct (times (sell_95_percentile s) (mat_quantity (h m))) as [total|]; simpl.
  - rewrite IH; rewrite !heap_set_other by exact Hxm; auto.
  - now apply heap_set_other.
Qed.

Lemma price_rows_total times prices materials :
  (forall p q, times p q <> None) ->
  forall h,
    snd (price_rows times prices materials h) = false /\
    forall x, In x materials ->
      match last_percentile prices (mat_id (h x)) with
      | Some p =>
          mat_price (fst (price_rows times prices materials h) x) = p /\
          times p (mat_quantity (h x))
          = Some (mat_price_total (fst (price_rows times prices materials h) x))
      | None => fst (price_rows times prices materials h) x = h x
      end.
Proof.
  intros Htot. induction prices as [|s rest IH]; intros h; cbn [price_rows last_percentile].
  - split; [reflexivity | intros x _; reflexivity].
  - destruct (price_materials_total times s materials Htot h) as [Hflag Hrows].
    pose proof (price_materials_frame times s materials h) as Hframe.
    pose proof (price_materials_other times s materials h) as Hother.
    destruct (price_materials times s materials h) as [h1 raised]. simpl in *. subst raised.
    destruct (IH h1) as [Hflag' Hrows']. split; [exact Hflag'|].
    intros x Hx. specialize (Hrows' x Hx).
    destruct (Hframe x) as [(Hi & _ & Hq & _) _]. rewrite <- Hi, <- Hq in Hrows'.
    destruct (last_percentile rest (mat_id (h x))) as [p|]; [exact Hrows'|].
    rewrite Hrows'. rewrite (Z.eqb_sym (stat_invtype_id s)).
    destruct (Z.eqb_spec (mat_id (h x)) (stat_invtype_id s)) as [Hid|Hid].
    + now apply Hrows.
    + now apply Hother.
Qed.

Lemma forge_price_query h materials table i :
  In i (map (fun material => mat_id (h material)) materials) ->
  last_percentile (materials_prices h materials table) i = forge_price table i.
Proof.
  intros Hi. unfold materials_prices. induction table as [|s rest IH]; [reflexivity|].
  cbn [List.filter forge_price].
  destruct (existsb (Z.eqb (stat_invtype_id s))
                    (map (fun material => mat_id (h material)) materials)) eqn:Hex;
    cbn [andb].
  - destruct (stat_mapregion_id s =? 10000002); cbn [last_percentile]; rewrite IH.
    + destruct (forge_price rest i); [reflexivity|].
      destruct (stat_invtype_id s =? i); reflexivity.
    + destruct (forge_price rest i); [reflexivity|].
      destruct (stat_invtype_id s =? i); reflexivity.
  - rewrite IH. destruct (forge_price rest i); [reflexivity|].
    destruct (Z.eqb_spec (stat_invtype_id s) i) as [Hsi|Hsi]; [|reflexivity].
    exfalso. assert (Htrue : existsb (Z.eqb (stat_invtype_id s))
                               (map (fun material => mat_id (h material)) materials) = true);
      [|congruence].
    apply existsb_exists. exists i. split; [exact Hi | now apply Z.eqb_eq].
Qed.

(** X26. The prices are those of The Forge.  When the multiplication does
    not raise, the handler does not run, and every entry of the list for
    whose id the statistics hold a row of region 10000002 ends up with the
    percentile of the last such row as price and with price times quantity
    as total; an entry without such a row is not changed.  This holds also
    when an object is listed more than once. *)
Theorem prices_are_those_of_the_forge times table h materials x :
  (forall p q, times p q <> None) ->
  In x materials ->
  snd (calculate_material_prices times (Some table) h materials) = false /\
  match forge_price table (mat_id (h x)) with
  | Some p =>
      mat_price (fst (fst (calculate_material_prices times (Some table) h materials)) x) = p /\
      times p (mat_quantity (h x))
      = Some (mat_price_total
                (fst (fst (calculate_material_prices times (Some table) h materials)) x))
  | None => fst (fst (calculate_material_prices times (Some table) h materials)) x = h x
  end.
Proof.
  intros Htot Hx. unfold calculate_material_prices.
  destruct (price_rows_total times (materials_prices h materials table) materials Htot h)
    as [Hflag Hrows].
  specialize (Hrows x Hx).
  rewrite forge_price_query in Hrows
    by (apply (in_map (fun material => mat_id (h material))); exact Hx).
  destruct (price_rows times (materials_prices h materials table) materials h) as [h' raised].
  simpl in *. split; [exact Hflag | exact Hrows].
Qed.

Lemma prices_are_those_of_the_forge_witness :
  forge_price stats0 (mat_id (bill_heap 0%nat)) = Some 5 /\
  mat_price (fst (fst (calculate_material_prices exact_times (Some stats0) bill_heap bill1))
                 0%nat) = 5 /\
  exact_times 5 (mat_quantity (bill_heap 0%nat))
  = Some (mat_price_total
            (fst (fst (calculate_material_prices exact_times (Some stats0) bill_heap bill1))
                 0%nat)).
Proof.
  split; [reflexivity|].
  exact (proj2 (prices_are_those_of_the_forge exact_times stats0 bill_heap bill1 0%nat
                  (fun p q (H : exact_times p q = None) =>
                     eq_ind (Some (p * q)) (fun o => match o with Some _ => True | None => False end)
                            I None H)
                  (or_introl eq_refl))).
Defined.

End MaterialPrices.

(** ** The periodic tasks and the timers *)

Section Schedulers.
Import Tasks Inv TaskData Scheduling Sched.

Lemma update_timer_timers character_id s c sheet cu r o r' :
  get_character character_id s = inr c ->
  api_timers (db r) = api_timers s ->
  update_timer c sheet cu r = (o, r') ->
  timers_after sheet character_id s o r'.
Proof.
  intros Hchar Ht. unfold update_timer.
  destruct (objects_get _ (api_timers (db r))) as [e|timer] eqn:Hget.
  - intros [= <- <-]. left. split; [discriminate | exact Ht].
  - destruct (utcfromtimestamp_raises cu);
      [intros [= <- <-]; left; split; [discriminate | exact Ht]|].
    intros [= <- <-]. right. split; [reflexivity|]. exists c, timer, cu.
    split; [exact Hchar|]. split; [unfold get_timer; now rewrite <- Ht|].
    simpl. now rewrite Ht.
Qed.

Lemma wt_run_timers E fuel character_id s o r' :
  ProcessWalletTransactionsCharacter_run E fuel character_id s = (o, r') ->
  timers_after "WalletTransactions" character_id s o r'.
Proof.
  unfold ProcessWalletTransactionsCharacter_run.
  destruct (get_character character_id s) as [e|c] eqn:Hchar.
  { intros [= <- <-]. left. split; [discriminate | reflexivity]. }
  destruct (get_valid_apikey c s) as [e|apikey].
  { destruct e; intros [= <- <-]; left; (split; [discriminate | reflexivity]). }
  destruct (WalletTransactions E 0 (authenticate apikey c) rowCount None) as [e|sheet].
  { destruct e; intros [= <- <-]; left; (split; [discriminate | reflexivity]). }
  set (r0 := called None (Some (cachedUntil sheet)) (mkRun s [] [])).
  assert (Hinv0 : wt_loop_inv c s r0).
  { split; [apply only_mt_refl|]. split.
    - exists (mkCall None s (Some (cachedUntil sheet))), []. simpl. repeat split; auto.
    - split; [apply calls_monotone_called; intros c0 [] | apply incl_refl]. }
  assert (Hlast0 : last_answer r0 (cachedUntil sheet)) by apply called_last_answer.
  destruct (wt_while E fuel (authenticate apikey c) c sheet r0) as [[o1 r1] sheet1] eqn:Hwhile.
  destruct (wt_while_inv E c s _ _ _ _ _ _ _ Hwhile Hinv0 Hlast0) as ((Hf & _) & _).
  apply only_mt_timers in Hf.
  destruct o1; try (intros [= <- <-]; left; (split; [discriminate | exact Hf])).
  now apply update_timer_timers.
Qed.

Lemma wj_run_timers E fuel character_id s o r' :
  ProcessWalletJournalCharacter_run E fuel character_id s = (o, r') ->
  timers_after "WalletJournal" character_id s o r'.
Proof.
  unfold ProcessWalletJournalCharacter_run.
  destruct (get_character character_id s) as [e|c] eqn:Hchar.
  { intros [= <- <-]. left. split; [discriminate | reflexivity]. }
  destruct (get_valid_apikey c s) as [e|apikey].
  { destruct e; intros [= <- <-]; left; (split; [discriminate | reflexivity]). }
  destruct (WalletJournal E 0 (authenticate apikey c) rowCount None) as [e|sheet].
  { destruct e; intros [= <- <-]; left; (split; [discriminate | reflexivity]). }
  set (r0 := called None (Some (cachedUntil sheet)) (mkRun s [] [])).
  assert (Hinv0 : wj_loop_inv c s r0).
  { split; [apply only_je_refl|]. split.
    - exists (mkCall None s (Some (cachedUntil sheet))), []. simpl. repeat split; auto.
    - split; [apply calls_monotone_called; intros c0 [] | apply incl_refl]. }
  assert (Hlast0 : last_answer r0 (cachedUntil sheet)) by apply called_last_answer.
  destruct (wj_while E fuel (authenticate apikey c) c sheet r0) as [[o1 r1] sheet1] eqn:Hwhile.
  destruct (wj_while_inv E c s _ _ _ _ _ _ _ Hwhile Hinv0 Hlast0) as ((Hf & _) & _).
  apply only_je_timers in Hf.
  destruct o1; try (intros [= <- <-]; left; (split; [discriminate | exact Hf])).
  now apply update_timer_timers.
Qed.

Lemma mo_run_timers E character_id s o r' :
  ProcessMarketOrdersCharacter_run E character_id s = (o, r') ->
  timers_after "MarketOrders" character_id s o r'.
Proof.
  unfold ProcessMarketOrdersCharacter_run.
  destruct (get_character character_id s) as [e|c] eqn:Hchar.
  { intros [= <- <-]. left. split; [discriminate | reflexivity]. }
  destruct (get_valid_apikey c s) as [e|apikey].
  { destruct e; intros [= <- <-]; left; (split; [discriminate | reflexivity]). }
  destruct (MarketOrders E (authenticate apikey c)) as [e|sheet].
  { destruct e; intros [= <- <-]; left; (split; [discriminate | reflexivity]). }
  pose proof (mo_for_state E c (rows sheet)
                (called None (Some (cachedUntil sheet)) (mkRun s [] []))) as [_ Ht].
  destruct (mo_for E c (rows sheet) _) as [[e r1]|r1]; simpl in Ht.
  - intros [= <- <-]. left. split; [discriminate | exact Ht].
  - now apply update_timer_timers.
Qed.

Lemma rs_run_timers E character_id s o r' :
  ProcessResearchCharacter_run E character_id s = (o, r') ->
  timers_after "Research" character_id s o r'.
Proof.
  unfold ProcessResearchCharacter_run.
  destruct (get_character character_id s) as [e|c] eqn:Hchar.
  { intros [= <- <-]. left. split; [discriminate | reflexivity]. }
  destruct (get_valid_apikey c s) as [e|apikey].
  { destruct e; intros [= <- <-]; left; (split; [discriminate | reflexivity]). }
  destruct (ResearchSheet E (authenticate apikey c)) as [e|sheet].
  { destruct e; intros [= <- <-]; left; (split; [discriminate | reflexivity]). }
  pose proof (rs_for_state E c (rows sheet)
                (with_db (delete_research_of c s)
                         (called None (Some (cachedUntil sheet)) (mkRun s [] [])))) as [_ Ht].
  destruct (rs_for E c (rows sheet) _) as [[e r1]|r1]; simpl in Ht.
  - intros [= <- <-]. left. split; [discriminate | exact Ht].
  - now apply update_timer_timers.
Qed.

Lemma task_timers_after t E fuel character_id s o r' :
  run_task t E fuel character_id s = (o, r') ->
  timers_after (apisheet_of t) character_id s o r'.
Proof.
  destruct t; simpl; intros Hrun.
  - now apply (wt_run_timers E fuel).
  - now apply (wj_run_timers E fuel).
  - now apply (mo_run_timers E).
  - now apply (rs_run_timers E).
Qed.


Lemma filter_map_fixed {A} (F : A -> bool) (g : A -> A) l :
  (forall x, In x l -> g x = x \/ (F x = false /\ F (g x) = false)) ->
  List.filter F (map g l) = List.filter F l.
Proof.
  induction l as [|a l IH]; simpl; intros Hg; [reflexivity|].
  rewrite IH by auto.
  destruct (Hg a (or_introl eq_refl)) as [->|[-> ->]]; reflexivity.
Qed.

(** Saving the timer row of a character and sheet does not change what a
    query selects that skips this row. *)
Lemma save_timer_filter (F : APITimer -> bool) timers timer cu :
  List.NoDup (map timer_id timers) -> In timer timers ->
  F timer = false -> F (timer_with_nextupdate cu timer) = false ->
  List.filter F (save_row timer_id (timer_with_nextupdate cu timer) timers)
  = List.filter F timers.
Proof.
  intros Hnd Hin HF HF'. unfold save_row.
  assert (Hex : existsb (fun r => timer_id r =? timer_id (timer_with_nextupdate cu timer))
                        timers = true).
  { apply existsb_exists. exists timer. split; [exact Hin | apply Z.eqb_refl]. }
  rewrite Hex. apply filter_map_fixed. intros x Hx.
  destruct (Z.eqb_spec (timer_id x) (timer_id (timer_with_nextupdate cu timer))) as [Heq|Hne];
    [|left; reflexivity].
  right. assert (x = timer) by (apply (pk_unique timer_id timers); auto).
  subst x. auto.
Qed.

Lemma for_others_map character_id ct expires (l : list APITimer) :
  for_others character_id
    (map (fun update => mkDispatch ct (timer_character update) expires) l)
  = map (fun update => mkDispatch ct (timer_character update) expires)
        (List.filter (fun u => negb (timer_character u =? character_id)) l).
Proof.
  unfold for_others. induction l as [|a l IH]; simpl; [reflexivity|].
  rewrite IH. destruct (timer_character a =? character_id); reflexivity.
Qed.

(** X7. What a run does to the schedule of the others.  A run of an import
    task that does not complete leaves the answer of every periodic task
    as it was, so the character is dispatched again as long as the timer is
    due; a run that completes changes only the dispatch of its own
    character for its own sheet: the periodic tasks of the other sheets
    answer as before, and so does its own for every other character.  The
    primary keys of the timer table are assumed distinct. *)
Theorem run_changes_only_its_own_schedule t E fuel character_id s o r'
        character_task apisheet utc_now now :
  List.NoDup (map timer_id (api_timers s)) ->
  run_task t E fuel character_id s = (o, r') ->
  (apisheet <> apisheet_of t \/ o <> Completed ->
   schedule character_task apisheet utc_now now (db r')
   = schedule character_task apisheet utc_now now s) /\
  for_others character_id (fst (schedule character_task apisheet utc_now now (db r')))
  = for_others character_id (fst (schedule character_task apisheet utc_now now s)).
Proof.
  intros Hnd Hrun. apply task_timers_after in Hrun.
  destruct Hrun as [[Hne Ht]|[-> (c & timer & cu & Hchar & Hget & Ht)]].
  { assert (Hdue : due_timers apisheet utc_now (db r') = due_timers apisheet utc_now s)
      by (unfold due_timers; now rewrite Ht).
    unfold schedule. rewrite Hdue. auto. }
  apply objects_get_In in Hget. destruct Hget as [Hin HQ].
  apply andb_true_iff in HQ. destruct HQ as [Hc Hs].
  apply Z.eqb_eq in Hc. apply String.eqb_eq in Hs.
  apply objects_get_In in Hchar. destruct Hchar as [_ Hid]. apply Z.eqb_eq in Hid.
  split.
  - intros [Hsheet|Hdone]; [|congruence].
    assert (Hdue : due_timers apisheet utc_now (db r') = due_timers apisheet utc_now s).
    { unfold due_timers. rewrite Ht. apply save_timer_filter; auto.
      - rewrite Hs. destruct (String.eqb_spec (apisheet_of t) apisheet); [congruence|reflexivity].
      - simpl. rewrite Hs.
        destruct (String.eqb_spec (apisheet_of t) apisheet); [congruence|reflexivity]. }
    unfold schedule. now rewrite Hdue.
  - unfold schedule. simpl. rewrite !for_others_map. f_equal.
    unfold due_timers. rewrite !filter_twice, Ht. apply save_timer_filter; auto.
    + rewrite Hc, Hid, Z.eqb_refl. apply andb_false_r.
    + simpl. rewrite Hc, Hid, Z.eqb_refl. apply andb_false_r.
Qed.

Lemma run_changes_only_its_own_schedule_witness :
  ProcessWalletJournal_run 10 20
    (db (snd (run_task WalletTransactionsTask three_pages 5 1 db0)))
  = ProcessWalletJournal_run 10 20 db0.
Proof.
  apply (proj1 (run_changes_only_its_own_schedule WalletTransactionsTask three_pages 5 1 db0
                  (fst (run_task WalletTransactionsTask three_pages 5 1 db0))
                  (snd (run_task WalletTransactionsTask three_pages 5 1 db0))
                  ProcessWalletJournalCharacter "WalletJournal" 10 20
                  timers0_distinct (surjective_pairing _))).
  left. discriminate.
Defined.

(** X8. When a character is dispatched again.  After a completed run of an
    import task the periodic task of its sheet dispatches the character
    exactly when the [cachedUntil] of the last sheet the run received has
    passed; the dispatch expires an hour after the local time.  The
    primary keys of the timer table are assumed distinct. *)
Theorem completed_run_is_due_after_cachedUntil t E fuel character_id s r' :
  List.NoDup (map timer_id (api_timers s)) ->
  run_task t E fuel character_id s = (Completed, r') ->
  exists v, last_cachedUntil (calls r') = Some v /\
    forall utc_now now,
      In (mkDispatch (character_task_of t) character_id (now + 3600))
         (fst (scheduler_of t utc_now now (db r')))
      <-> v <= utc_now.
Proof.
  intros Hnd Hrun. apply task_timer_ok in Hrun. destruct Hrun as [_ Hdone].
  destruct (Hdone eq_refl Hnd) as (c & timer & Hchar & Hget & Hlast).
  exists (timer_nextupdate timer). split; [exact Hlast|].
  intros utc_now now.
  apply objects_get_In in Hchar. destruct Hchar as [_ Hid]. apply Z.eqb_eq in Hid.
  pose proof (objects_get_inr _ _ _ Hget) as Hone.
  apply objects_get_In in Hget. destruct Hget as [Hin HQ].
  apply andb_true_iff in HQ. destruct HQ as [Hc Hs]. apply Z.eqb_eq in Hc.
  assert (Hsched : scheduler_of t = schedule (character_task_of t) (apisheet_of t))
    by (destruct t; reflexivity).
  rewrite Hsched. unfold schedule, due_timers. simpl. rewrite in_map_iff. split.
  - intros (u & Hu & Hdue). injection Hu as Hu. apply filter_In in Hdue.
    destruct Hdue as [Huin Hdue]. apply andb_true_iff in Hdue. destruct Hdue as [Hus Hle].
    assert (Hu' : In u [timer]).
    { rewrite <- Hone. apply filter_In. split; [exact Huin|].
      rewrite Hu, Hid, Z.eqb_refl, Hus. reflexivity. }
    destruct Hu' as [<-|[]]. now apply Z.leb_le.
  - intros Hle. exists timer. split; [now rewrite Hc, Hid|].
    apply filter_In. split; [exact Hin|]. rewrite Hs. now apply Z.leb_le.
Qed.

Lemma completed_run_is_due_after_cachedUntil_witness :
  exists v,
    last_cachedUntil (calls (snd (run_task WalletTransactionsTask three_pages 5 1 db0)))
    = Some v /\
    forall utc_now now,
      In (mkDispatch ProcessWalletTransactionsCharacter 1 (now + 3600))
         (fst (ProcessWalletTransactions_run utc_now now
                 (db (snd (run_task WalletTransactionsTask three_pages 5 1 db0)))))
      <-> v <= utc_now.
Proof.
  apply (completed_run_is_due_after_cachedUntil WalletTransactionsTask three_pages 5 1 db0
           (snd (run_task WalletTransactionsTask three_pages 5 1 db0)) timers0_distinct).
  vm_compute. reflexivity.
Defined.

End Schedulers.

(** ** Pages whose rows the database accepts *)

Section AcceptedPages.
Import Tasks Inv TaskData.
Context (E : Env) (c : Character).

Lemma wt_page_accepting ts r :
  (forall t, In t ts -> utcfromtimestamp_raises (transactionDateTime t) = None) ->
  (forall s t, In t ts -> save_raises_mt E s (new_market_transaction c t) = None) ->
  wt_page E c ts r = wt_for E c (wt_existing_entries c (db r)) ts r true.
Proof.
  intros Hconv Hacc. unfold wt_page.
  destruct (wt_for_accepting E c (wt_existing_entries c (db r)) ts r true Hconv Hacc)
    as (r' & -> & _). reflexivity.
Qed.

Lemma wt_for_count ex ts : forall r w,
  (forall t, In t ts -> utcfromtimestamp_raises (transactionDateTime t) = None) ->
  (forall s t, In t ts -> save_raises_mt E s (new_market_transaction c t) = None) ->
  List.length (market_transactions (db (result_run (wt_for E c ex ts r w))))
  = (List.length (market_transactions (db r))
     + List.length (List.filter (fun t => negb (is_in (journalTransactionID t) ex)) ts))%nat.
Proof.
  induction ts as [|t ts IH]; intros r w Hconv Hacc; simpl; [lia|].
  assert (Hacc' : forall s t0, In t0 ts ->
            save_raises_mt E s (new_market_transaction c t0) = None)
    by (intros s t0 Ht0; apply Hacc; simpl; auto).
  assert (Hconv' : forall t0, In t0 ts ->
            utcfromtimestamp_raises (transactionDateTime t0) = None)
    by (intros t0 Ht0; apply Hconv; simpl; auto).
  destruct (is_in (journalTransactionID t) ex); simpl; [now apply IH|].
  rewrite (Hconv t) by (simpl; auto). rewrite (Hacc (db r) t) by (simpl; auto).
  rewrite IH; [|exact Hconv' | exact Hacc']. simpl. rewrite length_app. simpl. lia.
Qed.

Lemma wj_for_count ex ts : forall r w,
  (forall t, In t ts -> utcfromtimestamp_raises (jr_date t) = None) ->
  (forall s t, In t ts -> save_raises_je E s (new_journal_entry E c t) = None) ->
  List.length (journal_entries (db (result_run (wj_for E c ex ts r w))))
  = (List.length (journal_entries (db r))
     + List.length (List.filter (fun t => negb (is_in (refID t) ex)) ts))%nat.
Proof.
  induction ts as [|t ts IH]; intros r w Hconv Hacc; simpl; [lia|].
  assert (Hacc' : forall s t0, In t0 ts ->
            save_raises_je E s (new_journal_entry E c t0) = None)
    by (intros s t0 Ht0; apply Hacc; simpl; auto).
  assert (Hconv' : forall t0, In t0 ts -> utcfromtimestamp_raises (jr_date t0) = None)
    by (intros t0 Ht0; apply Hconv; simpl; auto).
  destruct (is_in (refID t) ex); simpl; [now apply IH|].
  rewrite (Hconv t) by (simpl; auto). rewrite (Hacc (db r) t) by (simpl; auto).
  rewrite IH; [|exact Hconv' | exact Hacc']. simpl. rewrite length_app. simpl. lia.
Qed.

(** X9. A page whose dates convert and whose rows the database accepts adds
    exactly one row per record whose id was not stored when the page
    started, and none for the others; a record that the page lists twice
    is therefore stored twice.  Stated for each wallet stream on its own. *)
Theorem accepted_page_adds_one_row_per_unknown_record r :
  (forall tpage,
      (forall t, In t tpage -> utcfromtimestamp_raises (transactionDateTime t) = None) ->
      (forall s t, In t tpage -> save_raises_mt E s (new_market_transaction c t) = None) ->
      List.length (market_transactions (db (result_run (wt_page E c tpage r))))
      = (List.length (market_transactions (db r))
         + List.length
             (List.filter (fun t => negb (is_in (journalTransactionID t)
                                                (wt_existing_entries c (db r)))) tpage))%nat) /\
  (forall jpage,
      (forall t, In t jpage -> utcfromtimestamp_raises (jr_date t) = None) ->
      (forall s t, In t jpage -> save_raises_je E s (new_journal_entry E c t) = None) ->
      List.length (journal_entries (db (result_run (wj_page E c jpage r))))
      = (List.length (journal_entries (db r))
         + List.length
             (List.filter (fun t => negb (is_in (refID t) (wj_existing_entries c (db r))))
                          jpage))%nat).
Proof.
  split.
  - intros tpage Htc Hta. rewrite wt_page_accepting by assumption. now apply wt_for_count.
  - intros jpage Hjc Hja. unfold wj_page. now apply wj_for_count.
Qed.

Lemma wt_for_all_known ex ts : forall r w,
  (forall t, In t ts -> is_in (journalTransactionID t) ex = true) ->
  wt_for E c ex ts r w = Finished r (match ts with [] => w | _ :: _ => false end).
Proof.
  induction ts as [|t ts IH]; intros r w Hall; simpl; [reflexivity|].
  rewrite (Hall t) by (simpl; auto).
  rewrite IH by (intros t0 Ht0; apply Hall; simpl; auto).
  destruct ts; reflexivity.
Qed.

Lemma wj_for_all_known ex ts : forall r w,
  (forall t, In t ts -> is_in (refID t) ex = true) ->
  wj_for E c ex ts r w = Finished r (match ts with [] => w | _ :: _ => false end).
Proof.
  induction ts as [|t ts IH]; intros r w Hall; simpl; [reflexivity|].
  rewrite (Hall t) by (simpl; auto).
  rewrite IH by (intros t0 Ht0; apply Hall; simpl; auto).
  destruct ts; reflexivity.
Qed.

(** X10. Processing a page a second time is harmless: after a non-empty
    page whose dates convert and whose rows the database accepts, every
    record of the page is known, so the same page, delivered again, stores
    nothing, logs nothing and ends the walk.  Stated for each wallet stream
    on its own. *)
Theorem accepted_page_again_changes_nothing r :
  (forall tpage,
      (forall t, In t tpage -> utcfromtimestamp_raises (transactionDateTime t) = None) ->
      (forall s t, In t tpage -> save_raises_mt E s (new_market_transaction c t) = None) ->
      tpage <> [] ->
      wt_page E c tpage (result_run (wt_page E c tpage r))
      = Finished (result_run (wt_page E c tpage r)) false) /\
  (forall jpage,
      (forall t, In t jpage -> utcfromtimestamp_raises (jr_date t) = None) ->
      (forall s t, In t jpage -> save_raises_je E s (new_journal_entry E c t) = None) ->
      jpage <> [] ->
      wj_page E c jpage (result_run (wj_page E c jpage r))
      = Finished (result_run (wj_page E c jpage r)) false).
Proof.
  split; [intros tpage Htc Hta Htne | intros jpage Hjc Hja Hjne].
  - rewrite (wt_page_accepting tpage r Htc Hta).
    destruct (wt_for_accepting E c (wt_existing_entries c (db r)) tpage r true Htc Hta)
      as (r1 & Hfor & Hincl & Hrows).
    rewrite Hfor. simpl. rewrite (wt_page_accepting tpage r1 Htc Hta).
    rewrite wt_for_all_known; [destruct tpage; [congruence | reflexivity]|].
    intros t Ht. apply is_in_true.
    destruct (is_in (journalTransactionID t) (wt_existing_entries c (db r))) eqn:Hk.
    + apply is_in_true in Hk. unfold wt_existing_entries, mt_of_character in *.
      apply in_map_iff in Hk. destruct Hk as (e & He & Hin). apply filter_In in Hin.
      apply in_map_iff. exists e. split; [exact He|]. apply filter_In.
      split; [apply Hincl|]; tauto.
    + destruct (Hrows t Ht Hk) as (e & Hin & Heq).
      unfold wt_existing_entries, mt_of_character.
      apply in_map_iff. exists e. split.
      * apply (f_equal mt_journal_transaction_id) in Heq. destruct e; exact Heq.
      * apply filter_In. split; [exact Hin|]. apply Z.eqb_eq.
        apply (f_equal mt_character) in Heq. destruct e; exact Heq.
  - unfold wj_page.
    destruct (wj_for_accepting E c (wj_existing_entries c (db r)) jpage r true Hjc Hja)
      as (r1 & Hfor & Hincl & Hrows).
    rewrite Hfor. simpl.
    rewrite wj_for_all_known; [destruct jpage; [congruence | reflexivity]|].
    intros t Ht. apply is_in_true.
    destruct (is_in (refID t) (wj_existing_entries c (db r))) eqn:Hk.
    + apply is_in_true in Hk. unfold wj_existing_entries, je_of_character in *.
      apply in_map_iff in Hk. destruct Hk as (e & He & Hin). apply filter_In in Hin.
      apply in_map_iff. exists e. split; [exact He|]. apply filter_In.
      split; [apply Hincl|]; tauto.
    + destruct (Hrows t Ht Hk) as (e & Hin & Heq).
      unfold wj_existing_entries, je_of_character.
      apply in_map_iff. exists e. split.
      * apply (f_equal je_ref_id) in Heq. destruct e; exact Heq.
      * apply filter_In. split; [exact Hin|]. apply Z.eqb_eq.
        apply (f_equal je_character) in Heq. destruct e; exact Heq.
Qed.

End AcceptedPages.

Section AcceptedPagesExamples.
Import Tasks Inv TaskData.

Lemma accepted_page_adds_one_row_per_unknown_record_witness :
  List.length (market_transactions
                 (db (result_run (wt_page quiet alice [tx 100; tx 101; tx 101]
                                          (mkRun db0 [] [])))))
  = 3%nat /\
  List.length (journal_entries
                 (db (result_run (wj_page quiet alice [jr 201 10; jr 200 10; jr 201 10]
                                          (mkRun db0 [] [])))))
  = 3%nat.
Proof.
  split.
  - refine (proj1 (accepted_page_adds_one_row_per_unknown_record quiet alice
                     (mkRun db0 [] [])) [tx 100; tx 101; tx 101] _ _).
    + intros t [<-|[<-|[<-|[]]]]; reflexivity.
    + reflexivity.
  - refine (proj2 (accepted_page_adds_one_row_per_unknown_record quiet alice
                     (mkRun db0 [] [])) [jr 201 10; jr 200 10; jr 201 10] _ _).
    + intros t [<-|[<-|[<-|[]]]]; reflexivity.
    + reflexivity.
Defined.

Lemma accepted_page_again_changes_nothing_witness :
  wt_page quiet alice [tx 100; tx 101]
          (result_run (wt_page quiet alice [tx 100; tx 101] (mkRun db0 [] [])))
  = Finished (result_run (wt_page quiet alice [tx 100; tx 101] (mkRun db0 [] []))) false /\
  wj_page quiet alice [jr 202 10; jr 201 10]
          (result_run (wj_page quiet alice [jr 202 10; jr 201 10] (mkRun db0 [] [])))
  = Finished (result_run (wj_page quiet alice [jr 202 10; jr 201 10] (mkRun db0 [] [])))
             false.
Proof.
  split.
  - refine (proj1 (accepted_page_again_changes_nothing quiet alice (mkRun db0 [] []))
                  [tx 100; tx 101] _ _ _).
    + intros t [<-|[<-|[]]]; reflexivity.
    + reflexivity.
    + discriminate.
  - refine (proj2 (accepted_page_again_changes_nothing quiet alice (mkRun db0 [] []))
                  [jr 202 10; jr 201 10] _ _ _).
    + intros t [<-|[<-|[]]]; reflexivity.
    + reflexivity.
    + discriminate.
Defined.

End AcceptedPagesExamples.

(** ** What a run leaves alone *)

Section Frames.
Import Tasks Inv TaskData Frame.
Context (E : Env).

Lemma wt_for_owner c ex ts : forall r w e,
  In e (market_transactions (db (result_run (wt_for E c ex ts r w)))) ->
  In e (market_transactions (db r)) \/ mt_character e = char_id c.
Proof.
  induction ts as [|t ts IH]; intros r w e; simpl; [auto|].
  destruct (is_in (journalTransactionID t) ex); [apply IH|].
  destruct (utcfromtimestamp_raises (transactionDateTime t)); [simpl; auto|].
  destruct (save_raises_mt E (db r) (new_market_transaction c t)) as [e0|].
  - destruct e0; simpl; auto. apply (IH (logged _ r) w).
  - intros Hin. apply IH in Hin. destruct Hin as [Hin|Hc]; [|auto].
    simpl in Hin. apply in_app_or in Hin. destruct Hin as [Hin|[<-|[]]]; auto.
Qed.

Lemma wt_remove_duplicates_subset c t r e :
  In e (market_transactions (db (wt_remove_duplicates c t r))) ->
  In e (market_transactions (db r)).
Proof.
  unfold wt_remove_duplicates. rewrite wt_delete_loop_table, delete_rows_filter.
  intros Hin. apply filter_In in Hin. tauto.
Qed.

Lemma wt_page_owner c ts r e :
  In e (market_transactions (db (result_run (wt_page E c ts r)))) ->
  In e (market_transactions (db r)) \/ mt_character e = char_id c.
Proof.
  unfold wt_page.
  pose proof (wt_for_owner c (wt_existing_entries c (db r)) ts r true e) as Hown.
  destruct (wt_for E c (wt_existing_entries c (db r)) ts r true) as [r1 w1|e0 t r1 w1];
    [exact Hown|].
  destruct e0; try exact Hown. simpl in *.
  intros Hin. apply Hown. now apply wt_remove_duplicates_subset in Hin.
Qed.

Lemma wt_appended_page c s0 ts r :
  wt_appended (char_id c) s0 (db r) ->
  wt_appended (char_id c) s0 (db (result_run (wt_page E c ts r))).
Proof.
  intros (Hf & Hg & Hown). destruct (wt_page_state E c ts r) as (_ & Hf' & Hg').
  split; [eapply only_mt_trans; eauto|]. split; [eapply grown_trans; eauto|].
  intros e He. apply wt_page_owner in He. destruct He as [He|He]; auto.
Qed.

Lemma wt_appended_iteration auth c s0 sheet r :
  wt_appended (char_id c) s0 (db r) ->
  wt_appended (char_id c) s0 (db (iter_run (wt_iteration E auth c sheet r))).
Proof.
  intros Hinv. unfold wt_iteration. destruct (rows sheet) as [|t0 ts0] eqn:Hrows; [exact Hinv|].
  rewrite <- Hrows. pose proof (wt_appended_page c s0 (rows sheet) r Hinv) as Hpage.
  destruct (wt_page E c (rows sheet) r) as [r1 [|]|e t r1 w1]; simpl in *; try exact Hpage.
  destruct (wt_oldest_id c (db r1)); [|exact Hpage].
  destruct (WalletTransactions E _ auth rowCount _) as [[]|]; exact Hpage.
Qed.

Lemma wt_appended_while auth c s0 fuel : forall sheet r,
  wt_appended (char_id c) s0 (db r) ->
  wt_appended (char_id c) s0 (db (snd (fst (wt_while E fuel auth c sheet r)))).
Proof.
  induction fuel as [|fuel IH]; intros sheet r Hinv; simpl; [exact Hinv|].
  pose proof (wt_appended_iteration auth c s0 sheet r Hinv) as Hit.
  destruct (wt_iteration E auth c sheet r) as [r1 sheet1|r1 sheet1|e r1]; simpl in *; auto.
Qed.

Lemma up_to_refl s : up_to_keys_and_timers s s.
Proof. destruct s; reflexivity. Qed.

Lemma up_to_keys s ks : up_to_keys_and_timers s (with_apikeys ks s).
Proof. destruct s; reflexivity. Qed.

Lemma up_to_update_timer c sheet cu r o r' :
  update_timer c sheet cu r = (o, r') ->
  up_to_keys_and_timers (db r) (db r') /\ apikeys (db r') = apikeys (db r).
Proof.
  intros Hupd. destruct (update_timer_kept _ _ _ _ _ _ Hupd) as (_ & _ & Hdb & _).
  rewrite <- Hdb. destruct (db r); split; reflexivity.
Qed.

Lemma run_frame_start (only : Store -> Store -> Prop) s o :
  only s s -> run_frame only s o (mkRun s [] []).
Proof. intros Hrefl. exists s. split; [exact Hrefl|]. split; [apply up_to_refl | reflexivity]. Qed.

Lemma run_frame_api_error (only : Store -> Store -> Prop) s ks calls0 log0 :
  only s s -> run_frame only s ApiErrorHandled (mkRun (with_apikeys ks s) calls0 log0).
Proof.
  intros Hrefl. exists s. split; [exact Hrefl|]. split; [apply up_to_keys | congruence].
Qed.

Lemma run_frame_raised (only : Store -> Store -> Prop) s s1 o r1 :
  only s s1 -> db r1 = s1 -> apikeys s1 = apikeys s -> run_frame only s o r1.
Proof.
  intros Honly Hdb Hk. exists s1. split; [exact Honly|]. rewrite Hdb.
  split; [apply up_to_refl | intros _; exact Hk].
Qed.

Lemma run_frame_timer (only : Store -> Store -> Prop) s c sheet cu r1 o r' :
  only s (db r1) -> apikeys (db r1) = apikeys s ->
  update_timer c sheet cu r1 = (o, r') -> run_frame only s o r'.
Proof.
  intros Honly Hk Hupd. destruct (up_to_update_timer _ _ _ _ _ _ Hupd) as [Hup Hk'].
  exists (db r1). split; [exact Honly|]. split; [exact Hup | intros _; congruence].
Qed.

Lemma wt_appended_refl i s : wt_appended i s s.
Proof. split; [apply only_mt_refl|]. split; [apply grown_refl | auto]. Qed.

Lemma wt_appended_keys i s s1 : wt_appended i s s1 -> apikeys s1 = apikeys s.
Proof. intros (Hf & _). rewrite <- Hf. reflexivity. Qed.

Lemma wt_run_frame fuel character_id s :
  run_frame (wt_appended character_id) s
            (fst (ProcessWalletTransactionsCharacter_run E fuel character_id s))
            (snd (ProcessWalletTransactionsCharacter_run E fuel character_id s)).
Proof.
  unfold ProcessWalletTransactionsCharacter_run.
  destruct (get_character character_id s) as [e|c] eqn:Hchar.
  { apply run_frame_start, wt_appended_refl. }
  apply objects_get_In in Hchar. destruct Hchar as [_ Hid]. apply Z.eqb_eq in Hid.
  destruct (get_valid_apikey c s) as [e|apikey].
  { destruct e; apply run_frame_start, wt_appended_refl. }
  destruct (WalletTransactions E 0 (authenticate apikey c) rowCount None) as [e|sheet].
  { destruct e; try (apply run_frame_start, wt_appended_refl).
    apply run_frame_api_error, wt_appended_refl. }
  pose proof (wt_appended_while (authenticate apikey c) c s fuel sheet
                (called None (Some (cachedUntil sheet)) (mkRun s [] [])))
    as Hwhile.
  rewrite Hid in Hwhile. specialize (Hwhile (wt_appended_refl _ _)).
  destruct (wt_while E fuel _ c sheet _) as [[o1 r1] sheet1]. simpl in Hwhile.
  pose proof (wt_appended_keys _ _ _ Hwhile) as Hk.
  destruct o1; try (solve [eapply run_frame_raised; eauto]).
  destruct (update_timer c "WalletTransactions" (cachedUntil sheet1) r1) as [o2 r2] eqn:Hupd.
  eapply run_frame_timer; eauto.
Qed.

Lemma wj_remove_duplicates_subset c t r e :
  In e (journal_entries (db (wj_remove_duplicates c t r))) ->
  In e (journal_entries (db r)).
Proof.
  unfold wj_remove_duplicates. rewrite wj_delete_loop_table, delete_rows_filter.
  intros Hin. apply filter_In in Hin. tauto.
Qed.

Lemma wj_for_owner c ex ts : forall r w e,
  In e (journal_entries (db (result_run (wj_for E c ex ts r w)))) ->
  In e (journal_entries (db r)) \/ je_character e = char_id c.
Proof.
  induction ts as [|t ts IH]; intros r w e; simpl; [auto|].
  destruct (is_in (refID t) ex); [apply IH|].
  destruct (utcfromtimestamp_raises (jr_date t)); [simpl; auto|].
  destruct (save_raises_je E (db r) (new_journal_entry E c t)) as [e0|].
  - destruct e0; simpl; auto. intros Hin. apply IH in Hin.
    destruct Hin as [Hin|Hc]; [|auto]. left. now apply wj_remove_duplicates_subset in Hin.
  - intros Hin. apply IH in Hin. destruct Hin as [Hin|Hc]; [|auto].
    simpl in Hin. apply in_app_or in Hin. destruct Hin as [Hin|[<-|[]]]; auto.
Qed.

Lemma wj_appended_page c s0 ts r :
  wj_appended (char_id c) s0 (db r) ->
  wj_appended (char_id c) s0 (db (result_run (wj_page E c ts r))).
Proof.
  intros (Hf & Hg & Hown). destruct (wj_page_state E c ts r) as (_ & Hf' & Hg').
  split; [eapply only_je_trans; eauto|]. split; [eapply grown_trans; eauto|].
  intros e He. unfold wj_page in He. apply wj_for_owner in He. destruct He as [He|He]; auto.
Qed.

Lemma wj_appended_iteration auth c s0 sheet r :
  wj_appended (char_id c) s0 (db r) ->
  wj_appended (char_id c) s0 (db (iter_run (wj_iteration E auth c sheet r))).
Proof.
  intros Hinv. unfold wj_iteration. destruct (rows sheet) as [|t0 ts0] eqn:Hrows; [exact Hinv|].
  rewrite <- Hrows. pose proof (wj_appended_page c s0 (rows sheet) r Hinv) as Hpage.
  destruct (wj_page E c (rows sheet) r) as [r1 [|]|e t r1 w1]; simpl in *; try exact Hpage.
  destruct (wj_oldest_id c (db r1)); [|exact Hpage].
  destruct (WalletJournal E _ auth rowCount _) as [[]|]; exact Hpage.
Qed.

Lemma wj_appended_while auth c s0 fuel : forall sheet r,
  wj_appended (char_id c) s0 (db r) ->
  wj_appended (char_id c) s0 (db (snd (fst (wj_while E fuel auth c sheet r)))).
Proof.
  induction fuel as [|fuel IH]; intros sheet r Hinv; simpl; [exact Hinv|].
  pose proof (wj_appended_iteration auth c s0 sheet r Hinv) as Hit.
  destruct (wj_iteration E auth c sheet r) as [r1 sheet1|r1 sheet1|e r1]; simpl in *; auto.
Qed.

Lemma wj_appended_refl i s : wj_appended i s s.
Proof. split; [apply only_je_refl|]. split; [apply grown_refl | auto]. Qed.

Lemma wj_appended_keys i s s1 : wj_appended i s s1 -> apikeys s1 = apikeys s.
Proof. intros (Hf & _). rewrite <- Hf. reflexivity. Qed.

Lemma wj_run_frame fuel character_id s :
  run_frame (wj_appended character_id) s
            (fst (ProcessWalletJournalCharacter_run E fuel character_id s))
            (snd (ProcessWalletJournalCharacter_run E fuel character_id s)).
Proof.
  unfold ProcessWalletJournalCharacter_run.
  destruct (get_character character_id s) as [e|c] eqn:Hchar.
  { apply run_frame_start, wj_appended_refl. }
  apply objects_get_In in Hchar. destruct Hchar as [_ Hid]. apply Z.eqb_eq in Hid.
  destruct (get_valid_apikey c s) as [e|apikey].
  { destruct e; apply run_frame_start, wj_appended_refl. }
  destruct (WalletJournal E 0 (authenticate apikey c) rowCount None) as [e|sheet].
  { destruct e; try (apply run_frame_start, wj_appended_refl).
    apply run_frame_api_error, wj_appended_refl. }
  pose proof (wj_appended_while (authenticate apikey c) c s fuel sheet
                (called None (Some (cachedUntil sheet)) (mkRun s [] [])))
    as Hwhile.
  rewrite Hid in Hwhile. specialize (Hwhile (wj_appended_refl _ _)).
  destruct (wj_while E fuel _ c sheet _) as [[o1 r1] sheet1]. simpl in Hwhile.
  pose proof (wj_appended_keys _ _ _ Hwhile) as Hk.
  destruct o1; try (solve [eapply run_frame_raised; eauto]).
  destruct (update_timer c "WalletJournal" (cachedUntil sheet1) r1) as [o2 r2] eqn:Hupd.
  eapply run_frame_timer; eauto.
Qed.

(** The research and order tasks. *)
Lemma only_research_refl s : only_research s s.
Proof. destruct s; reflexivity. Qed.

Lemma only_research_trans s1 s2 s3 :
  only_research s1 s2 -> only_research s2 s3 -> only_research s1 s3.
Proof. unfold only_research. intros <- <-. destruct s1; reflexivity. Qed.

Lemma only_orders_refl s : only_orders s s.
Proof. destruct s; reflexivity. Qed.

Lemma only_orders_trans s1 s2 s3 :
  only_orders s1 s2 -> only_orders s2 s3 -> only_orders s1 s3.
Proof. unfold only_orders. intros <- <-. destruct s1; reflexivity. Qed.

Lemma rs_for_only_research c jobs : forall r,
  only_research (db r) (db (state_of (rs_for E c jobs r))).
Proof.
  induction jobs as [|job rest IH]; intros r; simpl; [apply only_research_refl|].
  destruct (utcfromtimestamp_raises (researchStartDate job)); simpl;
    [apply only_research_refl|].
  destruct (save_raises_rs E (db r) (new_research c job)); simpl;
    [apply only_research_refl|].
  eapply only_research_trans; [|apply IH]. simpl. destruct (db r); reflexivity.
Qed.

Lemma mo_order_only_orders order r :
  match mo_order E order r with
  | inl (_, r') => only_orders (db r) (db r')
  | inr (_, r') => only_orders (db r) (db r')
  end.
Proof.
  assert (Hsave : forall o, only_orders (db r) (db (save_order o r)))
    by (intros o; simpl; destruct (db r); reflexivity).
  assert (Hcreate : match mo_create_order E order r with
                    | inl (_, r') | inr (_, r') => only_orders (db r) (db r')
                    end).
  { unfold mo_create_order.
    destruct (objects_get _ (stations (db r))) as [e|station]; [apply only_orders_refl|].
    destruct (utcfromtimestamp_raises (issued order)); [apply only_orders_refl|].
    destruct (save_raises_ord E (db r) _) as [e|]; [|apply Hsave].
    destruct e; apply only_orders_refl. }
  unfold mo_order.
  destruct (objects_get _ (orders (db r))) as [e|db_order].
  - destruct e; try apply only_orders_refl. exact Hcreate.
  - destruct (save_raises_ord E (db r) _) as [e|]; [|apply Hsave].
    destruct e; try apply only_orders_refl. exact Hcreate.
Qed.

Lemma mo_market_order_only_orders c order r :
  only_orders (db r) (db (state_of (mo_market_order E c order r))).
Proof.
  assert (Hsave : forall m, only_orders (db r) (db (save_market_order m r)))
    by (intros m; simpl; destruct (db r); reflexivity).
  assert (Hcreate : only_orders (db r) (db (state_of (mo_create_market_order E c order r)))).
  { unfold mo_create_market_order.
    destruct (save_raises_mo E (db r) _); [apply only_orders_refl | apply Hsave]. }
  unfold mo_market_order.
  destruct (objects_get _ (market_orders (db r))) as [e|m].
  - destruct e; try apply only_orders_refl. exact Hcreate.
  - destruct (save_raises_mo E (db r) _) as [e|]; [|apply Hsave].
    destruct e; try apply only_orders_refl. exact Hcreate.
Qed.

Lemma mo_for_only_orders c order_rows : forall r,
  only_orders (db r) (db (state_of (mo_for E c order_rows r))).
Proof.
  induction order_rows as [|order rest IH]; intros r; simpl; [apply only_orders_refl|].
  pose proof (mo_order_only_orders order r) as Hord.
  destruct (mo_order E order r) as [[e r1]|[[|] r1]]; simpl; auto.
  - pose proof (mo_market_order_only_orders c order r1) as Hmo.
    destruct (mo_market_order E c order r1) as [[e r2]|r2]; simpl in *.
    + eapply only_orders_trans; eauto.
    + eapply only_orders_trans; [|apply IH]. eapply only_orders_trans; eauto.
  - eapply only_orders_trans; [|apply IH]. exact Hord.
Qed.

Lemma mo_run_frame character_id s :
  run_frame only_orders s
            (fst (ProcessMarketOrdersCharacter_run E character_id s))
            (snd (ProcessMarketOrdersCharacter_run E character_id s)).
Proof.
  unfold ProcessMarketOrdersCharacter_run.
  destruct (get_character character_id s) as [e|c].
  { apply run_frame_start, only_orders_refl. }
  destruct (get_valid_apikey c s) as [e|apikey].
  { destruct e; apply run_frame_start, only_orders_refl. }
  destruct (MarketOrders E (authenticate apikey c)) as [e|sheet].
  { destruct e; try (apply run_frame_start, only_orders_refl).
    apply run_frame_api_error, only_orders_refl. }
  pose proof (mo_for_only_orders c (rows sheet)
                (called None (Some (cachedUntil sheet)) (mkRun s [] []))) as Hfor.
  assert (Hk : forall s1, only_orders s s1 -> apikeys s1 = apikeys s)
    by (intros s1 <-; reflexivity).
  destruct (mo_for E c (rows sheet) _) as [[e r1]|r1]; simpl in Hfor.
  - eapply run_frame_raised; eauto.
  - destruct (update_timer c "MarketOrders" (cachedUntil sheet) r1) as [o2 r2] eqn:Hupd.
    eapply run_frame_timer; eauto.
Qed.

Lemma rs_run_frame character_id s :
  run_frame only_research s
            (fst (ProcessResearchCharacter_run E character_id s))
            (snd (ProcessResearchCharacter_run E character_id s)).
Proof.
  unfold ProcessResearchCharacter_run.
  destruct (get_character character_id s) as [e|c].
  { apply run_frame_start, only_research_refl. }
  destruct (get_valid_apikey c s) as [e|apikey].
  { destruct e; apply run_frame_start, only_research_refl. }
  destruct (ResearchSheet E (authenticate apikey c)) as [e|sheet].
  { destruct e; try (apply run_frame_start, only_research_refl).
    apply run_frame_api_error, only_research_refl. }
  pose proof (rs_for_only_research c (rows sheet)
                (with_db (delete_research_of c s)
                         (called None (Some (cachedUntil sheet)) (mkRun s [] [])))) as Hfor.
  assert (Hdel : only_research s (delete_research_of c s))
    by (destruct s; reflexivity).
  simpl in Hfor. pose proof (only_research_trans _ _ _ Hdel Hfor) as Hall.
  assert (Hk : forall s1, only_research s s1 -> apikeys s1 = apikeys s)
    by (intros s1 <-; reflexivity).
  destruct (rs_for E c (rows sheet) _) as [[e r1]|r1]; simpl in Hall.
  - eapply run_frame_raised; eauto.
  - destruct (update_timer c "Research" (cachedUntil sheet) r1) as [o2 r2] eqn:Hupd.
    eapply run_frame_timer; eauto.
Qed.

End Frames.

Section FrameProperties.
Import Tasks Inv TaskData Frame.

Lemma up_to_tables s1 s' :
  up_to_keys_and_timers s1 s' ->
  characters s' = characters s1 /\ market_transactions s' = market_transactions s1 /\
  journal_entries s' = journal_entries s1 /\ research s' = research s1 /\
  stations s' = stations s1 /\ orders s' = orders s1 /\
  market_orders s' = market_orders s1.
Proof. intros <-. repeat split; reflexivity. Qed.

Lemma task_run_frame t E fuel character_id s :
  exists s1,
    up_to_keys_and_timers s1 (db (snd (run_task t E fuel character_id s))) /\
    (fst (run_task t E fuel character_id s) <> ApiErrorHandled ->
     apikeys (db (snd (run_task t E fuel character_id s))) = apikeys s) /\
    foreign_tables_kept t s s1.
Proof.
  destruct t; simpl.
  - destruct (wt_run_frame E fuel character_id s) as (s1 & (Hf & _) & Hup & Hk).
    exists s1. split; [exact Hup|]. split; [exact Hk|]. rewrite <- Hf. repeat split.
  - destruct (wj_run_frame E fuel character_id s) as (s1 & (Hf & _) & Hup & Hk).
    exists s1. split; [exact Hup|]. split; [exact Hk|]. rewrite <- Hf. repeat split.
  - destruct (mo_run_frame E character_id s) as (s1 & Hf & Hup & Hk).
    exists s1. split; [exact Hup|]. split; [exact Hk|]. rewrite <- Hf. repeat split.
  - destruct (rs_run_frame E character_id s) as (s1 & Hf & Hup & Hk).
    exists s1. split; [exact Hup|]. split; [exact Hk|]. rewrite <- Hf. repeat split.
Qed.

(** X11. What a run never touches.  Whatever the remote side and the
    database do and however the run ends, a run of an import task leaves
    the characters, the stations and the tables of the other import tasks
    exactly as they were, and it leaves the key table as it was unless it
    ends in the handler of an API error. *)
Theorem run_leaves_foreign_tables t E fuel character_id s :
  foreign_tables_kept t s (db (snd (run_task t E fuel character_id s))) /\
  (fst (run_task t E fuel character_id s) <> ApiErrorHandled ->
   apikeys (db (snd (run_task t E fuel character_id s))) = apikeys s).
Proof.
  destruct (task_run_frame t E fuel character_id s) as (s1 & Hup & Hk & Hkept).
  split; [|exact Hk].
  apply up_to_tables in Hup.
  destruct Hup as (Hc & Hmt & Hje & Hrs & Hst & Hord & Hmo).
  destruct Hkept as (Hc1 & Hst1 & Hrest).
  split; [congruence|]. split; [congruence|].
  destruct t; simpl in *; intuition congruence.
Qed.

Lemma grown_appended {A} (pk : A -> Z) (own : A -> Prop) t0 t :
  grown pk t0 t -> (forall e, In e t -> In e t0 \/ own e) ->
  exists added, t = t0 ++ added /\ Forall own added.
Proof.
  intros (added & -> & Hnew) Hown. exists added. split; [reflexivity|].
  apply Forall_forall. intros e He.
  destruct (Hown e (in_or_app _ _ _ (or_intror He))) as [Hin|Ho]; [|exact Ho].
  rewrite Forall_forall in Hnew. specialize (Hnew e He).
  pose proof (max_pk_ge pk t0 e Hin). lia.
Qed.

(** X12. The wallet walkers only append.  Whatever the remote side and the
    database do and however the run ends, the rows stored before a run of
    a wallet walker are still stored afterwards, unchanged and in place,
    and every row the run leaves behind them belongs to the character of
    the run: no row of another character is added, changed or deleted. *)
Theorem wallet_runs_only_append_own_rows E fuel character_id s :
  (exists added,
     market_transactions
       (db (snd (ProcessWalletTransactionsCharacter_run E fuel character_id s)))
     = market_transactions s ++ added /\
     Forall (fun e => mt_character e = character_id) added) /\
  (exists added,
     journal_entries (db (snd (ProcessWalletJournalCharacter_run E fuel character_id s)))
     = journal_entries s ++ added /\
     Forall (fun e => je_character e = character_id) added).
Proof.
  split.
  - destruct (wt_run_frame E fuel character_id s) as (s1 & (_ & Hg & Hown) & Hup & _).
    apply up_to_tables in Hup. destruct Hup as (_ & -> & _).
    now apply (grown_appended mt_id).
  - destruct (wj_run_frame E fuel character_id s) as (s1 & (_ & Hg & Hown) & Hup & _).
    apply up_to_tables in Hup. destruct Hup as (_ & _ & -> & _).
    now apply (grown_appended je_id).
Qed.

End FrameProperties.

(** ** Pages whose rows the database rejects *)

Section RejectedPages.
Import Tasks Inv TaskData MoreData.

Lemma wt_for_rejecting E c ex ts : forall r w,
  (forall t, In t ts -> is_in (journalTransactionID t) ex = false) ->
  (forall t, In t ts -> utcfromtimestamp_raises (transactionDateTime t) = None) ->
  (forall s t, In t ts ->
     save_raises_mt E s (new_market_transaction c t) = Some IntegrityError) ->
  wt_for E c ex ts r w
  = Finished (mkRun (db r) (calls r)
                    (log r ++ map (fun t => WarnIntegrityError (tr_typeID t)
                                                               (journalTransactionID t)) ts))
             w.
Proof.
  induction ts as [|t ts IH]; intros r w Hnew Hconv Hrej; simpl.
  - rewrite app_nil_r. destruct r; reflexivity.
  - rewrite (Hnew t) by (simpl; auto). rewrite (Hconv t) by (simpl; auto).
    rewrite (Hrej (db r) t) by (simpl; auto).
    rewrite IH;
      [| intros; apply Hnew; simpl; auto | intros; apply Hconv; simpl; auto
       | intros; apply Hrej; simpl; auto].
    simpl. now rewrite <- app_assoc.
Qed.

Lemma wt_page_rejecting E c ts r :
  (forall t, In t ts ->
     is_in (journalTransactionID t) (wt_existing_entries c (db r)) = false) ->
  (forall t, In t ts -> utcfromtimestamp_raises (transactionDateTime t) = None) ->
  (forall s t, In t ts ->
     save_raises_mt E s (new_market_transaction c t) = Some IntegrityError) ->
  wt_page E c ts r
  = Finished (mkRun (db r) (calls r)
                    (log r ++ map (fun t => WarnIntegrityError (tr_typeID t)
                                                               (journalTransactionID t)) ts))
             true.
Proof. intros Hnew Hconv Hrej. unfold wt_page. now rewrite wt_for_rejecting. Qed.

(** X13. A first import in which the database rejects every record of the
    first page, the dates of the records and the [cachedUntil] of the page
    being convertible.  Nothing is stored for the character, so the cursor
    for the next page cannot be computed; the walker catches the
    [IndexError], logs it, and the run completes: one request was made, no
    row was stored, every record was logged as skipped, and the timer is
    set to the [cachedUntil] of the page. *)
Theorem rejected_first_page_completes_empty E fuel character_id s c apikey sheet timer :
  get_character character_id s = inr c ->
  get_valid_apikey c s = inr apikey ->
  WalletTransactions E 0 (authenticate apikey c) rowCount None = inr sheet ->
  rows sheet <> [] ->
  mt_of_character c s = [] ->
  (forall t, In t (rows sheet) ->
     utcfromtimestamp_raises (transactionDateTime t) = None) ->
  utcfromtimestamp_raises (cachedUntil sheet) = None ->
  (forall s' t, In t (rows sheet) ->
     save_raises_mt E s' (new_market_transaction c t) = Some IntegrityError) ->
  get_timer c "WalletTransactions" s = inr timer ->
  ProcessWalletTransactionsCharacter_run E (S fuel) character_id s
  = (Completed,
     mkRun (with_api_timers
              (save_row timer_id (timer_with_nextupdate (cachedUntil sheet) timer)
                        (api_timers s)) s)
           [mkCall None s (Some (cachedUntil sheet))]
           (map (fun t => WarnIntegrityError (tr_typeID t) (journalTransactionID t))
                (rows sheet)
            ++ [ErrIndexError (char_id c)])).
Proof.
  intros Hchar Hkey Hsheet Hne Hempty Hconv Hcached Hrej Htimer.
  unfold ProcessWalletTransactionsCharacter_run. rewrite Hchar, Hkey, Hsheet.
  cbn [wt_while]. unfold wt_iteration.
  destruct (rows sheet) as [|t0 ts0] eqn:Hrows; [congruence|]. rewrite <- Hrows in *.
  rewrite wt_page_rejecting; [|simpl; unfold wt_existing_entries; rewrite Hempty;
                               reflexivity | exact Hconv | exact Hrej].
  unfold wt_oldest_id. cbn [db called]. rewrite Hempty. cbn [oldest_by option_map].
  unfold update_timer. unfold get_timer in Htimer. simpl. rewrite Htimer, Hcached.
  reflexivity.
Qed.

Lemma rejected_first_page_completes_empty_witness :
  ProcessWalletTransactionsCharacter_run unknown_types_only 1 1 db_no_history
  = (Completed,
     mkRun (with_api_timers
              (save_row timer_id
                        (timer_with_nextupdate 7000 (mkAPITimer 1 1 "WalletTransactions" 0))
                        timers0) db_no_history)
           [mkCall None db_no_history (Some 7000)]
           [WarnIntegrityError 999 101; ErrIndexError 1]).
Proof.
  refine (rejected_first_page_completes_empty unknown_types_only 0 1 db_no_history
            alice alice_key (mkSheet [tx_of_unknown_type 101] 7000)
            (mkAPITimer 1 1 "WalletTransactions" 0) _ _ _ _ _ _ _ _ _);
    try reflexivity.
  - discriminate.
  - intros t [<-|[]]. reflexivity.
  - intros s' t [<-|[]]. reflexivity.
Defined.

Lemma wt_while_rejected E auth c sheet s fuel : forall r,
  (forall n fromID, WalletTransactions E n auth rowCount fromID = inr sheet) ->
  rows sheet <> [] ->
  (forall t, In t (rows sheet) ->
     is_in (journalTransactionID t) (wt_existing_entries c s) = false) ->
  (forall t, In t (rows sheet) ->
     utcfromtimestamp_raises (transactionDateTime t) = None) ->
  (forall s' t, In t (rows sheet) ->
     save_raises_mt E s' (new_market_transaction c t) = Some IntegrityError) ->
  mt_of_character c s <> [] ->
  db r = s ->
  exists r', wt_while E fuel auth c sheet r = (OutOfFuel, r', sheet) /\
             db r' = s /\ List.length (calls r') = (List.length (calls r) + fuel)%nat.
Proof.
  induction fuel as [|fuel IH]; intros r Hsheet Hne Hnew Hconv Hrej Hhist Hdb; simpl.
  - exists r. split; [reflexivity|]. split; [exact Hdb | lia].
  - unfold wt_iteration.
    destruct (rows sheet) as [|t0 ts0] eqn:Hrows; [congruence|]. rewrite <- Hrows in *.
    rewrite wt_page_rejecting; [|rewrite Hdb; exact Hnew | exact Hconv | exact Hrej].
    unfold wt_oldest_id. cbn [db]. rewrite Hdb.
    destruct (oldest_by_some mt_date (mt_of_character c s) Hhist) as (x & ->).
    cbn [option_map]. rewrite Hsheet.
    match goal with |- context [wt_while E fuel auth c sheet ?r1] =>
      destruct (IH r1 Hsheet Hne Hnew Hconv Hrej Hhist) as (r' & Hrun & Hdb' & Hlen);
        [simpl; auto|]
    end.
    exists r'. split; [exact Hrun|]. split; [exact Hdb'|].
    rewrite Hlen. simpl. rewrite length_app. simpl. lia.
Qed.

(** X14. A walk need not end.  When the remote side keeps answering with
    the same non-empty page of records that are not stored and whose dates
    convert, and the database rejects every one of them, then nothing is
    ever stored, the
    cursor stays where it is and every pass of the loop makes the same
    request again: for every bound on the number of passes the loop is
    still running when the bound is reached, having made one more request
    than passes.  (The character has stored history, so that the cursor
    can be computed.) *)
Theorem walk_over_rejected_page_never_ends E character_id s c apikey sheet :
  get_character character_id s = inr c ->
  get_valid_apikey c s = inr apikey ->
  (forall n fromID,
     WalletTransactions E n (authenticate apikey c) rowCount fromID = inr sheet) ->
  rows sheet <> [] ->
  (forall t, In t (rows sheet) ->
     is_in (journalTransactionID t) (wt_existing_entries c s) = false) ->
  (forall t, In t (rows sheet) ->
     utcfromtimestamp_raises (transactionDateTime t) = None) ->
  (forall s' t, In t (rows sheet) ->
     save_raises_mt E s' (new_market_transaction c t) = Some IntegrityError) ->
  mt_of_character c s <> [] ->
  forall fuel,
    fst (ProcessWalletTransactionsCharacter_run E fuel character_id s) = OutOfFuel /\
    db (snd (ProcessWalletTransactionsCharacter_run E fuel character_id s)) = s /\
    List.length (calls (snd (ProcessWalletTransactionsCharacter_run E fuel character_id s)))
    = S fuel.
Proof.
  intros Hchar Hkey Hsheet Hne Hnew Hconv Hrej Hhist fuel.
  unfold ProcessWalletTransactionsCharacter_run. rewrite Hchar, Hkey, Hsheet.
  destruct (wt_while_rejected E (authenticate apikey c) c sheet s fuel
              (called None (Some (cachedUntil sheet)) (mkRun s [] []))
              Hsheet Hne Hnew Hconv Hrej Hhist eq_refl) as (r' & -> & Hdb & Hlen).
  simpl. split; [reflexivity|]. split; [exact Hdb|]. rewrite Hlen. reflexivity.
Qed.

Lemma walk_over_rejected_page_never_ends_witness :
  fst (ProcessWalletTransactionsCharacter_run unknown_types_only 7 1 db0) = OutOfFuel /\
  db (snd (ProcessWalletTransactionsCharacter_run unknown_types_only 7 1 db0)) = db0 /\
  List.length
    (calls (snd (ProcessWalletTransactionsCharacter_run unknown_types_only 7 1 db0)))
  = 8%nat.
Proof.
  refine (walk_over_rejected_page_never_ends unknown_types_only 1 db0 alice alice_key
            (mkSheet [tx_of_unknown_type 101] 7000) _ _ _ _ _ _ _ _ 7%nat);
    try reflexivity.
  - discriminate.
  - intros t [<-|[]]. reflexivity.
  - intros t [<-|[]]. reflexivity.
  - intros s' t [<-|[]]. reflexivity.
  - discriminate.
Defined.

End RejectedPages.

(** ** Research and market orders: failures and leftovers *)

Section ResearchFailure.
Import Tasks Inv TaskData OrderData.

Lemma rs_for_fails_at E c done job rest e : forall r,
  (forall j, In j (done ++ [job]) ->
     utcfromtimestamp_raises (researchStartDate j) = None) ->
  (forall s' j, In j done -> save_raises_rs E s' (new_research c j) = None) ->
  (forall s', save_raises_rs E s' (new_research c job) = Some e) ->
  exists r' added,
    rs_for E c (done ++ job :: rest) r = inl (e, r') /\
    research (db r') = research (db r) ++ added /\
    map (rs_with_id 0) added = map (new_research c) done /\
    Forall (fun a => rs_character a = char_id c) added.
Proof.
  induction done as [|j done IH]; intros r Hconv Hdone Hjob; simpl.
  - rewrite (Hconv job) by (simpl; auto).
    rewrite Hjob. exists r, []. rewrite app_nil_r. auto.
  - rewrite (Hconv j) by (simpl; auto). rewrite (Hdone (db r) j) by (simpl; auto).
    destruct (IH (with_db (insert_research (new_research c j) (db r)) r))
      as (r' & added & Hfor & Heq & Hmap & Hall);
      [intros; apply Hconv; simpl; auto | intros; apply Hdone; simpl; auto | exact Hjob |].
    exists r', (rs_with_id (next_id rs_id (research (db r))) (new_research c j) :: added).
    split; [exact Hfor|]. split; [|split].
    + rewrite Heq. simpl. now rewrite <- app_assoc.
    + simpl. now rewrite Hmap.
    + constructor; [reflexivity | exact Hall].
Qed.

(** X15. The research import is not atomic.  The rows of the character
    are deleted before the jobs of the sheet are saved, and nothing is
    caught in between: when the database rejects the row of a job (the
    start dates of that job and of the jobs before it being convertible),
    the exception ends the run, the character is left with the rows of the
    jobs that precede it in the sheet and with none of the rows stored
    before, the rows of other characters are untouched, and the timer is
    not advanced. *)
Theorem research_save_failure_loses_old_rows E character_id s c apikey sheet
        done job rest e :
  get_character character_id s = inr c ->
  get_valid_apikey c s = inr apikey ->
  ResearchSheet E (authenticate apikey c) = inr sheet ->
  rows sheet = done ++ job :: rest ->
  (forall j, In j (done ++ [job]) ->
     utcfromtimestamp_raises (researchStartDate j) = None) ->
  (forall s' j, In j done -> save_raises_rs E s' (new_research c j) = None) ->
  (forall s', save_raises_rs E s' (new_research c job) = Some e) ->
  fst (ProcessResearchCharacter_run E character_id s) = Raised e /\
  map (rs_with_id 0)
      (List.filter (fun x => rs_character x =? char_id c)
                   (research (db (snd (ProcessResearchCharacter_run E character_id s)))))
  = map (new_research c) done /\
  List.filter (fun x => negb (rs_character x =? char_id c))
              (research (db (snd (ProcessResearchCharacter_run E character_id s))))
  = List.filter (fun x => negb (rs_character x =? char_id c)) (research s) /\
  api_timers (db (snd (ProcessResearchCharacter_run E character_id s))) = api_timers s.
Proof.
  intros Hchar Hkey Hsheet Hrows Hconv Hdone Hjob. unfold ProcessResearchCharacter_run.
  rewrite Hchar, Hkey, Hsheet, Hrows.
  pose proof (rs_for_state E c (done ++ job :: rest)
                (with_db (delete_research_of c s)
                         (called None (Some (cachedUntil sheet)) (mkRun s [] [])))) as [_ Ht].
  destruct (rs_for_fails_at E c done job rest e
              (with_db (delete_research_of c s)
                       (called None (Some (cachedUntil sheet)) (mkRun s [] [])))
              Hconv Hdone Hjob)
    as (r' & added & Hfor & Heq & Hmap & Hall).
  rewrite Hfor in *. simpl in *. rewrite Forall_forall in Hall.
  split; [reflexivity|]. rewrite Heq. split; [|split].
  - rewrite List.filter_app, filter_filter_negb. simpl.
    rewrite filter_all; [exact Hmap|].
    intros x Hx. apply Z.eqb_eq. now apply Hall.
  - rewrite List.filter_app, filter_idem.
    rewrite (filter_none _ added); [now rewrite app_nil_r|].
    intros x Hx. apply negb_false_iff, Z.eqb_eq. now apply Hall.
  - rewrite Ht. destruct s; reflexivity.
Qed.

Lemma research_save_failure_loses_old_rows_witness :
  fst (ProcessResearchCharacter_run second_job_rejected 1 db_research)
  = Raised IntegrityError /\
  map (rs_with_id 0)
      (List.filter (fun x => rs_character x =? 1)
         (research (db (snd (ProcessResearchCharacter_run second_job_rejected 1
                                                           db_research)))))
  = [new_research alice (mkResearchRow 3040 14 80 7 1)].
Proof.
  refine ((fun H => conj (proj1 H) (proj1 (proj2 H)))
            (research_save_failure_loses_old_rows second_job_rejected 1 db_research
               alice alice_key research_sheet
               [mkResearchRow 3040 14 80 7 1] (mkResearchRow 3050 15 90 8 2) []
               IntegrityError _ _ _ _ _ _ _)); try reflexivity.
  - intros j [<-|[<-|[]]]; reflexivity.
  - intros s' j [<-|[]]. reflexivity.
Defined.

End ResearchFailure.

Section OrdersLeftovers.
Import Tasks Inv TaskData OrderData Frame.

Lemma save_row_keeps {A} (pk : A -> Z) x table y :
  In y table -> pk y <> pk x -> In y (save_row pk x table).
Proof.
  intros Hin Hne. unfold save_row.
  destruct (existsb (fun r => pk r =? pk x) table); [|apply in_or_app; auto].
  apply in_map_iff. exists y. split; [|exact Hin].
  destruct (Z.eqb_spec (pk y) (pk x)); [contradiction | reflexivity].
Qed.

Lemma save_row_In {A} (pk : A -> Z) x table y :
  In y (save_row pk x table) -> In y table \/ y = x.
Proof.
  unfold save_row. destruct (existsb (fun r => pk r =? pk x) table).
  - intros Hin. apply in_map_iff in Hin. destruct Hin as (z & Hz & Hin).
    destruct (pk z =? pk x); subst; auto.
  - intros Hin. apply in_app_or in Hin. destruct Hin as [Hin|[<-|[]]]; auto.
Qed.

Lemma save_row_has {A} (pk : A -> Z) x table : In x (save_row pk x table).
Proof.
  unfold save_row. destruct (existsb (fun r => pk r =? pk x) table) eqn:Hex.
  - apply existsb_exists in Hex. destruct Hex as (y & Hy & Heq).
    apply in_map_iff. exists y. rewrite Heq. auto.
  - apply in_or_app. right. left. reflexivity.
Qed.

Lemma orders_step_refl ids r : orders_step_ok ids r r.
Proof. repeat split; auto. Qed.

Lemma orders_step_log ids r m : orders_step_ok ids r (logged m r).
Proof. repeat split; auto. Qed.

Lemma orders_step_trans ids r1 r2 r3 :
  orders_step_ok ids r1 r2 -> orders_step_ok ids r2 r3 -> orders_step_ok ids r1 r3.
Proof.
  intros (A1 & B1 & C1 & D1) (A2 & B2 & C2 & D2). split; [|split; [|split]].
  - intros o Ho Hid. apply A2; auto.
  - intros m Hm Hid. apply B2; auto.
  - intros o Ho. destruct (C2 o Ho) as [Ho2|Hid]; auto.
  - congruence.
Qed.

Lemma orders_step_incl ids ids' r r' :
  incl ids ids' -> orders_step_ok ids r r' -> orders_step_ok ids' r r'.
Proof.
  intros Hincl (A & B & C & D). split; [|split; [|split]].
  - intros o Ho Hid. apply A; auto.
  - intros m Hm Hid. apply B; auto.
  - intros o Ho. destruct (C o Ho) as [Ho2|Hid]; auto.
  - exact D.
Qed.

Lemma save_order_step o r : orders_step_ok [ord_id o] r (save_order o r).
Proof.
  split; [|split; [|split]]; simpl.
  - intros x Hx Hid. apply save_row_keeps; [exact Hx|]. intros Heq. apply Hid. simpl; auto.
  - auto.
  - intros x Hx. apply save_row_In in Hx. destruct Hx as [Hx| ->]; auto.
  - reflexivity.
Qed.

Lemma save_market_order_step m r : orders_step_ok [mo_id m] r (save_market_order m r).
Proof.
  split; [|split; [|split]]; simpl.
  - auto.
  - intros x Hx Hid. apply save_row_keeps; [exact Hx|]. intros Heq. apply Hid. simpl; auto.
  - auto.
  - reflexivity.
Qed.

Lemma mo_create_order_step E order r :
  match mo_create_order E order r with
  | inl (_, r') | inr (_, r') => orders_step_ok [orderID order] r r'
  end.
Proof.
  unfold mo_create_order.
  destruct (objects_get _ (stations (db r))) as [e|station]; [apply orders_step_refl|].
  destruct (utcfromtimestamp_raises (issued order)); [apply orders_step_refl|].
  destruct (save_raises_ord E (db r) _) as [e|]; [|apply (save_order_step (new_order E order station))].
  destruct e; try apply orders_step_refl. apply orders_step_log.
Qed.

Lemma mo_order_step E order r :
  match mo_order E order r with
  | inl (_, r') | inr (_, r') => orders_step_ok [orderID order] r r'
  end.
Proof.
  pose proof (mo_create_order_step E order r) as Hcreate.
  unfold mo_order.
  destruct (objects_get _ (orders (db r))) as [e|db_order] eqn:Hget.
  - destruct e; try apply orders_step_refl. exact Hcreate.
  - apply objects_get_In in Hget. destruct Hget as [_ Hid]. apply Z.eqb_eq in Hid.
    destruct (save_raises_ord E (db r) _) as [e|].
    + destruct e; try apply orders_step_refl. exact Hcreate.
    + rewrite <- Hid. apply (save_order_step (updated_order E order db_order)).
Qed.

Lemma mo_market_order_step E c order r :
  orders_step_ok [orderID order] r (state_of (mo_market_order E c order r)).
Proof.
  assert (Hcreate : orders_step_ok [orderID order] r
                      (state_of (mo_create_market_order E c order r))).
  { unfold mo_create_market_order.
    destruct (save_raises_mo E (db r) _); [apply orders_step_refl|].
    apply (save_market_order_step (mkMarketOrder (orderID order) _ _ _ _)). }
  unfold mo_market_order.
  destruct (objects_get _ (market_orders (db r))) as [e|m] eqn:Hget.
  - destruct e; try apply orders_step_refl. exact Hcreate.
  - apply objects_get_In in Hget. destruct Hget as [_ Hid]. apply Z.eqb_eq in Hid.
    destruct (save_raises_mo E (db r) _) as [e|].
    + destruct e; try apply orders_step_refl. exact Hcreate.
    + rewrite <- Hid. apply (save_market_order_step (mkMarketOrder (mo_id m) _ _ _ _)).
Qed.

Lemma mo_for_step E c order_rows : forall r,
  orders_step_ok (map orderID order_rows) r (state_of (mo_for E c order_rows r)).
Proof.
  induction order_rows as [|order rest IH]; intros r; simpl; [apply orders_step_refl|].
  assert (Hhd : incl [orderID order] (orderID order :: map orderID rest))
    by (intros x [<-|[]]; simpl; auto).
  assert (Htl : incl (map orderID rest) (orderID order :: map orderID rest))
    by (intros x Hx; simpl; auto).
  pose proof (mo_order_step E order r) as Hord.
  destruct (mo_order E order r) as [[e r1]|[[|] r1]];
    apply (orders_step_incl _ _ _ _ Hhd) in Hord; simpl; [exact Hord| |].
  - pose proof (mo_market_order_step E c order r1) as Hmo.
    apply (orders_step_incl _ _ _ _ Hhd) in Hmo.
    destruct (mo_market_order E c order r1) as [[e' r2]|r2]; simpl in *.
    + eapply orders_step_trans; eauto.
    + eapply orders_step_trans; [eapply orders_step_trans; eauto|].
      apply (orders_step_incl _ _ _ _ Htl), IH.
  - eapply orders_step_trans; [eauto|]. apply (orders_step_incl _ _ _ _ Htl), IH.
Qed.

Lemma mo_for_app E c l1 l2 : forall r,
  mo_for E c (l1 ++ l2) r
  = match mo_for E c l1 r with
    | inl err => inl err
    | inr r1 => mo_for E c l2 r1
    end.
Proof.
  induction l1 as [|order rest IH]; intros r; simpl; [reflexivity|].
  destruct (mo_order E order r) as [[e r1]|[[|] r1]]; [reflexivity| |apply IH].
  destruct (mo_market_order E c order r1) as [[e r2]|r2]; [reflexivity | apply IH].
Qed.

Lemma mo_market_order_orders E c order r :
  orders (db (state_of (mo_market_order E c order r))) = orders (db r) /\
  stations (db (state_of (mo_market_order E c order r))) = stations (db r).
Proof.
  assert (Hcreate : orders (db (state_of (mo_create_market_order E c order r)))
                    = orders (db r) /\
                    stations (db (state_of (mo_create_market_order E c order r)))
                    = stations (db r)).
  { unfold mo_create_market_order. destruct (save_raises_mo E (db r) _); simpl; auto. }
  unfold mo_market_order.
  destruct (objects_get _ (market_orders (db r))) as [e|m].
  - destruct e; simpl; auto.
  - destruct (save_raises_mo E (db r) _) as [e|]; simpl; auto.
    destruct e; simpl; auto.
Qed.



(** The run once the sheet is there: the loop, then the timer. *)
Lemma mo_run_with_sheet E character_id s c apikey sheet :
  get_character character_id s = inr c ->
  get_valid_apikey c s = inr apikey ->
  MarketOrders E (authenticate apikey c) = inr sheet ->
  ProcessMarketOrdersCharacter_run E character_id s
  = match mo_for E c (rows sheet)
                 (called None (Some (cachedUntil sheet)) (mkRun s [] [])) with
    | inl (e, r') => (Raised e, r')
    | inr r' => update_timer c "MarketOrders" (cachedUntil sheet) r'
    end.
Proof.
  intros Hchar Hkey Hsheet. unfold ProcessMarketOrdersCharacter_run.
  now rewrite Hchar, Hkey, Hsheet.
Qed.

Lemma update_timer_tables c sheet cu r :
  orders (db (snd (update_timer c sheet cu r))) = orders (db r) /\
  market_orders (db (snd (update_timer c sheet cu r))) = market_orders (db r) /\
  stations (db (snd (update_timer c sheet cu r))) = stations (db r).
Proof.
  destruct (update_timer c sheet cu r) as [o r'] eqn:Hupd.
  destruct (update_timer_kept _ _ _ _ _ _ Hupd) as (_ & _ & Hdb & _).
  simpl. rewrite <- Hdb. auto.
Qed.

(** X16. Orders that dropped out of the sheet.  The import never
    deactivates or deletes: an [Orders] row and a [MarketOrder] row whose
    id no sheet of the remote side lists are stored after the run exactly
    as they were before, however the run ends. *)
Theorem unlisted_orders_are_left_alone E character_id s o m :
  In o (orders s) ->
  (forall auth sheet row, MarketOrders E auth = inr sheet -> In row (rows sheet) ->
                          orderID row <> ord_id o) ->
  In m (market_orders s) ->
  (forall auth sheet row, MarketOrders E auth = inr sheet -> In row (rows sheet) ->
                          orderID row <> mo_id m) ->
  In o (orders (db (snd (ProcessMarketOrdersCharacter_run E character_id s)))) /\
  In m (market_orders (db (snd (ProcessMarketOrdersCharacter_run E character_id s)))).
Proof.
  intros Ho Hoid Hm Hmid.
  destruct (get_character character_id s) as [e|c] eqn:Hchar;
    [unfold ProcessMarketOrdersCharacter_run; rewrite Hchar; auto|].
  destruct (get_valid_apikey c s) as [e|apikey] eqn:Hkey;
    [unfold ProcessMarketOrdersCharacter_run; rewrite Hchar, Hkey; destruct e; auto|].
  destruct (MarketOrders E (authenticate apikey c)) as [e|sheet] eqn:Hsheet;
    [unfold ProcessMarketOrdersCharacter_run; rewrite Hchar, Hkey, Hsheet; destruct e; auto|].
  rewrite (mo_run_with_sheet E character_id s c apikey sheet Hchar Hkey Hsheet).
  destruct (mo_for_step E c (rows sheet)
              (called None (Some (cachedUntil sheet)) (mkRun s [] []))) as (A & B & _).
  assert (Ho' : ~ In (ord_id o) (map orderID (rows sheet))).
  { intros Hin. apply in_map_iff in Hin. destruct Hin as (row & Hid & Hrow).
    exact (Hoid _ _ row Hsheet Hrow Hid). }
  assert (Hm' : ~ In (mo_id m) (map orderID (rows sheet))).
  { intros Hin. apply in_map_iff in Hin. destruct Hin as (row & Hid & Hrow).
    exact (Hmid _ _ row Hsheet Hrow Hid). }
  specialize (A o Ho Ho'). specialize (B m Hm Hm').
  destruct (mo_for E c (rows sheet) _) as [[e r1]|r1]; simpl in *; [auto|].
  destruct (update_timer_tables c "MarketOrders" (cachedUntil sheet) r1) as (-> & -> & _).
  auto.
Qed.

Lemma unlisted_orders_are_left_alone_witness :
  In old_order (orders (db (snd (ProcessMarketOrdersCharacter_run orders_served 1 db_orders))))
  /\ In (mkMarketOrder 8000 1 0 1000 0)
        (market_orders (db (snd (ProcessMarketOrdersCharacter_run orders_served 1 db_orders)))).
Proof.
  apply (unlisted_orders_are_left_alone orders_served 1 db_orders old_order
           (mkMarketOrder 8000 1 0 1000 0)).
  - left. reflexivity.
  - intros auth sheet row [= <-] [<-|[]]. discriminate.
  - left. reflexivity.
  - intros auth sheet row [= <-] [<-|[]]. discriminate.
Defined.

Lemma not_listed (l : list OrderRow) i :
  (forall row, In row l -> orderID row <> i) -> ~ In i (map orderID l).
Proof.
  intros Hne Hin. apply in_map_iff in Hin. destruct Hin as (row & Hid & Hrow).
  exact (Hne row Hrow Hid).
Qed.

(** The rows with the id of an order when the loop reaches it: those
    stored when the loop started, if no earlier order of the sheet has
    this id. *)
Lemma mo_for_reaches E c pre i r0 :
  (forall row, In row pre -> orderID row <> i) ->
  (forall o, ord_id o = i ->
     In o (orders (db (state_of (mo_for E c pre r0)))) <-> In o (orders (db r0))) /\
  stations (db (state_of (mo_for E c pre r0))) = stations (db r0).
Proof.
  intros Hpre. apply not_listed in Hpre.
  destruct (mo_for_step E c pre r0) as (A & _ & C & D). split; [|exact D].
  intros o Hid. split.
  - intros Hin. destruct (C o Hin) as [Ho|Hl]; [exact Ho|]. rewrite Hid in Hl. contradiction.
  - intros Hin. apply A; [exact Hin|]. now rewrite Hid.
Qed.

(** X17. A new order is stored as active.  In a run that completes, an
    order that the sheet lists once and that is not stored yet is created
    from the row of the sheet and the station stored under its station id,
    with [is_active] true whatever the order state of the row says (the
    database is assumed to accept the [Orders] rows). *)
Theorem new_order_is_stored_as_active E character_id s c apikey sheet pre order post :
  get_character character_id s = inr c ->
  get_valid_apikey c s = inr apikey ->
  MarketOrders E (authenticate apikey c) = inr sheet ->
  rows sheet = pre ++ order :: post ->
  (forall row, In row pre -> orderID row <> orderID order) ->
  (forall row, In row post -> orderID row <> orderID order) ->
  (forall o, In o (orders s) -> ord_id o <> orderID order) ->
  (forall s' o, save_raises_ord E s' o = None) ->
  fst (ProcessMarketOrdersCharacter_run E character_id s) = Completed ->
  exists station,
    In station (stations s) /\ sta_id station = or_stationID order /\
    In (new_order E order station)
       (orders (db (snd (ProcessMarketOrdersCharacter_run E character_id s)))) /\
    ord_is_active (new_order E order station) = true.
Proof.
  intros Hchar Hkey Hsheet Hrows Hpre Hpost Hnew Hacc.
  rewrite (mo_run_with_sheet E character_id s c apikey sheet Hchar Hkey Hsheet).
  rewrite Hrows, mo_for_app.
  set (r0 := called None (Some (cachedUntil sheet)) (mkRun s [] [])).
  destruct (mo_for_reaches E c pre (orderID order) r0 Hpre) as [Hsame Hst].
  destruct (mo_for E c pre r0) as [[e ra]|ra]; [discriminate|]. simpl in Hsame, Hst.
  cbn [mo_for]. unfold mo_order.
  rewrite objects_get_none.
  2:{ intros x Hx. apply Z.eqb_neq. intros Hid. apply (Hsame x Hid) in Hx.
      exact (Hnew x Hx Hid). }
  unfold mo_create_order.
  destruct (objects_get _ (stations (db ra))) as [e|station] eqn:Hget; [discriminate|].
  apply objects_get_In in Hget. destruct Hget as [Hin Hid]. apply Z.eqb_eq in Hid.
  destruct (utcfromtimestamp_raises (issued order)); [discriminate|].
  rewrite Hacc.
  destruct (mo_market_order_orders E c order (save_order (new_order E order station) ra))
    as [Hord _].
  destruct (mo_market_order E c order _) as [[e rc]|rc]; [discriminate|]. simpl in Hord.
  destruct (mo_for_step E c post rc) as (A & _).
  assert (Hkept : In (new_order E order station) (orders (db (state_of (mo_for E c post rc))))).
  { apply A; [rewrite Hord; simpl; apply save_row_has | now apply not_listed]. }
  destruct (mo_for E c post rc) as [[e r1]|r1]; [discriminate|]. simpl in Hkept.
  intros _. exists station. rewrite Hst in Hin. split; [exact Hin|]. split; [exact Hid|].
  split; [|reflexivity].
  destruct (update_timer_tables c "MarketOrders" (cachedUntil sheet) r1) as (-> & _).
  exact Hkept.
Qed.

Lemma new_order_is_stored_as_active_witness :
  orderState closed_order = 2 /\
  exists station,
    In station (stations db_orders) /\ sta_id station = or_stationID closed_order /\
    In (new_order orders_served closed_order station)
       (orders (db (snd (ProcessMarketOrdersCharacter_run orders_served 1 db_orders)))) /\
    ord_is_active (new_order orders_served closed_order station) = true.
Proof.
  split; [reflexivity|].
  refine (new_order_is_stored_as_active orders_served 1 db_orders alice alice_key
            (mkSheet [closed_order] 9500) [] closed_order [] _ _ _ _ _ _ _ _ _);
    try reflexivity.
  - intros row [].
  - intros row [].
  - intros o [<-|[]]. discriminate.
Defined.



(** X19. An order at a station that is not stored blocks the import.  When
    the sheet lists an order that is not stored and whose station is not
    in the station table, the lookup of the station raises inside the
    handler of [Orders.DoesNotExist], where nothing catches it: the run
    ends with an exception, at this order at the latest, and the timer is
    not advanced.  Afterwards the order is still not stored and the
    station table is as it was, so the next run ends in the same way. *)
Theorem order_at_unknown_station_blocks_import E character_id s c apikey sheet
        pre order post :
  get_character character_id s = inr c ->
  get_valid_apikey c s = inr apikey ->
  MarketOrders E (authenticate apikey c) = inr sheet ->
  rows sheet = pre ++ order :: post ->
  (forall row, In row pre -> orderID row <> orderID order) ->
  (forall o, In o (orders s) -> ord_id o <> orderID order) ->
  (forall station, In station (stations s) -> sta_id station <> or_stationID order) ->
  (exists e, fst (ProcessMarketOrdersCharacter_run E character_id s) = Raised e) /\
  api_timers (db (snd (ProcessMarketOrdersCharacter_run E character_id s))) = api_timers s /\
  (forall o, In o (orders (db (snd (ProcessMarketOrdersCharacter_run E character_id s)))) ->
             ord_id o <> orderID order) /\
  stations (db (snd (ProcessMarketOrdersCharacter_run E character_id s))) = stations s.
Proof.
  intros Hchar Hkey Hsheet Hrows Hpre Hnew Hnost.
  rewrite (mo_run_with_sheet E character_id s c apikey sheet Hchar Hkey Hsheet).
  rewrite Hrows, mo_for_app.
  set (r0 := called None (Some (cachedUntil sheet)) (mkRun s [] [])).
  destruct (mo_for_reaches E c pre (orderID order) r0 Hpre) as [Hsame Hst].
  destruct (mo_for_state E c pre r0) as [_ Ht].
  assert (Hfail : exists e,
             match mo_for E c pre r0 with
             | inl err => inl err
             | inr r1 => mo_for E c (order :: post) r1
             end = inl (e, state_of (mo_for E c pre r0))).
  { destruct (mo_for E c pre r0) as [[e ra]|ra]; [exists e; reflexivity|].
    simpl in Hsame, Hst. exists DoesNotExist. cbn [mo_for state_of]. unfold mo_order.
    rewrite objects_get_none.
    2:{ intros x Hx. apply Z.eqb_neq. intros Hid. apply (Hsame x Hid) in Hx.
        exact (Hnew x Hx Hid). }
    unfold mo_create_order. rewrite objects_get_none; [reflexivity|].
    intros x Hx. apply Z.eqb_neq. rewrite Hst in Hx. now apply Hnost. }
  destruct Hfail as (e & ->). simpl.
  split; [exists e; reflexivity|]. split; [exact Ht|]. split; [|exact Hst].
  intros o Ho Hid. apply (Hsame o Hid) in Ho. exact (Hnew o Ho Hid).
Qed.

Lemma order_at_unknown_station_blocks_import_witness :
  (exists e, fst (ProcessMarketOrdersCharacter_run orders_served 1 db_without_station)
             = Raised e) /\
  api_timers (db (snd (ProcessMarketOrdersCharacter_run orders_served 1 db_without_station)))
  = timers0.
Proof.
  refine ((fun H => conj (proj1 H) (proj1 (proj2 H)))
            (order_at_unknown_station_blocks_import orders_served 1 db_without_station
               alice alice_key (mkSheet [closed_order] 9500) [] closed_order []
               _ _ _ _ _ _ _)); try reflexivity.
  - intros row [].
  - intros o [<-|[]]. discriminate.
  - intros station [].
Defined.

End OrdersLeftovers.

(** ** The imports of reference data *)

Section Upsert.
Import Tasks.
Context {A : Type} (pk : A -> Z).

Lemma find_map_replace x l i :
  find (fun r => pk r =? i) (map (fun r => if pk r =? pk x then x else r) l)
  = if pk x =? i
    then (if existsb (fun r => pk r =? pk x) l then Some x else None)
    else find (fun r => pk r =? i) l.
Proof.
  induction l as [|a l IH]; simpl; [now destruct (pk x =? i)|].
  destruct (Z.eqb_spec (pk a) (pk x)) as [Heq|Hne]; simpl.
  - rewrite Heq. destruct (Z.eqb_spec (pk x) i); [reflexivity | exact IH].
  - rewrite IH. destruct (Z.eqb_spec (pk x) i) as [Hi|Hi]; [|reflexivity].
    destruct (Z.eqb_spec (pk a) i); [congruence | reflexivity].
Qed.

Lemma find_app_first (f : A -> bool) l1 l2 :
  find f (l1 ++ l2) = match find f l1 with Some y => Some y | None => find f l2 end.
Proof. induction l1 as [|a l1 IH]; simpl; [reflexivity|]. now destruct (f a). Qed.

(** Looking a row up by its key after a save. *)
Lemma find_save_row x table i :
  find (fun r => pk r =? i) (save_row pk x table)
  = if pk x =? i then Some x else find (fun r => pk r =? i) table.
Proof.
  unfold save_row. destruct (existsb (fun r => pk r =? pk x) table) eqn:Hex.
  - rewrite find_map_replace, Hex. reflexivity.
  - rewrite find_app_first. simpl.
    destruct (Z.eqb_spec (pk x) i) as [Hi|Hi].
    + destruct (find (fun r => pk r =? i) table) as [y|] eqn:Hf; [|reflexivity].
      apply find_some in Hf. destruct Hf as [Hy Hyi]. exfalso.
      assert (existsb (fun r => pk r =? pk x) table = true); [|congruence].
      apply existsb_exists. exists y. split; [exact Hy|]. now rewrite Hi.
    + now destruct (find (fun r => pk r =? i) table).
Qed.

Lemma save_row_keys x table :
  map pk (save_row pk x table)
  = if existsb (fun r => pk r =? pk x) table then map pk table else map pk table ++ [pk x].
Proof.
  unfold save_row. destruct (existsb (fun r => pk r =? pk x) table).
  - rewrite map_map. apply map_ext. intros r.
    destruct (Z.eqb_spec (pk r) (pk x)); congruence.
  - now rewrite map_app.
Qed.

Lemma existsb_keys i table :
  existsb (fun r => pk r =? i) table = true <-> In i (map pk table).
Proof.
  rewrite existsb_exists, in_map_iff. split.
  - intros (r & Hr & Hi). apply Z.eqb_eq in Hi. eauto.
  - intros (r & Hi & Hr). exists r. split; [exact Hr | now apply Z.eqb_eq].
Qed.

Lemma NoDup_save_row x table :
  List.NoDup (map pk table) -> List.NoDup (map pk (save_row pk x table)).
Proof.
  intros Hnd. rewrite save_row_keys.
  destruct (existsb (fun r => pk r =? pk x) table) eqn:Hex; [exact Hnd|].
  apply NoDup_app; [exact Hnd | repeat constructor; intros [] |].
  intros i Hi [<-|[]]. apply existsb_keys in Hi. congruence.
Qed.

Lemma find_keys i table :
  find (fun r => pk r =? i) table <> None <-> In i (map pk table).
Proof.
  rewrite <- existsb_keys. split.
  - destruct (find _ table) as [y|] eqn:Hf; [|congruence]. intros _.
    apply find_some in Hf. apply existsb_exists. exists y. exact Hf.
  - intros Hex Hnone. apply existsb_exists in Hex. destruct Hex as (y & Hy & Hi).
    exact (eq_ind_r (fun b => b = false -> False) (fun H => diff_true_false H) Hi
                    (find_none _ _ Hnone y Hy)).
Qed.

(** With distinct keys, [get] by key is [find]. *)
Lemma objects_get_find i table :
  List.NoDup (map pk table) ->
  objects_get (fun r => pk r =? i) table
  = match find (fun r => pk r =? i) table with
    | Some r => inr r
    | None => inl DoesNotExist
    end.
Proof.
  intros Hnd. unfold objects_get. induction table as [|a l IH]; simpl; [reflexivity|].
  apply NoDup_cons_iff in Hnd. destruct Hnd as [Hnotin Hnd].
  destruct (Z.eqb_spec (pk a) i) as [Heq|Hne]; [|now apply IH].
  rewrite (filter_none_in (fun r => pk r =? i) l); [reflexivity|].
  intros y Hy. apply Z.eqb_neq. intros Hyi. apply Hnotin. rewrite Heq, <- Hyi.
  now apply in_map.
Qed.

End Upsert.

Section RefTypes.
Import Tasks Reference RefData.

Lemma rt_ref_type_accepting save_raises ref_type table :
  accepting save_raises -> List.NoDup (map reftype_id table) ->
  exists n,
    rt_ref_type save_raises ref_type table
    = inr (save_row reftype_id (mkRefType (rt_refTypeID ref_type) n) table) /\
    n = rt_refTypeName ref_type.
Proof.
  intros Hacc Hnd. exists (rt_refTypeName ref_type). split; [|reflexivity].
  unfold rt_ref_type, rt_create. rewrite (objects_get_find reftype_id _ _ Hnd).
  destruct (find _ table) as [type_object|] eqn:Hf; rewrite Hacc; [|reflexivity].
  apply find_some in Hf. destruct Hf as [_ Hid]. apply Z.eqb_eq in Hid. now rewrite Hid.
Qed.

Lemma rt_for_accepting save_raises ref_types : forall table,
  accepting save_raises -> List.NoDup (map reftype_id table) ->
  exists table',
    rt_for save_raises ref_types table = inr table' /\
    List.NoDup (map reftype_id table') /\
    (forall i, named i table'
               = match last_name ref_types i with
                 | Some n => Some n
                 | None => named i table
                 end) /\
    ((forall r, In r ref_types -> In (rt_refTypeID r) (map reftype_id table)) ->
     map reftype_id table' = map reftype_id table).
Proof.
  induction ref_types as [|r rest IH]; intros table Hacc Hnd; simpl.
  - exists table. auto.
  - destruct (rt_ref_type_accepting save_raises r table Hacc Hnd) as (n & -> & ->).
    set (x := mkRefType (rt_refTypeID r) (rt_refTypeName r)).
    destruct (IH (save_row reftype_id x table) Hacc (NoDup_save_row reftype_id x table Hnd))
      as (table' & Hfor & Hnd' & Hnames & Hkeys).
    exists table'. split; [exact Hfor|]. split; [exact Hnd'|]. split.
    + intros i. rewrite Hnames. destruct (last_name rest i); [reflexivity|].
      unfold named. rewrite find_save_row. simpl.
      destruct (rt_refTypeID r =? i); reflexivity.
    + intros Hall.
      assert (Hsame : map reftype_id (save_row reftype_id x table) = map reftype_id table).
      { rewrite save_row_keys.
        replace (existsb (fun t => reftype_id t =? reftype_id x) table) with true;
          [reflexivity|].
        symmetry. apply existsb_keys. apply Hall. simpl; auto. }
      rewrite Hkeys; [exact Hsame|].
      intros r0 Hr0. rewrite Hsame. apply Hall. simpl; auto.
Qed.

(** X20. The import of the reference types is a map update.  When the
    ids of the table are distinct and the database accepts the rows, the
    run returns the number of rows of the sheet and leaves a table with
    distinct ids in which every id that the sheet lists carries the name
    of its last listing, and every other id the name it had. *)
Theorem ref_types_import_is_a_map_update save_raises ref_types table :
  accepting save_raises -> List.NoDup (map reftype_id table) ->
  fst (ProcessRefTypes_run save_raises (inr ref_types) table)
  = inr (List.length ref_types) /\
  List.NoDup (map reftype_id (snd (ProcessRefTypes_run save_raises (inr ref_types) table))) /\
  forall i, named i (snd (ProcessRefTypes_run save_raises (inr ref_types) table))
            = match last_name ref_types i with
              | Some n => Some n
              | None => named i table
              end.
Proof.
  intros Hacc Hnd. unfold ProcessRefTypes_run.
  destruct (rt_for_accepting save_raises ref_types table Hacc Hnd)
    as (table' & -> & Hnd' & Hnames & _).
  simpl. auto.
Qed.

Lemma ref_table_distinct : List.NoDup (map reftype_id ref_table).
Proof. repeat constructor; simpl; intuition discriminate. Qed.

Lemma ref_types_import_is_a_map_update_witness :
  snd (ProcessRefTypes_run accept_all (inr ref_sheet) ref_table)
  = [mkRefType 1 "Player Trading"; mkRefType 2 "Market Transaction (new)";
     mkRefType 10 "Player Donation"] /\
  named 2 (snd (ProcessRefTypes_run accept_all (inr ref_sheet) ref_table))
  = Some "Market Transaction (new)"%string.
Proof.
  split; [reflexivity|].
  exact (proj2 (proj2 (ref_types_import_is_a_map_update accept_all ref_sheet ref_table
                         (fun _ _ => eq_refl) ref_table_distinct)) 2).
Defined.

Lemma last_name_listed ref_types r :
  In r ref_types -> last_name ref_types (rt_refTypeID r) <> None.
Proof.
  induction ref_types as [|a l IH]; [intros []|]. intros [->|Hin]; simpl.
  - destruct (last_name l (rt_refTypeID r)); [discriminate|].
    rewrite Z.eqb_refl. discriminate.
  - specialize (IH Hin). destruct (last_name l (rt_refTypeID r)); [discriminate | congruence].
Qed.

(** Two tables with the same distinct ids, in the same order, and the
    same names are the same table. *)
Lemma ref_table_ext (t1 : list RefType) : forall t2,
  List.NoDup (map reftype_id t1) -> map reftype_id t1 = map reftype_id t2 ->
  (forall i, named i t1 = named i t2) -> t1 = t2.
Proof.
  induction t1 as [|a l1 IH]; intros [|b l2] Hnd Hids Hnames; try discriminate;
    [reflexivity|].
  simpl in Hids. injection Hids as Hab Hids.
  cbn [map] in Hnd. apply NoDup_cons_iff in Hnd. destruct Hnd as [Hnotin Hnd].
  assert (Heq : a = b).
  { pose proof (Hnames (reftype_id a)) as Hn. unfold named in Hn. simpl in Hn.
    rewrite <- Hab, Z.eqb_refl in Hn. simpl in Hn.
    destruct a, b; simpl in *. congruence. }
  subst b. f_equal. apply IH; [exact Hnd | exact Hids|].
  intros i. pose proof (Hnames i) as Hn. unfold named in *. simpl in Hn.
  destruct (Z.eqb_spec (reftype_id a) i) as [Hi|Hi]; [|exact Hn].
  assert (H1 : find (fun t => reftype_id t =? i) l1 = None).
  { destruct (find _ l1) eqn:Hf; [|reflexivity]. exfalso. apply Hnotin. rewrite Hi.
    apply (find_keys reftype_id). congruence. }
  assert (H2 : find (fun t => reftype_id t =? i) l2 = None).
  { destruct (find _ l2) eqn:Hf; [|reflexivity]. exfalso. apply Hnotin. rewrite Hi, Hids.
    apply (find_keys reftype_id). congruence. }
  now rewrite H1, H2.
Qed.

(** X21. The import of the reference types is idempotent: under the same
    assumptions, importing the same sheet again leaves the table exactly
    as the first import left it, also when the sheet lists an id more than
    once under different names. *)
Theorem ref_types_import_is_idempotent save_raises ref_types table :
  accepting save_raises -> List.NoDup (map reftype_id table) ->
  ProcessRefTypes_run save_raises (inr ref_types)
    (snd (ProcessRefTypes_run save_raises (inr ref_types) table))
  = ProcessRefTypes_run save_raises (inr ref_types) table.
Proof.
  intros Hacc Hnd. unfold ProcessRefTypes_run.
  destruct (rt_for_accepting save_raises ref_types table Hacc Hnd)
    as (table1 & -> & Hnd1 & Hnames1 & _).
  simpl.
  destruct (rt_for_accepting save_raises ref_types table1 Hacc Hnd1)
    as (table2 & -> & Hnd2 & Hnames2 & Hkeys2).
  f_equal. symmetry. apply ref_table_ext; [exact Hnd1| |].
  - symmetry. apply Hkeys2. intros r Hr. apply (find_keys reftype_id).
    pose proof (last_name_listed ref_types r Hr) as Hl.
    pose proof (Hnames1 (rt_refTypeID r)) as Hn. unfold named in Hn.
    destruct (last_name ref_types (rt_refTypeID r)); [|congruence].
    destruct (find _ table1); [discriminate | discriminate].
  - intros i. rewrite Hnames2, Hnames1.
    destruct (last_name ref_types i); reflexivity.
Qed.

Lemma ref_types_import_is_idempotent_witness :
  ProcessRefTypes_run accept_all (inr ref_sheet)
    (snd (ProcessRefTypes_run accept_all (inr ref_sheet) ref_table))
  = ProcessRefTypes_run accept_all (inr ref_sheet) ref_table.
Proof.
  exact (ref_types_import_is_idempotent accept_all ref_sheet ref_table
           (fun _ _ => eq_refl) ref_table_distinct).
Defined.

End RefTypes.

Section Stations.
Import Tasks Reference RefData StationData.

Lemma with_name_twice n n' st : with_name n' (with_name n st) = with_name n' st.
Proof. reflexivity. Qed.

Lemma st_station_keeps save_raises systems station table w table1 w1 i st :
  (forall t x, save_raises t x <> Some DoesNotExist) ->
  List.NoDup (map station_id table) ->
  find (fun x => station_id x =? i) table = Some st ->
  st_station save_raises systems station (table, w) = inr (table1, w1) ->
  List.NoDup (map station_id table1) /\
  find (fun x => station_id x =? i) table1
  = Some (if op_stationID station =? i then with_name (op_stationName station) st else st).
Proof.
  intros Hnodne Hnd Hst. unfold st_station. simpl fst.
  rewrite (objects_get_find station_id _ _ Hnd).
  destruct (find (fun x => station_id x =? op_stationID station) table) as [so|] eqn:Hso.
  - pose proof (find_some _ _ Hso) as [_ Hid]. apply Z.eqb_eq in Hid.
    destruct (save_raises table (with_name (op_stationName station) so)) as [e|] eqn:Hsave.
    { destruct e; try discriminate. now apply Hnodne in Hsave. }
    intros [= <- <-]. split; [now apply NoDup_save_row|].
    rewrite find_save_row. simpl. rewrite Hid.
    destruct (Z.eqb_spec (op_stationID station) i) as [Hi|Hi]; [|exact Hst].
    rewrite Hi in Hso. congruence.
  - assert (Hne : (op_stationID station =? i) = false).
    { apply Z.eqb_neq. intros Hi. rewrite Hi in Hso. congruence. }
    rewrite Hne. unfold st_create. simpl fst. simpl snd.
    destruct (objects_get _ systems) as [e|system]; [discriminate|].
    destruct (save_raises table _) as [e|] eqn:Hsave.
    + destruct e; try discriminate. intros [= <- <-]. auto.
    + intros [= <- <-]. split; [now apply NoDup_save_row|].
      rewrite find_save_row. simpl. now rewrite Hne.
Qed.

Lemma st_for_keeps save_raises systems outposts i : forall table w table' w' st,
  (forall t x, save_raises t x <> Some DoesNotExist) ->
  List.NoDup (map station_id table) ->
  find (fun x => station_id x =? i) table = Some st ->
  st_for save_raises systems outposts (table, w) = inr (table', w') ->
  find (fun x => station_id x =? i) table'
  = Some (match last_station_name outposts i with
          | Some n => with_name n st
          | None => st
          end).
Proof.
  induction outposts as [|station rest IH]; intros table w table' w' st Hnodne Hnd Hst; simpl.
  - intros [= <- <-]. exact Hst.
  - destruct (st_station save_raises systems station (table, w)) as [err|[table1 w1]] eqn:Hstep;
      [discriminate|].
    destruct (st_station_keeps _ _ _ _ _ _ _ i st Hnodne Hnd Hst Hstep) as [Hnd1 Hst1].
    intros Hfor. rewrite (IH _ _ _ _ _ Hnodne Hnd1 Hst1 Hfor).
    destruct (last_station_name rest i); destruct (op_stationID station =? i); reflexivity.
Qed.

(** X22. A stored outpost only ever changes its name.  When the ids of the
    station table are distinct (and no save raises
    [StaStation.DoesNotExist]), a run that returns leaves every station
    that was stored before under its id, with the name of its last listing
    in the sheet if the sheet lists it, and with the solar system, type,
    constellation and region it had, whatever the sheet says about
    them. *)
Theorem stored_station_only_changes_its_name save_raises outposts systems table i st n :
  (forall t x, save_raises t x <> Some DoesNotExist) ->
  List.NoDup (map station_id table) ->
  find (fun x => station_id x =? i) table = Some st ->
  fst (ProcessConquerableStations_run save_raises (inr outposts) systems table) = inr n ->
  find (fun x => station_id x =? i)
       (fst (snd (ProcessConquerableStations_run save_raises (inr outposts) systems table)))
  = Some (match last_station_name outposts i with
          | Some name => with_name name st
          | None => st
          end) /\
  n = List.length outposts.
Proof.
  intros Hnodne Hnd Hst. unfold ProcessConquerableStations_run.
  destruct (st_for save_raises systems outposts (table, O)) as [[e st']|[table' w']] eqn:Hfor;
    [discriminate|].
  simpl. intros [= <-]. split; [|reflexivity].
  exact (st_for_keeps _ _ _ i _ _ _ _ st Hnodne Hnd Hst Hfor).
Qed.

Lemma stored_station_only_changes_its_name_witness :
  find (fun x => station_id x =? 61000001)
       (fst (snd (ProcessConquerableStations_run accept_all (inr outposts0) systems0
                                                  stations0)))
  = Some (mkStation 61000001 "New name" 30000142 21644 20000020 10000002).
Proof.
  refine (proj1 (stored_station_only_changes_its_name accept_all outposts0 systems0 stations0
                   61000001 (mkStation 61000001 "Old name" 30000142 21644 20000020 10000002)
                   1%nat _ _ _ _)); try reflexivity.
  - discriminate.
  - repeat constructor. intros [].
Defined.

Lemma station_ok_refl systems table x : In x table -> station_ok systems table x.
Proof. intros Hx. left. exists x. split; [exact Hx | repeat split]. Qed.

Lemma station_ok_renamed systems table x n :
  station_ok systems table x -> station_ok systems table (with_name n x).
Proof.
  intros [(st & Hst & Hsame)|(system & Hs & Hrest)]; [left | right].
  - exists st. split; [exact Hst | exact Hsame].
  - exists system. split; [exact Hs | exact Hrest].
Qed.

Lemma st_station_ok save_raises systems table0 station st :
  (forall x, In x (fst st) -> station_ok systems table0 x) ->
  forall x,
    In x (fst (match st_station save_raises systems station st with
               | inl (_, st') => st'
               | inr st' => st'
               end)) ->
    station_ok systems table0 x.
Proof.
  intros Hinv.
  assert (Hcreate : forall x,
             In x (fst (match st_create save_raises systems station st with
                        | inl (_, st') => st'
                        | inr st' => st'
                        end)) -> station_ok systems table0 x).
  { unfold st_create.
    destruct (objects_get _ systems) as [e|system] eqn:Hget; [exact Hinv|].
    apply objects_get_In in Hget. destruct Hget as [Hin Hid]. apply Z.eqb_eq in Hid.
    destruct (save_raises (fst st) _) as [e|]; [destruct e; exact Hinv|].
    simpl. intros x Hx. apply save_row_In in Hx. destruct Hx as [Hx| ->]; [now apply Hinv|].
    right. exists system. simpl. auto. }
  unfold st_station.
  destruct (objects_get _ (fst st)) as [e|so] eqn:Hget.
  - destruct e; try exact Hinv. exact Hcreate.
  - apply objects_get_In in Hget. destruct Hget as [Hso _].
    destruct (save_raises (fst st) _) as [e|].
    + destruct e; try exact Hinv. exact Hcreate.
    + simpl. intros x Hx. apply save_row_In in Hx. destruct Hx as [Hx| ->]; [now apply Hinv|].
      apply station_ok_renamed, Hinv, Hso.
Qed.

Lemma st_for_ok save_raises systems table0 outposts : forall st,
  (forall x, In x (fst st) -> station_ok systems table0 x) ->
  forall x,
    In x (fst (match st_for save_raises systems outposts st with
               | inl (_, st') => st'
               | inr st' => st'
               end)) ->
    station_ok systems table0 x.
Proof.
  induction outposts as [|station rest IH]; intros st Hinv; simpl; [exact Hinv|].
  pose proof (st_station_ok save_raises systems table0 station st Hinv) as Hstep.
  destruct (st_station save_raises systems station st) as [[e st1]|st1]; [exact Hstep|].
  now apply IH.
Qed.

(** X23. What the station table holds after a run, however the run ends
    and whatever the database raises: every row is a row that was stored
    before, under another name at most, or it carries the constellation
    and the region of the stored solar system whose id it names: no
    station is created for a solar system that is not stored. *)
Theorem stations_after_import_are_consistent save_raises answer systems table x :
  In x (fst (snd (ProcessConquerableStations_run save_raises answer systems table))) ->
  station_ok systems table x.
Proof.
  unfold ProcessConquerableStations_run.
  destruct answer as [e|outposts]; [apply station_ok_refl|].
  pose proof (st_for_ok save_raises systems table outposts (table, O)
                (station_ok_refl systems table)) as Hfor.
  destruct (st_for save_raises systems outposts (table, O)) as [[e st]|st]; exact (Hfor x).
Qed.

Lemma stations_after_import_are_consistent_witness :
  station_ok systems0 stations0
             (mkStation 61000001 "New name" 30000142 21644 20000020 10000002).
Proof.
  apply (stations_after_import_are_consistent accept_all (inr outposts0) systems0 stations0).
  left. reflexivity.
Defined.

End Stations.

Section Skills.
Import Tasks Reference RefData StationData.

Lemma save_row_filter {A} (pk : A -> Z) (F : A -> bool) table x x' :
  List.NoDup (map pk table) -> In x table -> pk x' = pk x ->
  F x = false -> F x' = false ->
  List.filter F (save_row pk x' table) = List.filter F table.
Proof.
  intros Hnd Hin Hpk HF HF'. unfold save_row.
  assert (Hex : existsb (fun r => pk r =? pk x') table = true).
  { apply existsb_exists. exists x. split; [exact Hin|]. rewrite Hpk. apply Z.eqb_refl. }
  rewrite Hex. apply filter_map_fixed. intros y Hy.
  destruct (Z.eqb_spec (pk y) (pk x')) as [Heq|Hne]; [|left; reflexivity].
  right. assert (y = x) by (apply (pk_unique pk table); auto; congruence).
  subst y. auto.
Qed.

Lemma NoDup_insert {A} (pk : A -> Z) table x :
  List.NoDup (map pk table) -> pk x = next_id pk table ->
  List.NoDup (map pk (table ++ [x])).
Proof.
  intros Hnd Hx. rewrite map_app. apply NoDup_app; [exact Hnd | repeat constructor; intros []|].
  intros i Hi [<-|[]]. apply in_map_iff in Hi. destruct Hi as (y & Hyi & Hy).
  pose proof (next_id_fresh pk table y Hy). lia.
Qed.

Lemma sk_for_app save_raises c l1 l2 : forall table,
  sk_for save_raises c (l1 ++ l2) table
  = match sk_for save_raises c l1 table with
    | inl err => inl err
    | inr table1 => sk_for save_raises c l2 table1
    end.
Proof.
  induction l1 as [|skill rest IH]; intros table; simpl; [reflexivity|].
  destruct (sk_skill save_raises c skill table); [reflexivity | apply IH].
Qed.

(** A step for another skill leaves the rows of the skill alone. *)
Lemma sk_skill_other save_raises c skill t table :
  accepting save_raises -> List.NoDup (map cs_id table) -> sk_typeID skill <> t ->
  exists table1,
    sk_skill save_raises c skill table = inr table1 /\
    List.NoDup (map cs_id table1) /\
    List.filter (fun x => (cs_character x =? c) && (cs_skill_id x =? t)) table1
    = List.filter (fun x => (cs_character x =? c) && (cs_skill_id x =? t)) table.
Proof.
  intros Hacc Hnd Hne. unfold sk_skill, sk_create.
  assert (Hcreate : exists table1,
             inr (table ++ [cs_with_id (next_id cs_id table)
                              (mkCharSkill 0 c (sk_typeID skill) (sk_skillpoints skill)
                                           (sk_level skill))])
             = @inr (exn * list CharSkill) _ table1 /\
             List.NoDup (map cs_id table1) /\
             List.filter (fun x => (cs_character x =? c) && (cs_skill_id x =? t)) table1
             = List.filter (fun x => (cs_character x =? c) && (cs_skill_id x =? t)) table).
  { eexists. split; [reflexivity|]. split; [now apply NoDup_insert|].
    rewrite List.filter_app. simpl.
    destruct (Z.eqb_spec (sk_typeID skill) t); [contradiction|].
    rewrite andb_false_r. apply app_nil_r. }
  destruct (objects_get _ table) as [e|c_skill] eqn:Hget; rewrite Hacc; [exact Hcreate|].
  apply objects_get_In in Hget. destruct Hget as [Hin HQ].
  apply andb_true_iff in HQ. destruct HQ as [_ Hsk]. apply Z.eqb_eq in Hsk.
  eexists. split; [reflexivity|]. split; [now apply NoDup_save_row|].
  apply (save_row_filter cs_id _ table c_skill); auto; simpl; rewrite Hsk;
    (destruct (Z.eqb_spec (sk_typeID skill) t); [contradiction | apply andb_false_r]).
Qed.

Lemma sk_for_others save_raises c t skills : forall table,
  accepting save_raises -> List.NoDup (map cs_id table) ->
  (forall s, In s skills -> sk_typeID s <> t) ->
  exists table1,
    sk_for save_raises c skills table = inr table1 /\
    List.NoDup (map cs_id table1) /\
    List.filter (fun x => (cs_character x =? c) && (cs_skill_id x =? t)) table1
    = List.filter (fun x => (cs_character x =? c) && (cs_skill_id x =? t)) table.
Proof.
  induction skills as [|skill rest IH]; intros table Hacc Hnd Hne; simpl.
  - exists table. auto.
  - destruct (sk_skill_other save_raises c skill t table Hacc Hnd) as (table1 & -> & Hnd1 & Hf1);
      [apply Hne; simpl; auto|].
    destruct (IH table1 Hacc Hnd1) as (table2 & Hfor & Hnd2 & Hf2);
      [intros s Hs; apply Hne; simpl; auto|].
    exists table2. split; [exact Hfor|]. split; [exact Hnd2 | congruence].
Qed.

(** The step for the skill itself. *)
Lemma sk_skill_itself save_raises c skill table :
  accepting save_raises -> List.NoDup (map cs_id table) ->
  exists table1 x,
    sk_skill save_raises c skill table = inr table1 /\
    List.NoDup (map cs_id table1) /\
    List.length (List.filter (fun x => (cs_character x =? c)
                                       && (cs_skill_id x =? sk_typeID skill)) table1)
    = (if Nat.eqb (List.length
                     (List.filter (fun x => (cs_character x =? c)
                                            && (cs_skill_id x =? sk_typeID skill)) table)) 1
       then 1%nat
       else S (List.length
                 (List.filter (fun x => (cs_character x =? c)
                                        && (cs_skill_id x =? sk_typeID skill)) table))) /\
    In x (List.filter (fun x => (cs_character x =? c)
                                && (cs_skill_id x =? sk_typeID skill)) table1) /\
    cs_skillpoints x = sk_skillpoints skill /\ cs_level x = sk_level skill.
Proof.
  intros Hacc Hnd. unfold sk_skill, sk_create, objects_get.
  set (Q := fun x => (cs_character x =? c) && (cs_skill_id x =? sk_typeID skill)).
  set (new_skill := cs_with_id (next_id cs_id table)
                      (mkCharSkill 0 c (sk_typeID skill) (sk_skillpoints skill)
                                   (sk_level skill))).
  assert (HQnew : Q new_skill = true)
    by (unfold Q; simpl; now rewrite !Z.eqb_refl).
  assert (Hcreate : List.NoDup (map cs_id (table ++ [new_skill])) /\
                    List.filter Q (table ++ [new_skill]) = List.filter Q table ++ [new_skill]).
  { split; [now apply NoDup_insert|]. rewrite List.filter_app. simpl. now rewrite HQnew. }
  destruct Hcreate as [Hnd' Hf'].
  destruct (List.filter Q table) as [|a [|b l]] eqn:Hf; rewrite Hacc.
  - exists (table ++ [new_skill]), new_skill. split; [reflexivity|]. split; [exact Hnd'|].
    rewrite Hf'. simpl. auto.
  - assert (Ha : In a table /\ Q a = true)
      by (apply filter_In; rewrite Hf; simpl; auto).
    destruct Ha as [Hain HQa].
    set (a' := mkCharSkill (cs_id a) (cs_character a) (cs_skill_id a)
                           (sk_skillpoints skill) (sk_level skill)).
    assert (Hfa : List.filter Q (save_row cs_id a' table) = [a']).
    { unfold save_row.
      replace (existsb (fun r => cs_id r =? cs_id a') table) with true.
      - rewrite filter_map_stable.
        + rewrite Hf. simpl. now rewrite Z.eqb_refl.
        + intros y Hy. destruct (Z.eqb_spec (cs_id y) (cs_id a')) as [Heq|]; [|reflexivity].
          assert (y = a) by (apply (pk_unique cs_id table); auto).
          subst y. reflexivity.
      - symmetry. apply existsb_exists. exists a. split; [exact Hain | apply Z.eqb_refl]. }
    exists (save_row cs_id a' table), a'. split; [reflexivity|].
    split; [now apply NoDup_save_row|]. rewrite Hfa. simpl. auto.
  - exists (table ++ [new_skill]), new_skill. split; [reflexivity|]. split; [exact Hnd'|].
    rewrite Hf'. rewrite length_app. simpl. split; [f_equal; f_equal; lia|].
    split; [right; right; apply in_or_app; simpl; auto | auto].
Qed.

(** X24. The bare [except:] of the skill loop.  With distinct primary keys
    and a database that accepts the rows, the loop over the skills of a
    sheet returns, and for a skill that the sheet lists once: when no row
    or one row is stored for the character and skill, exactly one row is
    stored afterwards; when more than one row is stored, the lookup fails,
    the handler adds a row, and one more row is stored afterwards than
    before, so that every run adds another one.  In each case a row with
    the skill points and level of the sheet is stored. *)
Theorem skill_rows_multiply_once_duplicated save_raises c pre skill post table :
  accepting save_raises -> List.NoDup (map cs_id table) ->
  (forall s, In s pre -> sk_typeID s <> sk_typeID skill) ->
  (forall s, In s post -> sk_typeID s <> sk_typeID skill) ->
  exists table' x,
    sk_for save_raises c (pre ++ skill :: post) table = inr table' /\
    List.length (List.filter (fun x => (cs_character x =? c)
                                       && (cs_skill_id x =? sk_typeID skill)) table')
    = (if Nat.eqb (List.length
                     (List.filter (fun x => (cs_character x =? c)
                                            && (cs_skill_id x =? sk_typeID skill)) table)) 1
       then 1%nat
       else S (List.length
                 (List.filter (fun x => (cs_character x =? c)
                                        && (cs_skill_id x =? sk_typeID skill)) table))) /\
    In x (List.filter (fun x => (cs_character x =? c)
                                && (cs_skill_id x =? sk_typeID skill)) table') /\
    cs_skillpoints x = sk_skillpoints skill /\ cs_level x = sk_level skill.
Proof.
  intros Hacc Hnd Hpre Hpost. rewrite sk_for_app.
  destruct (sk_for_others save_raises c (sk_typeID skill) pre table Hacc Hnd Hpre)
    as (table1 & -> & Hnd1 & Hf1).
  cbn [sk_for].
  destruct (sk_skill_itself save_raises c skill table1 Hacc Hnd1)
    as (table2 & x & -> & Hnd2 & Hlen & Hx & Hpts & Hlvl).
  destruct (sk_for_others save_raises c (sk_typeID skill) post table2 Hacc Hnd2 Hpost)
    as (table3 & -> & _ & Hf3).
  exists table3, x. split; [reflexivity|]. rewrite Hf3, <- Hf1. auto.
Qed.

Lemma skill_rows_multiply_once_duplicated_witness :
  exists table' x,
    sk_for accept_all 1 [mkSkillRow 3301 500 2; mkSkillRow 3300 8000 3] skills0 = inr table' /\
    List.length (List.filter (fun x => (cs_character x =? 1) && (cs_skill_id x =? 3300)) table')
    = 3%nat /\
    In x (List.filter (fun x => (cs_character x =? 1) && (cs_skill_id x =? 3300)) table') /\
    cs_skillpoints x = 8000 /\ cs_level x = 3.
Proof.
  refine (skill_rows_multiply_once_duplicated accept_all 1 [mkSkillRow 3301 500 2]
            (mkSkillRow 3300 8000 3) [] skills0 (fun _ _ => eq_refl) _ _ _).
  - repeat constructor; simpl; intuition discriminate.
  - intros s [<-|[]]. discriminate.
  - intros s [].
Defined.

End Skills.

(** ** The handlers of MultipleObjectsReturned *)

Section DuplicateHandlers.
Import Tasks Inv TaskData DuplicateData.

Lemma delete_others_untouched {A} (pk : A -> Z) (Q : A -> bool) table rest :
  List.NoDup (map pk table) ->
  (forall x, In x rest -> In x table /\ Q x = true) ->
  List.filter (fun y => negb (Q y)) (fold_left (fun tb x => delete_row pk x tb) rest table)
  = List.filter (fun y => negb (Q y)) table.
Proof.
  intros Hnd Hrest. rewrite delete_rows_filter, filter_twice.
  apply filter_ext_in. intros y Hy.
  destruct (Q y) eqn:HQ; simpl; [apply andb_false_r|]. rewrite andb_true_r.
  apply negb_true_iff, not_true_iff_false. intros Hex.
  apply existsb_exists in Hex. destruct Hex as (x & Hx & Heq). apply Z.eqb_eq in Heq.
  destruct (Hrest x Hx) as [Hxin HQx].
  assert (y = x) by (apply (pk_unique pk table); auto). subst y. congruence.
Qed.

Lemma wt_delete_loop_log ds : forall r,
  log (fold_left
         (fun r duplicate =>
            with_db (with_market_transactions
                       (delete_row mt_id duplicate (market_transactions (db r))) (db r))
                    (logged (WarnDuplicateMarketTransaction (mt_id duplicate)
                                                            (mt_transaction_id duplicate)) r))
         ds r)
  = log r ++ map (fun d => WarnDuplicateMarketTransaction (mt_id d) (mt_transaction_id d)) ds.
Proof.
  induction ds as [|d ds IH]; intros r; simpl; [now rewrite app_nil_r|].
  rewrite IH. simpl. now rewrite <- app_assoc.
Qed.

Lemma wj_delete_loop_log ds : forall r,
  log (fold_left
         (fun r duplicate =>
            with_db (with_journal_entries
                       (delete_row je_id duplicate (journal_entries (db r))) (db r))
                    (logged (WarnDuplicateJournalEntry (je_id duplicate)
                                                       (je_ref_id duplicate)) r))
         ds r)
  = log r ++ map (fun d => WarnDuplicateJournalEntry (je_id d) (je_ref_id d)) ds.
Proof.
  induction ds as [|d ds IH]; intros r; simpl; [now rewrite app_nil_r|].
  rewrite IH. simpl. now rewrite <- app_assoc.
Qed.

(** X25. What the handlers of [MultipleObjectsReturned] do.  With distinct
    primary keys, the handler of a walker leaves, of the rows of the
    character that carry the reference id of the record, exactly the one
    stored first; every other row of the table is left as it was, and one
    warning is logged per deleted row.  Stated for each handler on its
    own. *)
Theorem duplicate_handlers_keep_the_first_row c r :
  (forall t d rest,
      List.NoDup (map mt_id (market_transactions (db r))) ->
      wt_duplicates c t (db r) = d :: rest ->
      wt_duplicates c t (db (wt_remove_duplicates c t r)) = [d] /\
      List.filter (fun e => negb ((mt_journal_transaction_id e =? journalTransactionID t)
                                  && (mt_character e =? char_id c)))
                  (market_transactions (db (wt_remove_duplicates c t r)))
      = List.filter (fun e => negb ((mt_journal_transaction_id e =? journalTransactionID t)
                                    && (mt_character e =? char_id c)))
                    (market_transactions (db r)) /\
      log (wt_remove_duplicates c t r)
      = log r ++ map (fun x => WarnDuplicateMarketTransaction (mt_id x)
                                                              (mt_transaction_id x))
                     rest) /\
  (forall j dj restj,
      List.NoDup (map je_id (journal_entries (db r))) ->
      wj_duplicates c j (db r) = dj :: restj ->
      wj_duplicates c j (db (wj_remove_duplicates c j r)) = [dj] /\
      List.filter (fun e => negb ((je_ref_id e =? refID j) && (je_character e =? char_id c)))
                  (journal_entries (db (wj_remove_duplicates c j r)))
      = List.filter (fun e => negb ((je_ref_id e =? refID j)
                                    && (je_character e =? char_id c)))
                    (journal_entries (db r)) /\
      log (wj_remove_duplicates c j r)
      = log r ++ map (fun x => WarnDuplicateJournalEntry (je_id x) (je_ref_id x)) restj).
Proof.
  split.
  - intros t d rest Hnd Hdup. split; [|split].
    + now apply (wt_remove_duplicates_leaves_one c t r d rest).
    + unfold wt_remove_duplicates. rewrite Hdup. simpl tl. rewrite wt_delete_loop_table.
      apply delete_others_untouched; [exact Hnd|].
      intros x Hx.
      assert (Hin : In x (wt_duplicates c t (db r))) by (rewrite Hdup; simpl; auto).
      apply filter_In in Hin. exact Hin.
    + unfold wt_remove_duplicates. rewrite Hdup. simpl tl. apply wt_delete_loop_log.
  - intros j dj restj Hndj Hdupj. split; [|split].
    + now apply (wj_remove_duplicates_leaves_one c j r dj restj).
    + unfold wj_remove_duplicates. rewrite Hdupj. simpl tl. rewrite wj_delete_loop_table.
      apply delete_others_untouched; [exact Hndj|].
      intros x Hx.
      assert (Hin : In x (wj_duplicates c j (db r))) by (rewrite Hdupj; simpl; auto).
      apply filter_In in Hin. exact Hin.
    + unfold wj_remove_duplicates. rewrite Hdupj. simpl tl. apply wj_delete_loop_log.
Qed.

Lemma duplicate_handlers_keep_the_first_row_witness :
  (market_transactions (db (wt_remove_duplicates alice (tx 100) (mkRun db_duplicates [] [])))
   = [stored_tx 1 100; stored_tx 3 101] /\
   journal_entries (db (wj_remove_duplicates alice (jr 200 10) (mkRun db_duplicates [] [])))
   = [stored_jr 1 200; stored_jr 2 201]) /\
  wt_duplicates alice (tx 100)
                (db (wt_remove_duplicates alice (tx 100) (mkRun db_duplicates [] [])))
  = [stored_tx 1 100] /\
  wj_duplicates alice (jr 200 10)
                (db (wj_remove_duplicates alice (jr 200 10) (mkRun db_duplicates [] [])))
  = [stored_jr 1 200].
Proof.
  split; [split; vm_compute; reflexivity|]. split.
  - refine (proj1 (proj1 (duplicate_handlers_keep_the_first_row alice
                            (mkRun db_duplicates [] []))
                         (tx 100) (stored_tx 1 100) [stored_tx 2 100] _ _));
      try (vm_compute; reflexivity);
      repeat constructor; simpl; intuition discriminate.
  - refine (proj1 (proj2 (duplicate_handlers_keep_the_first_row alice
                            (mkRun db_duplicates [] []))
                         (jr 200 10) (stored_jr 1 200) [stored_jr 3 200] _ _));
      try (vm_compute; reflexivity);
      repeat constructor; simpl; intuition discriminate.
Defined.

End DuplicateHandlers.
